(** * Transcription manager: billing periods, credit decisions, job lifecycle

    A shallow embedding of the transcription manager
    ([lib/transcription-manager]) and of the [POST /api/transcribe] route
    handler, with the properties their specification states.

    Conventions of the embedding:
    - a JavaScript [Date] is its time value, an integer number of
      milliseconds since the epoch ([Z]); the arithmetic of the source on
      time values is exact on integers below 2^53;
    - minute amounts are integers ([Z]);
    - [null]/[undefined] are [None];
    - an [async] function is a [Task]: it reads and updates the [World]
      (storage, call trace) and either returns a value or throws. *)

From Stdlib Require Import ZArith Bool Lia.
From stdpp Require Import base option list strings gmap.

Local Open Scope string_scope.
Local Open Scope Z_scope.

(** ** Dates *)

Definition Date : Type := Z.

(** The largest time value of an ECMAScript [Date]: 100,000,000 days. *)
Definition MAX_TIME_VALUE : Z := 8640000000000000.

Definition valid_time (t : Date) : bool :=
  (- MAX_TIME_VALUE <=? t) && (t <=? MAX_TIME_VALUE).

(** ** Data model *)

Inductive TranscriptionJobStatus : Type :=
  | pending
  | downloading
  | transcribing
  | completed
  | failed
  | cancelled.

#[global] Instance TranscriptionJobStatus_eq_dec : EqDecision TranscriptionJobStatus.
Proof. solve_decision. Defined.

(** Modelled from the spec: the [UserSubscription] type is declared in
    [lib/subscription-manager], a module outside the code verified here.
    The fields are the ones the transcription manager reads: the tier name,
    the provider-anchored period dates (present only for paid tiers with
    provider-anchored billing) and the signup anchor. *)
Record UserSubscription : Type := {
  tier : string;
  currentPeriodStart : option Date;
  currentPeriodEnd : option Date;
  userCreatedAt : option Date
}.

Record BillingPeriod : Type := {
  start : Date;
  end_ : Date
}.

(** ** Billing period resolver *)

Definition THIRTY_DAYS_MS : Z := 30 * 24 * 60 * 60 * 1000.

(** The guard of the first branch of [resolveBillingPeriod]: a pro
    subscription carrying both period dates of the billing provider. *)
Definition provider_anchored (subscription : UserSubscription) : bool :=
  bool_decide (tier subscription = "pro")
  && bool_decide (is_Some (currentPeriodStart subscription))
  && bool_decide (is_Some (currentPeriodEnd subscription)).

Definition resolveBillingPeriod (subscription : UserSubscription) (now : Date)
  : BillingPeriod :=
  match bool_decide (tier subscription = "pro"),
        currentPeriodStart subscription,
        currentPeriodEnd subscription with
  | true, Some periodStart, Some periodEnd =>
      (* Pro users: use Stripe billing period *)
      {| start := periodStart; end_ := periodEnd |}
  | _, _, _ =>
      match userCreatedAt subscription with
      | Some signupTime =>
          (* fixed 30-day billing cycles from signup date *)
          let currentTime := now in
          let elapsedMs := currentTime - signupTime in
          let cycleNumber := elapsedMs / THIRTY_DAYS_MS in
          let periodStartMs := signupTime + cycleNumber * THIRTY_DAYS_MS in
          let periodEndMs := periodStartMs + THIRTY_DAYS_MS in
          {| start := periodStartMs; end_ := periodEndMs |}
      | None =>
          (* Fallback: rolling window *)
          {| start := now - THIRTY_DAYS_MS; end_ := now |}
      end
  end.

(** The index of the 30-day cycle, counted from signup, that contains [now]. *)
Definition cycle_of (signup now : Date) : Z := (now - signup) / THIRTY_DAYS_MS.

(** ** Users, jobs and storage rows *)

(** The authenticated user of a request (the [User] of the auth client). *)
Record User : Type := {
  user_id : string;
  user_email : option string
}.

(** The transcript payload of a job. The source types it [any]; the route
    documents it as an object ([transcriptData?: object]), so a payload that
    is present is a truthy value. It is opaque to the code modelled here. *)
Definition TranscriptData : Type := list string.

(** A row of the [transcription_jobs] table, with the column names of the
    source. *)
Module JobRow.
Record t : Type := {
  id : string;
  user_id : string;
  video_id : option string;
  youtube_id : string;
  status : TranscriptionJobStatus;
  error_message : option string;
  duration_seconds : option Z;
  estimated_cost_cents : option Z;
  progress : option Z;
  current_stage : option string;
  audio_storage_path : option string;
  transcript_data : option TranscriptData;
  total_chunks : option Z;
  completed_chunks : option Z;
  created_at : Date;
  started_at : option Date;
  completed_at : option Date;
  updated_at : Date
}.
End JobRow.

(** The [TranscriptionJob] interface. *)
Module Job.
Record t : Type := {
  id : string;
  userId : string;
  videoId : option string;
  youtubeId : string;
  status : TranscriptionJobStatus;
  errorMessage : option string;
  durationSeconds : option Z;
  estimatedCostCents : option Z;
  progress : Z;
  currentStage : option string;
  audioStoragePath : option string;
  transcriptData : option TranscriptData;
  totalChunks : Z;
  completedChunks : Z;
  createdAt : Date;
  startedAt : option Date;
  completedAt : option Date;
  updatedAt : Date
}.
End Job.

Definition mapDbJobToTranscriptionJob (row : JobRow.t) : Job.t :=
  {| Job.id := JobRow.id row;
     Job.userId := JobRow.user_id row;
     Job.videoId := JobRow.video_id row;
     Job.youtubeId := JobRow.youtube_id row;
     Job.status := JobRow.status row;
     Job.errorMessage := JobRow.error_message row;
     Job.durationSeconds := JobRow.duration_seconds row;
     Job.estimatedCostCents := JobRow.estimated_cost_cents row;
     Job.progress := default 0 (JobRow.progress row);
     Job.currentStage := JobRow.current_stage row;
     Job.audioStoragePath := JobRow.audio_storage_path row;
     Job.transcriptData := JobRow.transcript_data row;
     Job.totalChunks := default 1 (JobRow.total_chunks row);
     Job.completedChunks := default 0 (JobRow.completed_chunks row);
     Job.createdAt := JobRow.created_at row;
     Job.startedAt := JobRow.started_at row;
     Job.completedAt := JobRow.completed_at row;
     Job.updatedAt := JobRow.updated_at row |}.

(** The statuses a job can still leave: the list the source passes to
    [.in('status', ...)]. *)
Definition NON_TERMINAL : list TranscriptionJobStatus :=
  [pending; downloading; transcribing].

Definition is_non_terminal (s : TranscriptionJobStatus) : bool :=
  bool_decide (s ∈ NON_TERMINAL).

(** The wire name of a status, and its inverse. *)
Definition status_name (s : TranscriptionJobStatus) : string :=
  match s with
  | pending => "pending"
  | downloading => "downloading"
  | transcribing => "transcribing"
  | completed => "completed"
  | failed => "failed"
  | cancelled => "cancelled"
  end.

Definition status_of_name (s : string) : option TranscriptionJobStatus :=
  List.find (λ st, bool_decide (status_name st = s))
    [pending; downloading; transcribing; completed; failed; cancelled].

(** ** Update payloads

    An update payload is the JavaScript object handed to [.update(...)]: a
    finite map from column names to values. *)

Inductive Value : Type :=
  | VNum (n : Z)
  | VStr (s : string)
  | VTime (t : Date)            (* an ISO-8601 timestamp string *)
  | VJson (d : TranscriptData).

Definition as_status (v : Value) : option TranscriptionJobStatus :=
  match v with VStr s => status_of_name s | _ => None end.
Definition as_number (v : Value) : option (option Z) :=
  match v with VNum n => Some (Some n) | _ => None end.
Definition as_text (v : Value) : option (option string) :=
  match v with VStr s => Some (Some s) | _ => None end.
Definition as_timestamp (v : Value) : option (option Date) :=
  match v with VTime t => Some (Some t) | _ => None end.
Definition as_json (v : Value) : option (option TranscriptData) :=
  match v with VJson d => Some (Some d) | _ => None end.

(** The columns of [transcription_jobs] the manager writes. *)
Definition WRITABLE_COLUMNS : gset string :=
  {[ "status"; "progress"; "current_stage"; "error_message";
     "transcript_data"; "completed_chunks"; "started_at"; "completed_at" ]}.

(** The new value of one column under a payload: the old value when the
    payload has no such key, the decoded payload value otherwise ([None]
    when the value does not fit the column). *)
Definition patched {A : Type} (payload : gmap string Value) (column : string)
    (decode : Value → option A) (old : A) : option A :=
  match payload !! column with
  | None => Some old
  | Some v => decode v
  end.

(** A partial update of one row: columns named in the payload are written,
    every other column keeps its value. The storage layer refuses a payload
    naming another column or carrying an ill-typed value. *)
Definition apply_payload (payload : gmap string Value) (row : JobRow.t)
  : option JobRow.t :=
  if bool_decide (dom payload ⊆ WRITABLE_COLUMNS) then
    status' ← patched payload "status" as_status (JobRow.status row);
    progress' ← patched payload "progress" as_number (JobRow.progress row);
    current_stage' ← patched payload "current_stage" as_text (JobRow.current_stage row);
    error_message' ← patched payload "error_message" as_text (JobRow.error_message row);
    transcript_data' ← patched payload "transcript_data" as_json (JobRow.transcript_data row);
    completed_chunks' ← patched payload "completed_chunks" as_number (JobRow.completed_chunks row);
    started_at' ← patched payload "started_at" as_timestamp (JobRow.started_at row);
    completed_at' ← patched payload "completed_at" as_timestamp (JobRow.completed_at row);
    Some {| JobRow.id := JobRow.id row;
            JobRow.user_id := JobRow.user_id row;
            JobRow.video_id := JobRow.video_id row;
            JobRow.youtube_id := JobRow.youtube_id row;
            JobRow.status := status';
            JobRow.error_message := error_message';
            JobRow.duration_seconds := JobRow.duration_seconds row;
            JobRow.estimated_cost_cents := JobRow.estimated_cost_cents row;
            JobRow.progress := progress';
            JobRow.current_stage := current_stage';
            JobRow.audio_storage_path := JobRow.audio_storage_path row;
            JobRow.transcript_data := transcript_data';
            JobRow.total_chunks := JobRow.total_chunks row;
            JobRow.completed_chunks := completed_chunks';
            JobRow.created_at := JobRow.created_at row;
            JobRow.started_at := started_at';
            JobRow.completed_at := completed_at';
            JobRow.updated_at := JobRow.updated_at row |}
  else None.

(** [UPDATE ... WHERE matches]: the payload is applied to every matching
    row; the statement fails as a whole when one of them refuses it. *)
Fixpoint update_rows (matches : JobRow.t → bool) (payload : gmap string Value)
    (rows : list JobRow.t) : option (list JobRow.t) :=
  match rows with
  | [] => Some []
  | row :: rest =>
      row' ← (if matches row then apply_payload payload row else Some row);
      rest' ← update_rows matches payload rest;
      Some (row' :: rest')
  end.

(** ** The storage and the world *)

Record Profile : Type := {
  transcription_minutes_topup : option Z
}.

(** Modelled from the spec: the credit ledger entry the consumption
    procedure records per job (the table behind the stored procedures is
    defined in a database migration outside the code verified here). An
    entry keeps the split of one consumption: the minutes drawn from the
    subscription pool and from the top-up pool, for a user and a job, at a
    time. *)
Record UsageEntry : Type := {
  entry_user : string;
  entry_job : string;
  entry_at : Date;
  entry_from_subscription : Z;
  entry_from_topup : Z
}.

Record Database : Type := {
  transcription_jobs : list JobRow.t;
  profiles : gmap string Profile;
  transcription_usage : list UsageEntry
}.

(** What the code asks of its collaborators, in call order. *)
Inductive Event : Type :=
  | AuthGetUser
  | UnlimitedCheck (user : User)             (* hasUnlimitedVideoAllowance *)
  | UnlimitedCheckById (userId : string)     (* hasUnlimitedVideoAllowanceById *)
  | SubscriptionLookup (userId : string)     (* getUserSubscriptionStatus *)
  | From (table verb : string)               (* supabase.from(table).verb(...) *)
  | Rpc (fn subject : string)                (* supabase.rpc(fn, ...) *)
  | FetchProcess (jobId : option string).    (* fetch(origin/api/transcribe/process) *)

(** The functions of other modules the code calls. They are parameters of
    the development: [hasUnlimitedVideoAllowance] and
    [hasUnlimitedVideoAllowanceById] of [lib/access-control],
    [getUserSubscriptionStatus] of [lib/subscription-manager],
    [formatResetAt] of [lib/usage-tracker], [estimateCostCents] and
    [estimateProcessingTime] of [lib/gemini-transcription-client], and the
    identifier the storage gives to the n-th job row. *)
Record Collaborators : Type := {
  hasUnlimitedVideoAllowance : User → bool;
  hasUnlimitedVideoAllowanceById : string → bool;
  getUserSubscriptionStatus : string → option UserSubscription;
  formatResetAt : Date → string;
  estimateCostCents : Z → Z;
  estimateProcessingTime : Z → Z;
  generated_id : nat → string
}.

(** The world an [async] function runs in: the storage, the clock, which
    storage calls fail (by position in the trace) and the trace of calls
    made so far. *)
Record World : Type := {
  db : Database;
  clock : Date;
  storage_error : nat → bool;
  trace : list Event
}.

Definition with_db (d : Database) (w : World) : World :=
  {| db := d; clock := clock w; storage_error := storage_error w;
     trace := trace w |}.

Definition with_events (evs : list Event) (w : World) : World :=
  {| db := db w; clock := clock w; storage_error := storage_error w;
     trace := trace w ++ evs |}.

(** ** Tasks: asynchronous computations over the world *)

Inductive Outcome (A : Type) : Type :=
  | Returns (a : A)
  | Throws (err : string).
Arguments Returns {A} a.
Arguments Throws {A} err.

Definition Task (A : Type) : Type := World → Outcome A * World.

#[global] Instance Task_ret : MRet Task := λ A a w, (Returns a, w).

#[global] Instance Task_bind : MBind Task := λ A B k m w,
  match m w with
  | (Returns a, w') => k a w'
  | (Throws err, w') => (Throws err, w')
  end.

Definition throw {A : Type} (err : string) : Task A := λ w, (Throws err, w).

Definition emit (ev : Event) : Task unit :=
  λ w, (Returns tt, with_events [ev] w).

(** [try { body } catch { handler }]. *)
Definition try_catch {A : Type} (body : Task A) (handler : string → Task A)
  : Task A := λ w,
  match body w with
  | (Returns a, w') => (Returns a, w')
  | (Throws err, w') => handler err w'
  end.

(** [new Date()]. *)
Definition new_Date : Task Date := λ w, (Returns (clock w), w).

(** [date.toISOString()]: throws a [RangeError] on a time value outside the
    range of [Date]. The string stands for the time value it denotes. *)
Definition toISOString (date : Date) : Task Date :=
  if valid_time date then mret date
  else throw "RangeError: Invalid time value".

(** The [{ data, error }] answer of a storage call. *)
Inductive Response (A : Type) : Type :=
  | Data (data : A)
  | Error (message : string).
Arguments Data {A} data.
Arguments Error {A} message.

(** One call to the storage: it is recorded in the trace; it fails when the
    world says so, and otherwise runs the statement on the database. *)
Definition storage_call {A : Type} (ev : Event)
    (statement : Date → Database → Response A * Database)
  : Task (Response A) := λ w,
  let w1 := with_events [ev] w in
  if storage_error w (length (trace w)) then
    (Returns (Error "storage failure"), w1)
  else
    let '(answer, d) := statement (clock w) (db w) in
    (Returns answer, with_db d w1).

(** [.maybeSingle()]: no row is [null], one row is that row, several rows
    are an error. [.single()]: exactly one row, or an error. *)
Definition maybeSingle {A : Type} (rows : list A) : Response (option A) :=
  match rows with
  | [] => Data None
  | [row] => Data (Some row)
  | _ => Error "PGRST116"
  end.

Definition single {A : Type} (rows : list A) : Response A :=
  match rows with
  | [row] => Data row
  | _ => Error "PGRST116"
  end.

(** [.order(column, { ascending: false }).limit(1)]: the first row, in table
    order, among those with the greatest key; as in PostgreSQL a descending
    order puts [NULL] keys first. *)
Definition key_before (a b : option Date) : bool :=
  match a, b with
  | None, Some _ => true
  | Some x, Some y => y <? x
  | _, None => false
  end.

Definition order_desc_limit_1 (key : JobRow.t → option Date) (rows : list JobRow.t)
  : list JobRow.t :=
  option_list
    (fold_left
       (λ best row,
          match best with
          | None => Some row
          | Some b => if key_before (key row) (key b) then Some row else Some b
          end)
       rows None).

(** ** Stored procedures

    The manager calls three stored procedures through [supabase.rpc]. Their
    SQL lives in a database migration outside the code verified here. *)

Definition topup_balance (d : Database) (userId : string) : Z :=
  default 0 (profiles d !! userId ≫= transcription_minutes_topup).

Definition set_topup_balance (userId : string) (balance : Z) (d : Database)
  : Database :=
  {| transcription_jobs := transcription_jobs d;
     profiles := <[userId := {| transcription_minutes_topup := Some balance |}]>
                   (profiles d);
     transcription_usage := transcription_usage d |}.

Definition set_usage (entries : list UsageEntry) (d : Database) : Database :=
  {| transcription_jobs := transcription_jobs d;
     profiles := profiles d;
     transcription_usage := entries |}.

Definition set_jobs (rows : list JobRow.t) (d : Database) : Database :=
  {| transcription_jobs := rows;
     profiles := profiles d;
     transcription_usage := transcription_usage d |}.

Definition in_period (userId : string) (periodStart periodEnd : Date)
    (e : UsageEntry) : bool :=
  bool_decide (entry_user e = userId)
  && (periodStart <=? entry_at e) && (entry_at e <? periodEnd).

Definition sum_Z (l : list Z) : Z := foldr Z.add 0 l.

(** Modelled from the spec: the procedure [get_transcription_usage_in_period]
    (the Usage Aggregator): the minutes of the subscription pool a user has
    already consumed inside [[periodStart, periodEnd)], read from the recorded
    consumptions. *)
Definition get_transcription_usage_in_period (p_user_id : string)
    (p_period_start p_period_end : Date) (d : Database) : Z :=
  sum_Z (entry_from_subscription
           <$> List.filter (in_period p_user_id p_period_start p_period_end)
                 (transcription_usage d)).

(** The JSON answer of the consumption procedure, as the manager reads it. *)
Module ConsumeData.
Record t : Type := {
  allowed : bool;
  reason : option string;
  minutes_from_subscription : option Z;
  minutes_from_topup : option Z
}.
End ConsumeData.

(** Modelled from the spec: the procedure
    [consume_transcription_minutes_atomically] (the Atomic Consumption
    Ledger, operation [consume]), one transaction:
    + re-read the period usage and the top-up balance;
    + [fromSubscription = min(minutes, max(0, limit - usedSoFar))];
    + [fromTopup = minutes - fromSubscription];
    + if [fromTopup > currentTopupBalance], reject the whole consumption with
      [INSUFFICIENT_CREDITS], recording nothing;
    + otherwise record the usage increment keyed to the job and debit the
      top-up balance. *)
Definition consume_transcription_minutes_atomically
    (p_user_id p_job_id : string) (p_minutes p_subscription_limit : Z)
    (p_period_start p_period_end : Date) (db_now : Date) (d : Database)
  : ConsumeData.t * Database :=
  let usedSoFar :=
    get_transcription_usage_in_period p_user_id p_period_start p_period_end d in
  let currentTopupBalance := topup_balance d p_user_id in
  let fromSubscription :=
    Z.min p_minutes (Z.max 0 (p_subscription_limit - usedSoFar)) in
  let fromTopup := p_minutes - fromSubscription in
  if currentTopupBalance <? fromTopup then
    ({| ConsumeData.allowed := false;
        ConsumeData.reason := Some "INSUFFICIENT_CREDITS";
        ConsumeData.minutes_from_subscription := None;
        ConsumeData.minutes_from_topup := None |}, d)
  else
    let entry :=
      {| entry_user := p_user_id; entry_job := p_job_id; entry_at := db_now;
         entry_from_subscription := fromSubscription;
         entry_from_topup := fromTopup |} in
    ({| ConsumeData.allowed := true;
        ConsumeData.reason := Some "OK";
        ConsumeData.minutes_from_subscription := Some fromSubscription;
        ConsumeData.minutes_from_topup := Some fromTopup |},
     set_usage (transcription_usage d ++ [entry])
       (set_topup_balance p_user_id (currentTopupBalance - fromTopup) d)).

Module RefundData.
Record t : Type := {
  success : option bool;
  minutes_refunded : option Z
}.
End RefundData.

(** Modelled from the spec: the procedure [refund_transcription_minutes]
    (operation [refund]): look up the split recorded for the job and reverse
    exactly that split, adding the top-up part back to the balance and
    removing the recorded usage; a job with no recorded consumption is a
    no-op returning zero. *)
Definition refund_transcription_minutes (p_job_id : string) (d : Database)
  : RefundData.t * Database :=
  let recorded :=
    List.filter (λ e, bool_decide (entry_job e = p_job_id))
      (transcription_usage d) in
  let kept :=
    List.filter (λ e, negb (bool_decide (entry_job e = p_job_id)))
      (transcription_usage d) in
  let credited :=
    fold_left
      (λ acc e,
         set_topup_balance (entry_user e)
           (topup_balance acc (entry_user e) + entry_from_topup e) acc)
      recorded d in
  match recorded with
  | [] =>
      ({| RefundData.success := Some true;
          RefundData.minutes_refunded := Some 0 |}, d)
  | _ =>
      ({| RefundData.success := Some true;
          RefundData.minutes_refunded :=
            Some (sum_Z ((λ e, entry_from_subscription e + entry_from_topup e)
                           <$> recorded)) |},
       set_usage kept credited)
  end.

(** ** The transcription manager *)

(** Transcription limits (minutes per month). *)
Definition TRANSCRIPTION_LIMITS_free : Z := 0.
Definition TRANSCRIPTION_LIMITS_pro : Z := 120.

Record SubscriptionMinutes : Type := {
  used : Z;
  limit : Z;
  remaining : Z
}.

Record TranscriptionUsageStats : Type := {
  subscriptionMinutes : SubscriptionMinutes;
  topupMinutes : Z;
  totalRemaining : Z;
  periodStart : Date;
  periodEnd : Date;
  resetAt : string;
  isUnlimited : option bool
}.

Inductive DecisionReason : Type :=
  | OK
  | NOT_PRO
  | INSUFFICIENT_CREDITS
  | NO_SUBSCRIPTION
  | EXISTING_JOB.

#[global] Instance DecisionReason_eq_dec : EqDecision DecisionReason.
Proof. solve_decision. Defined.

Module TranscriptionDecision.
Record t : Type := {
  allowed : bool;
  reason : DecisionReason;
  stats : option TranscriptionUsageStats;
  subscription : option UserSubscription;
  willUseTopup : option bool;
  minutesNeeded : option Z;
  existingJobId : option string;
  unlimited : option bool
}.
End TranscriptionDecision.

(** The [options] argument: [now] and [user] (the storage client is the
    world's storage). *)
Module Options.
Record t : Type := {
  now : option Date;
  user : option User
}.
End Options.

(** [options?.now ?? new Date()]. *)
Definition now_of (options : Options.t) : Task Date :=
  match Options.now options with
  | Some now => mret now
  | None => new_Date
  end.

Section Manager.

Context (env : Collaborators).

(** [(options?.user && hasUnlimitedVideoAllowance(options.user)) ||
    hasUnlimitedVideoAllowanceById(userId)], with its short circuit. *)
Definition unlimited_allowance (user : option User) (userId : string)
  : Task bool :=
  byUser ← match user with
           | Some u =>
               emit (UnlimitedCheck u);;
               mret (hasUnlimitedVideoAllowance env u)
           | None => mret false
           end;
  if byUser : bool then mret true
  else
    emit (UnlimitedCheckById userId);;
    mret (hasUnlimitedVideoAllowanceById env userId).

Definition subscription_status (userId : string)
  : Task (option UserSubscription) :=
  emit (SubscriptionLookup userId);;
  mret (getUserSubscriptionStatus env userId).

Definition UNLIMITED_MINUTES : Z := 999999.

(** Get transcription usage statistics for a user. *)
Definition getTranscriptionUsageStats (userId : string) (options : Options.t)
  : Task (option TranscriptionUsageStats) :=
  now ← now_of options;
  isUnlimited ← unlimited_allowance (Options.user options) userId;
  if isUnlimited : bool then
    mret (Some
      {| subscriptionMinutes :=
           {| used := 0; limit := UNLIMITED_MINUTES;
              remaining := UNLIMITED_MINUTES |};
         topupMinutes := 0;
         totalRemaining := UNLIMITED_MINUTES;
         periodStart := now;
         periodEnd := now + 30 * 24 * 60 * 60 * 1000;
         resetAt := "Unlimited";
         isUnlimited := Some true |})
  else
    subscription ← subscription_status userId;
    match subscription with
    | None => mret None
    | Some subscription =>
        if negb (bool_decide (tier subscription = "pro")) then
          (* Only Pro users can use transcription *)
          let period := resolveBillingPeriod subscription now in
          mret (Some
            {| subscriptionMinutes := {| used := 0; limit := 0; remaining := 0 |};
               topupMinutes := 0;
               totalRemaining := 0;
               periodStart := start period;
               periodEnd := end_ period;
               resetAt := formatResetAt env (end_ period);
               isUnlimited := None |})
        else
          let period := resolveBillingPeriod subscription now in
          (* Get subscription usage in current period *)
          p_period_start ← toISOString (start period);
          p_period_end ← toISOString (end_ period);
          usage ← storage_call (Rpc "get_transcription_usage_in_period" userId)
                    (λ _ d,
                       (Data (Some (get_transcription_usage_in_period
                                      userId p_period_start p_period_end d)),
                        d));
          (* (usedMinutesData as number) || 0 *)
          let usedMinutes :=
            match usage with
            | Data (Some n) => n
            | _ => 0
            end in
          let limit := TRANSCRIPTION_LIMITS_pro in
          let subscriptionRemaining := Z.max 0 (limit - usedMinutes) in
          (* Get topup balance *)
          profile ← storage_call (From "profiles" "select")
                      (λ _ d, (maybeSingle (option_list (profiles d !! userId)), d));
          (* profile?.transcription_minutes_topup ?? 0 *)
          let topupMinutes :=
            match profile with
            | Data (Some p) => default 0 (transcription_minutes_topup p)
            | _ => 0
            end in
          mret (Some
            {| subscriptionMinutes :=
                 {| used := usedMinutes; limit := limit;
                    remaining := subscriptionRemaining |};
               topupMinutes := topupMinutes;
               totalRemaining := subscriptionRemaining + topupMinutes;
               periodStart := start period;
               periodEnd := end_ period;
               resetAt := formatResetAt env (end_ period);
               isUnlimited := None |})
    end.

(** The in-flight jobs of a user for a video. *)
Definition active_job_of (userId youtubeId : string) (row : JobRow.t) : bool :=
  bool_decide (JobRow.user_id row = userId)
  && bool_decide (JobRow.youtube_id row = youtubeId)
  && is_non_terminal (JobRow.status row).

Definition rejection (reason : DecisionReason)
    (subscription : option UserSubscription) : TranscriptionDecision.t :=
  {| TranscriptionDecision.allowed := false;
     TranscriptionDecision.reason := reason;
     TranscriptionDecision.stats := None;
     TranscriptionDecision.subscription := subscription;
     TranscriptionDecision.willUseTopup := None;
     TranscriptionDecision.minutesNeeded := None;
     TranscriptionDecision.existingJobId := None;
     TranscriptionDecision.unlimited := None |}.

(** Check if a user can start a transcription job. *)
Definition canStartTranscription (userId youtubeId : string)
    (estimatedMinutes : Z) (options : Options.t) : Task TranscriptionDecision.t :=
  now ← now_of options;
  (* Check for unlimited access first (bypasses all other checks) *)
  isUnlimited ← unlimited_allowance (Options.user options) userId;
  if isUnlimited : bool then
    mret {| TranscriptionDecision.allowed := true;
            TranscriptionDecision.reason := OK;
            TranscriptionDecision.stats := None;
            TranscriptionDecision.subscription := None;
            TranscriptionDecision.willUseTopup := None;
            TranscriptionDecision.minutesNeeded := Some estimatedMinutes;
            TranscriptionDecision.existingJobId := None;
            TranscriptionDecision.unlimited := Some true |}
  else
    subscription ← subscription_status userId;
    match subscription with
    | None => mret (rejection NO_SUBSCRIPTION None)
    | Some subscription =>
        if negb (bool_decide (tier subscription = "pro")) then
          (* Only Pro users can use transcription *)
          mret (rejection NOT_PRO (Some subscription))
        else
          (* Check for existing pending/in-progress job for this video *)
          existingJob ← storage_call (From "transcription_jobs" "select")
                          (λ _ d,
                             (maybeSingle
                                (List.filter (active_job_of userId youtubeId)
                                   (transcription_jobs d)), d));
          match existingJob with
          | Data (Some job) =>
              mret {| TranscriptionDecision.allowed := false;
                      TranscriptionDecision.reason := EXISTING_JOB;
                      TranscriptionDecision.stats := None;
                      TranscriptionDecision.subscription := Some subscription;
                      TranscriptionDecision.willUseTopup := None;
                      TranscriptionDecision.minutesNeeded := None;
                      TranscriptionDecision.existingJobId := Some (JobRow.id job);
                      TranscriptionDecision.unlimited := None |}
          | _ =>
              stats ← getTranscriptionUsageStats userId
                        {| Options.now := Some now; Options.user := None |};
              match stats with
              | None => mret (rejection NO_SUBSCRIPTION (Some subscription))
              | Some stats =>
                  (* Check if enough credits available *)
                  if totalRemaining stats <? estimatedMinutes then
                    mret {| TranscriptionDecision.allowed := false;
                            TranscriptionDecision.reason := INSUFFICIENT_CREDITS;
                            TranscriptionDecision.stats := Some stats;
                            TranscriptionDecision.subscription := Some subscription;
                            TranscriptionDecision.willUseTopup := None;
                            TranscriptionDecision.minutesNeeded := Some estimatedMinutes;
                            TranscriptionDecision.existingJobId := None;
                            TranscriptionDecision.unlimited := None |}
                  else
                    let willUseTopup :=
                      (remaining (subscriptionMinutes stats) <? estimatedMinutes)
                      && (0 <? topupMinutes stats) in
                    mret {| TranscriptionDecision.allowed := true;
                            TranscriptionDecision.reason := OK;
                            TranscriptionDecision.stats := Some stats;
                            TranscriptionDecision.subscription := Some subscription;
                            TranscriptionDecision.willUseTopup := Some willUseTopup;
                            TranscriptionDecision.minutesNeeded := Some estimatedMinutes;
                            TranscriptionDecision.existingJobId := None;
                            TranscriptionDecision.unlimited := None |}
              end
          end
    end.

End Manager.

(** ** Job lifecycle *)

(** The [{ success, error? }] answer of the lifecycle operations. *)
Record OpResult : Type := {
  success : bool;
  error : option string
}.

(** The [updates] argument of [updateTranscriptionJobStatus]: every field is
    optional, [None] is [undefined]. *)
Module Updates.
Record t : Type := {
  status : option TranscriptionJobStatus;
  progress : option Z;
  currentStage : option string;
  errorMessage : option string;
  transcriptData : option TranscriptData;
  completedChunks : option Z;
  startedAt : option Date;
  completedAt : option Date
}.
End Updates.

(** [if (field !== undefined) updatePayload.column = value]. *)
Definition assign_if_defined {A : Type} (column : string) (encode : A → Value)
    (field : option A) (updatePayload : gmap string Value)
  : gmap string Value :=
  match field with
  | Some x => <[column := encode x]> updatePayload
  | None => updatePayload
  end.

(** [field !== undefined ? field.toISOString() : undefined]. *)
Definition iso_if_defined (field : option Date) : Task (option Date) :=
  match field with
  | Some date => iso ← toISOString date; mret (Some iso)
  | None => mret None
  end.

(** The payload [updateTranscriptionJobStatus] builds from its [updates]. *)
Definition updatePayload_of (updates : Updates.t) : Task (gmap string Value) :=
  let updatePayload : gmap string Value := ∅ in
  let updatePayload :=
    assign_if_defined "status" (λ s, VStr (status_name s))
      (Updates.status updates) updatePayload in
  let updatePayload :=
    assign_if_defined "progress" VNum (Updates.progress updates) updatePayload in
  let updatePayload :=
    assign_if_defined "current_stage" VStr (Updates.currentStage updates)
      updatePayload in
  let updatePayload :=
    assign_if_defined "error_message" VStr (Updates.errorMessage updates)
      updatePayload in
  let updatePayload :=
    assign_if_defined "transcript_data" VJson (Updates.transcriptData updates)
      updatePayload in
  let updatePayload :=
    assign_if_defined "completed_chunks" VNum (Updates.completedChunks updates)
      updatePayload in
  started_at ← iso_if_defined (Updates.startedAt updates);
  let updatePayload :=
    assign_if_defined "started_at" VTime started_at updatePayload in
  completed_at ← iso_if_defined (Updates.completedAt updates);
  let updatePayload :=
    assign_if_defined "completed_at" VTime completed_at updatePayload in
  mret updatePayload.

(** [supabase.from('transcription_jobs').update(payload)] on the rows a
    filter selects. *)
Definition update_jobs (matches : JobRow.t → bool) (payload : gmap string Value)
  : Task (Response unit) :=
  storage_call (From "transcription_jobs" "update")
    (λ _ d,
       match update_rows matches payload (transcription_jobs d) with
       | Some rows => (Data tt, set_jobs rows d)
       | None => (Error "update refused", d)
       end).

(** Update transcription job status. *)
Definition updateTranscriptionJobStatus (jobId : string) (updates : Updates.t)
  : Task OpResult :=
  updatePayload ← updatePayload_of updates;
  answer ← update_jobs (λ row, bool_decide (JobRow.id row = jobId)) updatePayload;
  match answer with
  | Error _ => mret {| success := false; error := Some "FAILED_TO_UPDATE_JOB" |}
  | Data _ => mret {| success := true; error := None |}
  end.

(** Get active transcription job for a video. *)
Definition getActiveTranscriptionJob (userId youtubeId : string)
  : Task (option Job.t) :=
  answer ← storage_call (From "transcription_jobs" "select")
             (λ _ d,
                (maybeSingle
                   (order_desc_limit_1 (λ row, Some (JobRow.created_at row))
                      (List.filter
                         (λ row,
                            bool_decide (JobRow.user_id row = userId)
                            && bool_decide (JobRow.youtube_id row = youtubeId)
                            && is_non_terminal (JobRow.status row))
                         (transcription_jobs d))), d));
  match answer with
  | Data (Some data) => mret (Some (mapDbJobToTranscriptionJob data))
  | _ => mret None
  end.

(** Get completed transcription for a video. *)
Definition getCompletedTranscription (youtubeId : string)
  : Task (option Job.t) :=
  answer ← storage_call (From "transcription_jobs" "select")
             (λ _ d,
                (maybeSingle
                   (order_desc_limit_1 JobRow.completed_at
                      (List.filter
                         (λ row,
                            bool_decide (JobRow.youtube_id row = youtubeId)
                            && bool_decide (JobRow.status row = completed))
                         (transcription_jobs d))), d));
  match answer with
  | Data (Some data) => mret (Some (mapDbJobToTranscriptionJob data))
  | _ => mret None
  end.

Module Refunded.
Record t : Type := {
  success : bool;
  minutesRefunded : option Z;
  error : option string
}.
End Refunded.

(** Refund transcription minutes for a failed/cancelled job. *)
Definition refundTranscriptionMinutes (jobId : string) : Task Refunded.t :=
  answer ← storage_call (Rpc "refund_transcription_minutes" jobId)
             (λ _ d,
                let '(result, d') := refund_transcription_minutes jobId d in
                (Data (Some result), d'));
  match answer with
  | Error _ =>
      mret {| Refunded.success := false;
              Refunded.minutesRefunded := None;
              Refunded.error := Some "REFUND_FAILED" |}
  | Data result =>
      mret {| Refunded.success :=
                default false (result ≫= RefundData.success);
              Refunded.minutesRefunded :=
                Some (default 0 (result ≫= RefundData.minutes_refunded));
              Refunded.error := None |}
  end.

(** The payload and the row filter of a cancellation. *)
Definition CANCEL_PAYLOAD : gmap string Value :=
  {[ "status" := VStr "cancelled";
     "error_message" := VStr "Cancelled by user" ]}.

Definition cancellable (jobId : string) (row : JobRow.t) : bool :=
  bool_decide (JobRow.id row = jobId) && is_non_terminal (JobRow.status row).

(** Cancel a transcription job. *)
Definition cancelTranscriptionJob (jobId : string) : Task OpResult :=
  (* First, update the job status *)
  answer ← update_jobs (cancellable jobId) CANCEL_PAYLOAD;
  match answer with
  | Error _ => mret {| success := false; error := Some "FAILED_TO_CANCEL" |}
  | Data _ =>
      (* Refund any consumed minutes *)
      refundTranscriptionMinutes jobId;;
      mret {| success := true; error := None |}
  end.

Module Created.
Record t : Type := {
  success : bool;
  jobId : option string;
  error : option string
}.
End Created.

Module Consumed.
Record t : Type := {
  success : bool;
  error : option string;
  minutesFromSubscription : option Z;
  minutesFromTopup : option Z;
  unlimited : option bool
}.
End Consumed.

(** [text || fallback] on an optional string. *)
Definition or_text (text : option string) (fallback : string) : string :=
  match text with
  | Some s => if bool_decide (s = "") then fallback else s
  | None => fallback
  end.

Section Consumption.

Context (env : Collaborators).

(** Create a new transcription job. *)
Definition createTranscriptionJob (userId youtubeId : string)
    (videoId : option string) (durationSeconds estimatedCostCents : option Z)
  : Task Created.t :=
  answer ← storage_call (From "transcription_jobs" "insert")
             (λ db_now d,
                let row :=
                  {| JobRow.id := generated_id env (length (transcription_jobs d));
                     JobRow.user_id := userId;
                     JobRow.video_id := videoId;
                     JobRow.youtube_id := youtubeId;
                     JobRow.status := pending;
                     JobRow.error_message := None;
                     JobRow.duration_seconds := durationSeconds;
                     JobRow.estimated_cost_cents := estimatedCostCents;
                     JobRow.progress := Some 0;
                     JobRow.current_stage := None;
                     JobRow.audio_storage_path := None;
                     JobRow.transcript_data := None;
                     JobRow.total_chunks := None;
                     JobRow.completed_chunks := None;
                     JobRow.created_at := db_now;
                     JobRow.started_at := None;
                     JobRow.completed_at := None;
                     JobRow.updated_at := db_now |} in
                (single [JobRow.id row],
                 set_jobs (transcription_jobs d ++ [row]) d));
  match answer with
  | Error _ =>
      mret {| Created.success := false;
              Created.jobId := None;
              Created.error := Some "FAILED_TO_CREATE_JOB" |}
  | Data id =>
      mret {| Created.success := true;
              Created.jobId := Some id;
              Created.error := None |}
  end.

(** Consume transcription minutes atomically. *)
Definition consumeTranscriptionMinutes (userId jobId : string) (minutes : Z)
    (options : Options.t) : Task Consumed.t :=
  now ← now_of options;
  (* Skip consumption for unlimited users *)
  isUnlimited ← unlimited_allowance env (Options.user options) userId;
  if isUnlimited : bool then
    mret {| Consumed.success := true;
            Consumed.error := None;
            Consumed.minutesFromSubscription := None;
            Consumed.minutesFromTopup := None;
            Consumed.unlimited := Some true |}
  else
    subscription ← subscription_status env userId;
    match subscription with
    | Some subscription =>
        if bool_decide (tier subscription = "pro") then
          let period := resolveBillingPeriod subscription now in
          p_period_start ← toISOString (start period);
          p_period_end ← toISOString (end_ period);
          answer ← storage_call
                     (Rpc "consume_transcription_minutes_atomically" jobId)
                     (λ db_now d,
                        let '(result, d') :=
                          consume_transcription_minutes_atomically
                            userId jobId minutes TRANSCRIPTION_LIMITS_pro
                            p_period_start p_period_end db_now d in
                        (Data (Some result), d'));
          match answer with
          | Error _ =>
              mret {| Consumed.success := false;
                      Consumed.error := Some "CONSUMPTION_FAILED";
                      Consumed.minutesFromSubscription := None;
                      Consumed.minutesFromTopup := None;
                      Consumed.unlimited := None |}
          | Data None =>
              mret {| Consumed.success := false;
                      Consumed.error := Some "INSUFFICIENT_CREDITS";
                      Consumed.minutesFromSubscription := None;
                      Consumed.minutesFromTopup := None;
                      Consumed.unlimited := None |}
          | Data (Some result) =>
              if negb (ConsumeData.allowed result) then
                mret {| Consumed.success := false;
                        Consumed.error :=
                          Some (or_text (ConsumeData.reason result)
                                  "INSUFFICIENT_CREDITS");
                        Consumed.minutesFromSubscription := None;
                        Consumed.minutesFromTopup := None;
                        Consumed.unlimited := None |}
              else
                mret {| Consumed.success := true;
                        Consumed.error := None;
                        Consumed.minutesFromSubscription :=
                          Some (default 0
                                  (ConsumeData.minutes_from_subscription result));
                        Consumed.minutesFromTopup :=
                          Some (default 0
                                  (ConsumeData.minutes_from_topup result));
                        Consumed.unlimited := None |}
          end
        else
          mret {| Consumed.success := false;
                  Consumed.error := Some "NOT_PRO";
                  Consumed.minutesFromSubscription := None;
                  Consumed.minutesFromTopup := None;
                  Consumed.unlimited := None |}
    | None =>
        mret {| Consumed.success := false;
                Consumed.error := Some "NOT_PRO";
                Consumed.minutesFromSubscription := None;
                Consumed.minutesFromTopup := None;
                Consumed.unlimited := None |}
    end.

End Consumption.

(** ** The route handler [POST /api/transcribe] *)

Module Body.
(** The parsed request body. [durationSeconds] is [Number(durationSeconds)]
    when that is a finite number (of whole seconds, on which [Math.ceil]
    is the identity), [None] otherwise. *)
Record t : Type := {
  youtubeId : option string;
  durationSeconds : option Z;
  videoId : option string
}.
End Body.

(** A request: the session user [supabase.auth.getUser()] resolves, and the
    JSON body ([None] when the body does not parse, which makes
    [request.json()] throw). *)
Record Request : Type := {
  session : option User;
  body : option Body.t
}.

(** The [usage] object of a response. *)
Record UsageReport : Type := {
  report_subscriptionMinutes : SubscriptionMinutes;
  report_topupMinutes : Z;
  report_totalRemaining : Z;
  report_resetAt : option string
}.

(** The JSON bodies the handler answers with, one per [NextResponse.json]
    call of the source. *)
Inductive Payload : Type :=
  | AuthenticationRequired
  | MissingVideoId
  | MissingDuration
  | CompletedTranscription (jobId : string) (transcriptData : TranscriptData)
  | ExistingJob (jobId : string) (progress : Z) (currentStage : option string)
      (estimatedWaitSeconds : Z)
  | Refused (reason : DecisionReason) (minutesNeeded : Z)
      (usage : option UsageReport) (error : string) (requiresTopup : bool)
      (existingJobId : option string)
  | CreationFailed (reason : option string)
  | Started (jobId : option string) (estimatedMinutes estimatedWaitSeconds
      estimatedCostCents : Z) (usage : option UsageReport)
      (willUseTopup : option bool)
  | InternalError.

Record HttpResponse : Type := {
  http_status : Z;
  json : Payload
}.

(** [Math.ceil(a / b)] on integers, for a positive [b]. *)
Definition ceil_div (a b : Z) : Z := - ((- a) / b).

Definition refusal_message (reason : DecisionReason) : string :=
  match reason with
  | NOT_PRO => "AI Transcription requires a Pro subscription"
  | INSUFFICIENT_CREDITS => "Insufficient transcription minutes"
  | EXISTING_JOB => "A transcription job is already in progress"
  | _ => "Cannot start transcription"
  end.

Section Route.

Context (env : Collaborators).

Definition request_json (request : Request) : Task Body.t :=
  match body request with
  | Some parsed => mret parsed
  | None => throw "SyntaxError: Unexpected token in JSON"
  end.

(** [completedJob?.transcriptData], when truthy, with its job. *)
Definition with_transcript (completedJob : option Job.t)
  : option (Job.t * TranscriptData) :=
  match completedJob with
  | Some job =>
      match Job.transcriptData job with
      | Some transcript => Some (job, transcript)
      | None => None
      end
  | None => None
  end.

Definition handler (request : Request) : Task HttpResponse :=
  try_catch (A := HttpResponse)
    ((* Check authentication *)
     emit AuthGetUser;;
     match session request with
     | None => mret {| http_status := 401; json := AuthenticationRequired |}
     | Some user =>
         (* Parse request body *)
         parsed ← request_json request;
         match Body.youtubeId parsed with
         | None => mret {| http_status := 400; json := MissingVideoId |}
         | Some youtubeId =>
             if bool_decide (youtubeId = "") then
               mret {| http_status := 400; json := MissingVideoId |}
             else
               match Body.durationSeconds parsed with
               | None => mret {| http_status := 400; json := MissingDuration |}
               | Some parsedDurationSeconds =>
                   if parsedDurationSeconds <=? 0 then
                     mret {| http_status := 400; json := MissingDuration |}
                   else
                     let normalizedDurationSeconds := parsedDurationSeconds in
                     (* Check for existing completed transcription *)
                     completedJob ← getCompletedTranscription youtubeId;
                     match with_transcript completedJob with
                     | Some (job, transcript) =>
                         mret {| http_status := 200;
                                 json := CompletedTranscription (Job.id job)
                                           transcript |}
                     | None =>
                         (* Check for existing active job *)
                         activeJob ← getActiveTranscriptionJob (user_id user)
                                       youtubeId;
                         match activeJob with
                         | Some job =>
                             mret {| http_status := 200;
                                     json := ExistingJob (Job.id job)
                                               (Job.progress job)
                                               (Job.currentStage job)
                                               (estimateProcessingTime env
                                                  parsedDurationSeconds) |}
                         | None =>
                             (* round up to nearest minute *)
                             let estimatedMinutes :=
                               ceil_div normalizedDurationSeconds 60 in
                             (* Check if user can start transcription *)
                             decision ← canStartTranscription env
                                          (user_id user) youtubeId
                                          estimatedMinutes
                                          {| Options.now := None;
                                             Options.user := Some user |};
                             if negb (TranscriptionDecision.allowed decision) then
                               let usage :=
                                 (λ stats,
                                    {| report_subscriptionMinutes :=
                                         subscriptionMinutes stats;
                                       report_topupMinutes :=
                                         topupMinutes stats;
                                       report_totalRemaining :=
                                         totalRemaining stats;
                                       report_resetAt :=
                                         Some (resetAt stats) |})
                                 <$> TranscriptionDecision.stats decision in
                               mret {| http_status := 403;
                                       json :=
                                         Refused (TranscriptionDecision.reason decision)
                                           estimatedMinutes usage
                                           (refusal_message
                                              (TranscriptionDecision.reason decision))
                                           (bool_decide
                                              (TranscriptionDecision.reason decision
                                               = INSUFFICIENT_CREDITS))
                                           (match TranscriptionDecision.reason decision with
                                            | EXISTING_JOB =>
                                                TranscriptionDecision.existingJobId decision
                                            | _ => None
                                            end) |}
                             else
                               (* Create the transcription job *)
                               let estimatedCostCents :=
                                 estimateCostCents env
                                   normalizedDurationSeconds in
                               createResult ← createTranscriptionJob env
                                 (user_id user) youtubeId
                                 (Body.videoId parsed ≫= (λ v,
                                    if bool_decide (v = "") then None
                                    else Some v))
                                 (Some normalizedDurationSeconds)
                                 (Some estimatedCostCents);
                               if negb (Created.success createResult) then
                                 mret {| http_status := 500;
                                         json := CreationFailed
                                                   (Created.error createResult) |}
                               else
                                 (* Trigger background processing *)
                                 emit (FetchProcess
                                         (Created.jobId createResult));;
                                 mret {| http_status := 200;
                                         json :=
                                           Started (Created.jobId createResult)
                                             estimatedMinutes
                                             (estimateProcessingTime env
                                                normalizedDurationSeconds)
                                             estimatedCostCents
                                             ((λ stats,
                                                 {| report_subscriptionMinutes :=
                                                      subscriptionMinutes stats;
                                                    report_topupMinutes :=
                                                      topupMinutes stats;
                                                    report_totalRemaining :=
                                                      totalRemaining stats
                                                      - estimatedMinutes;
                                                    report_resetAt := None |})
                                              <$> TranscriptionDecision.stats decision)
                                             (TranscriptionDecision.willUseTopup decision) |}
                         end
                     end
               end
         end
     end)
    (λ _, mret {| http_status := 500; json := InternalError |}).

End Route.

(** ** Vocabulary of the statements *)

(** The value of the unlimited-allowance test of the manager, and the
    collaborator calls it makes. *)
Definition has_unlimited_allowance (env : Collaborators) (user : option User)
    (userId : string) : bool :=
  match user with
  | Some u => hasUnlimitedVideoAllowance env u
  | None => false
  end
  || hasUnlimitedVideoAllowanceById env userId.

Definition allowance_events (env : Collaborators) (user : option User)
    (userId : string) : list Event :=
  match user with
  | Some u =>
      UnlimitedCheck u ::
      (if hasUnlimitedVideoAllowance env u then []
       else [UnlimitedCheckById userId])
  | None => [UnlimitedCheckById userId]
  end.

(** The time a call works with: [options.now], or the clock. *)
Definition moment (options : Options.t) (w : World) : Date :=
  default (clock w) (Options.now options).

(** A storage call: a table statement or a stored procedure. *)
Definition is_storage_call (ev : Event) : bool :=
  match ev with
  | From _ _ | Rpc _ _ => true
  | _ => false
  end.

(** A row after a cancellation took effect on it. *)
Definition cancelled_row (row : JobRow.t) : JobRow.t :=
  {| JobRow.id := JobRow.id row;
     JobRow.user_id := JobRow.user_id row;
     JobRow.video_id := JobRow.video_id row;
     JobRow.youtube_id := JobRow.youtube_id row;
     JobRow.status := cancelled;
     JobRow.error_message := Some "Cancelled by user";
     JobRow.duration_seconds := JobRow.duration_seconds row;
     JobRow.estimated_cost_cents := JobRow.estimated_cost_cents row;
     JobRow.progress := JobRow.progress row;
     JobRow.current_stage := JobRow.current_stage row;
     JobRow.audio_storage_path := JobRow.audio_storage_path row;
     JobRow.transcript_data := JobRow.transcript_data row;
     JobRow.total_chunks := JobRow.total_chunks row;
     JobRow.completed_chunks := JobRow.completed_chunks row;
     JobRow.created_at := JobRow.created_at row;
     JobRow.started_at := JobRow.started_at row;
     JobRow.completed_at := JobRow.completed_at row;
     JobRow.updated_at := JobRow.updated_at row |}.

(** What a cancellation does to the table when the storage answers. *)
Definition cancel_rows (jobId : string) (rows : list JobRow.t) : list JobRow.t :=
  map (λ row, if cancellable jobId row then cancelled_row row else row) rows.

(** The payload of an update whose dates serialise. *)
Definition payload_of (updates : Updates.t) : gmap string Value :=
  assign_if_defined "completed_at" VTime (Updates.completedAt updates)
    (assign_if_defined "started_at" VTime (Updates.startedAt updates)
       (assign_if_defined "completed_chunks" VNum (Updates.completedChunks updates)
          (assign_if_defined "transcript_data" VJson (Updates.transcriptData updates)
             (assign_if_defined "error_message" VStr (Updates.errorMessage updates)
                (assign_if_defined "current_stage" VStr (Updates.currentStage updates)
                   (assign_if_defined "progress" VNum (Updates.progress updates)
                      (assign_if_defined "status" (λ s, VStr (status_name s))
                         (Updates.status updates) ∅))))))).

(** A supplied field replaces the column, a field left [undefined] keeps it. *)
Definition supplied {A : Type} (field : option A) (old : option A) : option A :=
  match field with
  | Some x => Some x
  | None => old
  end.

(** A row after a sparse update took effect on it. *)
Definition updated_row (updates : Updates.t) (row : JobRow.t) : JobRow.t :=
  {| JobRow.id := JobRow.id row;
     JobRow.user_id := JobRow.user_id row;
     JobRow.video_id := JobRow.video_id row;
     JobRow.youtube_id := JobRow.youtube_id row;
     JobRow.status := default (JobRow.status row) (Updates.status updates);
     JobRow.error_message :=
       supplied (Updates.errorMessage updates) (JobRow.error_message row);
     JobRow.duration_seconds := JobRow.duration_seconds row;
     JobRow.estimated_cost_cents := JobRow.estimated_cost_cents row;
     JobRow.progress := supplied (Updates.progress updates) (JobRow.progress row);
     JobRow.current_stage :=
       supplied (Updates.currentStage updates) (JobRow.current_stage row);
     JobRow.audio_storage_path := JobRow.audio_storage_path row;
     JobRow.transcript_data :=
       supplied (Updates.transcriptData updates) (JobRow.transcript_data row);
     JobRow.total_chunks := JobRow.total_chunks row;
     JobRow.completed_chunks :=
       supplied (Updates.completedChunks updates) (JobRow.completed_chunks row);
     JobRow.created_at := JobRow.created_at row;
     JobRow.started_at := supplied (Updates.startedAt updates) (JobRow.started_at row);
     JobRow.completed_at :=
       supplied (Updates.completedAt updates) (JobRow.completed_at row);
     JobRow.updated_at := JobRow.updated_at row |}.

(** The columns an update never names. *)
Definition same_fixed_columns (row row' : JobRow.t) : Prop :=
  JobRow.id row' = JobRow.id row
  ∧ JobRow.user_id row' = JobRow.user_id row
  ∧ JobRow.video_id row' = JobRow.video_id row
  ∧ JobRow.youtube_id row' = JobRow.youtube_id row
  ∧ JobRow.duration_seconds row' = JobRow.duration_seconds row
  ∧ JobRow.estimated_cost_cents row' = JobRow.estimated_cost_cents row
  ∧ JobRow.audio_storage_path row' = JobRow.audio_storage_path row
  ∧ JobRow.total_chunks row' = JobRow.total_chunks row
  ∧ JobRow.created_at row' = JobRow.created_at row
  ∧ JobRow.updated_at row' = JobRow.updated_at row.

(** Every field left [undefined] keeps its column. *)
Definition unsupplied_columns_kept (updates : Updates.t) (row row' : JobRow.t)
  : Prop :=
  (Updates.status updates = None → JobRow.status row' = JobRow.status row)
  ∧ (Updates.progress updates = None → JobRow.progress row' = JobRow.progress row)
  ∧ (Updates.currentStage updates = None →
     JobRow.current_stage row' = JobRow.current_stage row)
  ∧ (Updates.errorMessage updates = None →
     JobRow.error_message row' = JobRow.error_message row)
  ∧ (Updates.transcriptData updates = None →
     JobRow.transcript_data row' = JobRow.transcript_data row)
  ∧ (Updates.completedChunks updates = None →
     JobRow.completed_chunks row' = JobRow.completed_chunks row)
  ∧ (Updates.startedAt updates = None →
     JobRow.started_at row' = JobRow.started_at row)
  ∧ (Updates.completedAt updates = None →
     JobRow.completed_at row' = JobRow.completed_at row).

(** Every supplied field is written to its column. *)
Definition supplied_columns_written (updates : Updates.t) (row' : JobRow.t)
  : Prop :=
  (∀ s, Updates.status updates = Some s → JobRow.status row' = s)
  ∧ (∀ n, Updates.progress updates = Some n → JobRow.progress row' = Some n)
  ∧ (∀ s, Updates.currentStage updates = Some s →
          JobRow.current_stage row' = Some s)
  ∧ (∀ s, Updates.errorMessage updates = Some s →
          JobRow.error_message row' = Some s)
  ∧ (∀ d, Updates.transcriptData updates = Some d →
          JobRow.transcript_data row' = Some d)
  ∧ (∀ n, Updates.completedChunks updates = Some n →
          JobRow.completed_chunks row' = Some n)
  ∧ (∀ t, Updates.startedAt updates = Some t → JobRow.started_at row' = Some t)
  ∧ (∀ t, Updates.completedAt updates = Some t →
          JobRow.completed_at row' = Some t).

(** The keys of a payload are exactly the columns of the supplied fields. *)
Definition payload_is_sparse (updates : Updates.t)
    (payload : gmap string Value) : Prop :=
  payload !! "status" = (λ s, VStr (status_name s)) <$> Updates.status updates
  ∧ payload !! "progress" = VNum <$> Updates.progress updates
  ∧ payload !! "current_stage" = VStr <$> Updates.currentStage updates
  ∧ payload !! "error_message" = VStr <$> Updates.errorMessage updates
  ∧ payload !! "transcript_data" = VJson <$> Updates.transcriptData updates
  ∧ payload !! "completed_chunks" = VNum <$> Updates.completedChunks updates
  ∧ payload !! "started_at" = VTime <$> Updates.startedAt updates
  ∧ payload !! "completed_at" = VTime <$> Updates.completedAt updates
  ∧ dom payload ⊆ WRITABLE_COLUMNS.

(** The dates of an update serialise. *)
Definition dates_serialise (updates : Updates.t) : bool :=
  from_option valid_time true (Updates.startedAt updates)
  && from_option valid_time true (Updates.completedAt updates).

(** What a sparse update does to the table when the storage answers. *)
Definition update_job_rows (jobId : string) (updates : Updates.t)
    (rows : list JobRow.t) : list JobRow.t :=
  map (λ row, if bool_decide (JobRow.id row = jobId)
              then updated_row updates row else row) rows.

(** The storage call issued after the calls [earlier] of this run fails. *)
Definition call_fails (w : World) (earlier : list Event) : bool :=
  storage_error w (length (trace w ++ earlier)).

(** The statistics of a pro user, from the usage of the period and the
    top-up balance read. *)
Definition pro_usage_stats (env : Collaborators) (period : BillingPeriod)
    (usedMinutes topupMinutes : Z) : TranscriptionUsageStats :=
  {| subscriptionMinutes :=
       {| used := usedMinutes;
          limit := TRANSCRIPTION_LIMITS_pro;
          remaining := Z.max 0 (TRANSCRIPTION_LIMITS_pro - usedMinutes) |};
     topupMinutes := topupMinutes;
     totalRemaining :=
       Z.max 0 (TRANSCRIPTION_LIMITS_pro - usedMinutes) + topupMinutes;
     periodStart := start period;
     periodEnd := end_ period;
     resetAt := formatResetAt env (end_ period);
     isUnlimited := None |}.

(** The decision taken on computed statistics (the last two returns of
    [canStartTranscription]). *)
Definition decision_on_stats (subscription : UserSubscription)
    (stats : TranscriptionUsageStats) (estimatedMinutes : Z)
  : TranscriptionDecision.t :=
  if totalRemaining stats <? estimatedMinutes then
    {| TranscriptionDecision.allowed := false;
       TranscriptionDecision.reason := INSUFFICIENT_CREDITS;
       TranscriptionDecision.stats := Some stats;
       TranscriptionDecision.subscription := Some subscription;
       TranscriptionDecision.willUseTopup := None;
       TranscriptionDecision.minutesNeeded := Some estimatedMinutes;
       TranscriptionDecision.existingJobId := None;
       TranscriptionDecision.unlimited := None |}
  else
    {| TranscriptionDecision.allowed := true;
       TranscriptionDecision.reason := OK;
       TranscriptionDecision.stats := Some stats;
       TranscriptionDecision.subscription := Some subscription;
       TranscriptionDecision.willUseTopup :=
         Some ((remaining (subscriptionMinutes stats) <? estimatedMinutes)
               && (0 <? topupMinutes stats));
       TranscriptionDecision.minutesNeeded := Some estimatedMinutes;
       TranscriptionDecision.existingJobId := None;
       TranscriptionDecision.unlimited := None |}.

(** The refusal for a job of the same user and video still in flight. *)
Definition existing_job_refusal (subscription : UserSubscription)
    (job : JobRow.t) : TranscriptionDecision.t :=
  {| TranscriptionDecision.allowed := false;
     TranscriptionDecision.reason := EXISTING_JOB;
     TranscriptionDecision.stats := None;
     TranscriptionDecision.subscription := Some subscription;
     TranscriptionDecision.willUseTopup := None;
     TranscriptionDecision.minutesNeeded := None;
     TranscriptionDecision.existingJobId := Some (JobRow.id job);
     TranscriptionDecision.unlimited := None |}.

(** The row [getCompletedTranscription] selects: the most recently
    completed job of a video, of any user. *)
Definition latest_completed (youtubeId : string) (rows : list JobRow.t)
  : list JobRow.t :=
  order_desc_limit_1 JobRow.completed_at
    (List.filter
       (λ row,
          bool_decide (JobRow.youtube_id row = youtubeId)
          && bool_decide (JobRow.status row = completed))
       rows).

(** The structured failures and successes the statements name. *)
Definition consumption_failure (reason : string) : Consumed.t :=
  {| Consumed.success := false;
     Consumed.error := Some reason;
     Consumed.minutesFromSubscription := None;
     Consumed.minutesFromTopup := None;
     Consumed.unlimited := None |}.

Definition unlimited_consumption : Consumed.t :=
  {| Consumed.success := true;
     Consumed.error := None;
     Consumed.minutesFromSubscription := None;
     Consumed.minutesFromTopup := None;
     Consumed.unlimited := Some true |}.

Definition unlimited_admission (estimatedMinutes : Z) : TranscriptionDecision.t :=
  {| TranscriptionDecision.allowed := true;
     TranscriptionDecision.reason := OK;
     TranscriptionDecision.stats := None;
     TranscriptionDecision.subscription := None;
     TranscriptionDecision.willUseTopup := None;
     TranscriptionDecision.minutesNeeded := Some estimatedMinutes;
     TranscriptionDecision.existingJobId := None;
     TranscriptionDecision.unlimited := Some true |}.

(** ** Sample worlds

    Concrete collaborators, rows and worlds on which the statements are
    exercised: a pro user with 100 of 120 subscription minutes used in the
    current period and 30 top-up minutes, a free user, a user with
    unlimited allowance, and a video that has already been transcribed. *)

Definition sample_pro_subscription : UserSubscription :=
  {| tier := "pro";
     currentPeriodStart := Some 1767225600000;
     currentPeriodEnd := Some 1769904000000;
     userCreatedAt := Some 1700000000000 |}.

Definition sample_free_subscription : UserSubscription :=
  {| tier := "free";
     currentPeriodStart := None;
     currentPeriodEnd := None;
     userCreatedAt := Some 1700000000000 |}.

Definition sample_env : Collaborators :=
  {| hasUnlimitedVideoAllowance :=
       λ u, bool_decide (user_email u = Some "team@example.com");
     hasUnlimitedVideoAllowanceById := λ userId, bool_decide (userId = "vip");
     getUserSubscriptionStatus :=
       λ userId,
         if bool_decide (userId = "pro-user") then Some sample_pro_subscription
         else if bool_decide (userId = "free-user")
              then Some sample_free_subscription
              else None;
     formatResetAt := λ _, "at the end of the period";
     estimateCostCents := λ seconds, seconds / 60;
     estimateProcessingTime := λ seconds, seconds / 2;
     generated_id := λ n, "job-new" |}.

Definition sample_completed_row : JobRow.t :=
  {| JobRow.id := "job-done";
     JobRow.user_id := "pro-user";
     JobRow.video_id := None;
     JobRow.youtube_id := "video-1";
     JobRow.status := completed;
     JobRow.error_message := None;
     JobRow.duration_seconds := Some 1200;
     JobRow.estimated_cost_cents := Some 20;
     JobRow.progress := Some 100;
     JobRow.current_stage := Some "done";
     JobRow.audio_storage_path := None;
     JobRow.transcript_data := Some ["hello"; "world"];
     JobRow.total_chunks := Some 1;
     JobRow.completed_chunks := Some 1;
     JobRow.created_at := 1768000000000;
     JobRow.started_at := Some 1768000001000;
     JobRow.completed_at := Some 1768000090000;
     JobRow.updated_at := 1768000090000 |}.

Definition sample_pending_row : JobRow.t :=
  {| JobRow.id := "job-run";
     JobRow.user_id := "pro-user";
     JobRow.video_id := None;
     JobRow.youtube_id := "video-2";
     JobRow.status := transcribing;
     JobRow.error_message := None;
     JobRow.duration_seconds := Some 600;
     JobRow.estimated_cost_cents := Some 10;
     JobRow.progress := Some 40;
     JobRow.current_stage := Some "transcribing";
     JobRow.audio_storage_path := None;
     JobRow.transcript_data := None;
     JobRow.total_chunks := Some 4;
     JobRow.completed_chunks := Some 1;
     JobRow.created_at := 1768000100000;
     JobRow.started_at := Some 1768000101000;
     JobRow.completed_at := None;
     JobRow.updated_at := 1768000150000 |}.

Definition sample_db : Database :=
  {| transcription_jobs := [sample_completed_row; sample_pending_row];
     profiles := {[ "pro-user" := {| transcription_minutes_topup := Some 30 |} ]};
     transcription_usage :=
       [ {| entry_user := "pro-user"; entry_job := "job-done";
            entry_at := 1768000090000;
            entry_from_subscription := 100; entry_from_topup := 0 |} ] |}.

Definition sample_world : World :=
  {| db := sample_db;
     clock := 1768000200000;
     storage_error := λ _, false;
     trace := [] |}.

(** A progress report of the background worker: two fields supplied. *)
Definition sample_progress_update : Updates.t :=
  {| Updates.status := None;
     Updates.progress := Some 55;
     Updates.currentStage := None;
     Updates.errorMessage := None;
     Updates.transcriptData := None;
     Updates.completedChunks := Some 2;
     Updates.startedAt := None;
     Updates.completedAt := None |}.

(** A free user asks for the video that has already been transcribed. *)
Definition sample_free_request : Request :=
  {| session := Some {| user_id := "free-user"; user_email := None |};
     body := Some {| Body.youtubeId := Some "video-1";
                     Body.durationSeconds := Some 1200;
                     Body.videoId := None |} |}.

Definition no_options : Options.t :=
  {| Options.now := None; Options.user := None |}.

(** The statistics of the sample pro user: 100 of 120 minutes used in the
    provider's period, 30 top-up minutes. *)
Definition sample_pro_stats : TranscriptionUsageStats :=
  pro_usage_stats sample_env
    {| start := 1767225600000; end_ := 1769904000000 |} 100 30.

(** ** More of the manager *)

(** Get a transcription job by ID. *)
Definition getTranscriptionJob (jobId : string) : Task (option Job.t) :=
  answer ← storage_call (From "transcription_jobs" "select")
             (λ _ d,
                (maybeSingle
                   (List.filter (λ row, bool_decide (JobRow.id row = jobId))
                      (transcription_jobs d)), d));
  match answer with
  | Data (Some data) => mret (Some (mapDbJobToTranscriptionJob data))
  | _ => mret None
  end.

(** Topup package: 120 minutes. *)
Definition TRANSCRIPTION_TOPUP_MINUTES : Z := 120.

(** ** The route handler [GET /api/transcription-usage] *)

(** The [usage] object of the response. *)
Record UsageDetails : Type := {
  details_subscriptionMinutes : SubscriptionMinutes;
  details_topupMinutes : Z;
  details_totalRemaining : Z;
  details_periodStart : Date;
  details_periodEnd : Date;
  details_resetAt : string;
  details_isUnlimited : option bool
}.

(** The [limits] object of the response. *)
Record Limits : Type := {
  limits_pro : Z;
  limits_topupPackage : Z
}.

Definition LIMITS : Limits :=
  {| limits_pro := TRANSCRIPTION_LIMITS_pro;
     limits_topupPackage := TRANSCRIPTION_TOPUP_MINUTES |}.

Module UsageRoute.

(** The JSON bodies the handler answers with. *)
Inductive Payload : Type :=
  | AuthenticationRequired
  | NoUsage (isProUser : bool) (limits : Limits)
  | Reported (isProUser isUnlimited : bool) (usage : UsageDetails)
      (limits : Limits)
  | InternalError.

Record HttpResponse : Type := {
  http_status : Z;
  json : Payload
}.

Section Handler.

Context (env : Collaborators).

Definition handler (request : Request) : Task HttpResponse :=
  try_catch (A := HttpResponse)
    ((* Check authentication *)
     emit AuthGetUser;;
     match session request with
     | None => mret {| http_status := 401; json := AuthenticationRequired |}
     | Some user =>
         (* Get usage stats - pass user for unlimited check *)
         stats ← getTranscriptionUsageStats env (user_id user)
                   {| Options.now := None; Options.user := Some user |};
         (* Check if user is unlimited or Pro *)
         let unlimited := default false (stats ≫= isUnlimited) in
         let isProUser :=
           unlimited
           || match stats with
              | Some stats => 0 <? limit (subscriptionMinutes stats)
              | None => false
              end in
         match stats with
         | None =>
             mret {| http_status := 200; json := NoUsage false LIMITS |}
         | Some stats =>
             periodStartIso ← toISOString (periodStart stats);
             periodEndIso ← toISOString (periodEnd stats);
             mret {| http_status := 200;
                     json :=
                       Reported isProUser unlimited
                         {| details_subscriptionMinutes :=
                              subscriptionMinutes stats;
                            details_topupMinutes := topupMinutes stats;
                            details_totalRemaining := totalRemaining stats;
                            details_periodStart := periodStartIso;
                            details_periodEnd := periodEndIso;
                            details_resetAt := resetAt stats;
                            details_isUnlimited := isUnlimited stats |}
                         LIMITS |}
         end
     end)
    (λ _, mret {| http_status := 500; json := InternalError |}).

End Handler.

End UsageRoute.

(** ** More vocabulary *)

(** A task that only reads: all it does to the world is to add the calls it
    makes to the trace. *)
Definition read_only {A : Type} (m : Task A) : Prop :=
  ∀ w, ∃ evs, (m w).2 = with_events evs w.

(** The collaborator calls of a run: what it added to the trace. *)
Definition calls_of {A : Type} (m : Task A) (w : World) : list Event :=
  drop (length (trace w)) (trace (m w).2).

(** The statistics of an unlimited user and of a user who is not pro. *)
Definition unlimited_usage_stats (now : Date) : TranscriptionUsageStats :=
  {| subscriptionMinutes :=
       {| used := 0; limit := UNLIMITED_MINUTES;
          remaining := UNLIMITED_MINUTES |};
     topupMinutes := 0;
     totalRemaining := UNLIMITED_MINUTES;
     periodStart := now;
     periodEnd := now + 30 * 24 * 60 * 60 * 1000;
     resetAt := "Unlimited";
     isUnlimited := Some true |}.

Definition no_usage_stats (env : Collaborators) (period : BillingPeriod)
  : TranscriptionUsageStats :=
  {| subscriptionMinutes := {| used := 0; limit := 0; remaining := 0 |};
     topupMinutes := 0;
     totalRemaining := 0;
     periodStart := start period;
     periodEnd := end_ period;
     resetAt := formatResetAt env (end_ period);
     isUnlimited := None |}.

(** The lookups every entry point of the manager starts with. *)
Definition lookup_events (env : Collaborators) (user : option User)
    (userId : string) : list Event :=
  (allowance_events env user userId ++ [SubscriptionLookup userId])%list.

(** The sample world with a storage that fails every call. *)
Definition sample_failing_world : World :=
  {| db := sample_db;
     clock := 1768000200000;
     storage_error := λ _, true;
     trace := [] |}.

(** A subscription with no anchor at all: the rolling-window fallback. *)
Definition sample_unanchored_subscription : UserSubscription :=
  {| tier := "free";
     currentPeriodStart := None;
     currentPeriodEnd := None;
     userCreatedAt := None |}.

(** A world where the pro user has two jobs in flight for the same video. *)
Definition sample_duplicate_row : JobRow.t :=
  {| JobRow.id := "job-run-2";
     JobRow.user_id := "pro-user";
     JobRow.video_id := None;
     JobRow.youtube_id := "video-2";
     JobRow.status := pending;
     JobRow.error_message := None;
     JobRow.duration_seconds := Some 600;
     JobRow.estimated_cost_cents := Some 10;
     JobRow.progress := Some 0;
     JobRow.current_stage := None;
     JobRow.audio_storage_path := None;
     JobRow.transcript_data := None;
     JobRow.total_chunks := None;
     JobRow.completed_chunks := None;
     JobRow.created_at := 1768000160000;
     JobRow.started_at := None;
     JobRow.completed_at := None;
     JobRow.updated_at := 1768000160000 |}.

Definition sample_duplicate_world : World :=
  {| db := set_jobs [sample_completed_row; sample_pending_row;
                     sample_duplicate_row] sample_db;
     clock := 1768000200000;
     storage_error := λ _, false;
     trace := [] |}.

(** The row [createTranscriptionJob] inserts. *)
Definition created_row (id userId youtubeId : string) (videoId : option string)
    (durationSeconds estimatedCostCents : option Z) (db_now : Date) : JobRow.t :=
  {| JobRow.id := id;
     JobRow.user_id := userId;
     JobRow.video_id := videoId;
     JobRow.youtube_id := youtubeId;
     JobRow.status := pending;
     JobRow.error_message := None;
     JobRow.duration_seconds := durationSeconds;
     JobRow.estimated_cost_cents := estimatedCostCents;
     JobRow.progress := Some 0;
     JobRow.current_stage := None;
     JobRow.audio_storage_path := None;
     JobRow.transcript_data := None;
     JobRow.total_chunks := None;
     JobRow.completed_chunks := None;
     JobRow.created_at := db_now;
     JobRow.started_at := None;
     JobRow.completed_at := None;
     JobRow.updated_at := db_now |}.

(** The row [getActiveTranscriptionJob] selects: the most recently created
    job in flight of a user for a video. *)
Definition latest_active (userId youtubeId : string) (rows : list JobRow.t)
  : list JobRow.t :=
  order_desc_limit_1 (λ row, Some (JobRow.created_at row))
    (List.filter (active_job_of userId youtubeId) rows).

(** The world after a storage call that answered. *)
Definition after_call (ev : Event) (d : Database) (w : World) : World :=
  with_db d (with_events [ev] w).

(** An update that supplies no field. *)
Definition empty_update : Updates.t :=
  {| Updates.status := None;
     Updates.progress := None;
     Updates.currentStage := None;
     Updates.errorMessage := None;
     Updates.transcriptData := None;
     Updates.completedChunks := None;
     Updates.startedAt := None;
     Updates.completedAt := None |}.

(** Two updates that supply no field in common. *)
Definition disjoint_updates (u1 u2 : Updates.t) : Prop :=
  (Updates.status u1 = None ∨ Updates.status u2 = None)
  ∧ (Updates.progress u1 = None ∨ Updates.progress u2 = None)
  ∧ (Updates.currentStage u1 = None ∨ Updates.currentStage u2 = None)
  ∧ (Updates.errorMessage u1 = None ∨ Updates.errorMessage u2 = None)
  ∧ (Updates.transcriptData u1 = None ∨ Updates.transcriptData u2 = None)
  ∧ (Updates.completedChunks u1 = None ∨ Updates.completedChunks u2 = None)
  ∧ (Updates.startedAt u1 = None ∨ Updates.startedAt u2 = None)
  ∧ (Updates.completedAt u1 = None ∨ Updates.completedAt u2 = None).

(** A stage label reported by another part of the pipeline. *)
Definition sample_stage_update : Updates.t :=
  {| Updates.status := Some downloading;
     Updates.progress := None;
     Updates.currentStage := Some "downloading audio";
     Updates.errorMessage := None;
     Updates.transcriptData := None;
     Updates.completedChunks := None;
     Updates.startedAt := Some 1768000205000;
     Updates.completedAt := None |}.

(** An update whose date is not a valid time value. *)
Definition sample_invalid_date_update : Updates.t :=
  {| Updates.status := Some completed;
     Updates.progress := Some 100;
     Updates.currentStage := None;
     Updates.errorMessage := None;
     Updates.transcriptData := Some ["text"];
     Updates.completedChunks := None;
     Updates.startedAt := None;
     Updates.completedAt := Some (MAX_TIME_VALUE + 1) |}.

(** ** Vocabulary of the route handlers *)

(** The trigger of the background worker. *)
Definition is_fetch (ev : Event) : bool :=
  match ev with
  | FetchProcess _ => true
  | _ => false
  end.

(** A task that only looks things up: all it does to the world is to add
    calls to the trace, none of which triggers the background worker. *)
Definition lookup_only {A : Type} (m : Task A) : Prop :=
  ∀ w, ∃ evs,
    (m w).2 = with_events evs w ∧ Forall (λ ev, is_fetch ev = false) evs.

(** The pro user asks for a video nobody has transcribed yet. *)
Definition sample_pro_request : Request :=
  {| session := Some {| user_id := "pro-user"; user_email := None |};
     body := Some {| Body.youtubeId := Some "video-3";
                     Body.durationSeconds := Some 1150;
                     Body.videoId := None |} |}.

(** The pro user asks again for the video whose job is in flight. *)
Definition sample_repeated_request : Request :=
  {| session := Some {| user_id := "pro-user"; user_email := None |};
     body := Some {| Body.youtubeId := Some "video-2";
                     Body.durationSeconds := Some 600;
                     Body.videoId := None |} |}.

(** A request without a session, whose body does not parse either. *)
Definition sample_anonymous_request : Request :=
  {| session := None; body := None |}.


(** The rows [getCompletedTranscription] chooses among: the completed jobs
    of a video, of any user. *)
Definition completed_job_of (youtubeId : string) (row : JobRow.t) : bool :=
  bool_decide (JobRow.youtube_id row = youtubeId)
  && bool_decide (JobRow.status row = completed).

(** * Properties *)

(** ** Running tasks *)

Ltac task_simpl :=
  repeat (progress
            (unfold mbind, Task_bind, mret, Task_ret, emit, throw, new_Date;
             cbn)).

Lemma with_events_app evs evs' w :
  with_events evs' (with_events evs w) = with_events (evs ++ evs') w.
Proof. unfold with_events. cbn. by rewrite app_assoc. Qed.

Lemma bind_run {A B : Type} (m : Task A) (k : A → Task B) w :
  (m ≫= k) w =
    match m w with
    | (Returns a, w') => k a w'
    | (Throws err, w') => (Throws err, w')
    end.
Proof. done. Qed.

Lemma now_of_run options w : now_of options w = (Returns (moment options w), w).
Proof. unfold now_of, moment. by destruct (Options.now options). Qed.

Lemma toISOString_run date w :
  toISOString date w =
    if valid_time date then (Returns date, w)
    else (Throws "RangeError: Invalid time value", w).
Proof. unfold toISOString. by destruct (valid_time date). Qed.

Lemma unlimited_allowance_run env user userId w :
  unlimited_allowance env user userId w =
    (Returns (has_unlimited_allowance env user userId),
     with_events (allowance_events env user userId) w).
Proof.
  unfold unlimited_allowance, has_unlimited_allowance, allowance_events.
  destruct user as [u|]; [destruct (hasUnlimitedVideoAllowance env u)|];
    task_simpl; unfold with_events; cbn; by rewrite <- ?app_assoc.
Qed.

Lemma subscription_status_run env userId w :
  subscription_status env userId w =
    (Returns (getUserSubscriptionStatus env userId),
     with_events [SubscriptionLookup userId] w).
Proof. done. Qed.

Lemma allowance_events_no_storage env user userId ev :
  ev ∈ allowance_events env user userId → is_storage_call ev = false.
Proof.
  unfold allowance_events. intros Hev.
  destruct user as [u|]; [destruct (hasUnlimitedVideoAllowance env u)|];
    repeat (apply elem_of_cons in Hev as [-> | Hev]; [done|]);
    by apply elem_of_nil in Hev.
Qed.

(** ** Properties of the billing period resolver *)

Lemma provider_anchored_false_resolve subscription now signup :
  provider_anchored subscription = false →
  userCreatedAt subscription = Some signup →
  resolveBillingPeriod subscription now =
    {| start := signup + cycle_of signup now * THIRTY_DAYS_MS;
       end_ := signup + cycle_of signup now * THIRTY_DAYS_MS + THIRTY_DAYS_MS |}.
Proof.
  unfold provider_anchored, resolveBillingPeriod, cycle_of.
  intros Hpa Hs. rewrite Hs.
  rewrite !andb_false_iff, !bool_decide_eq_false in Hpa.
  destruct (bool_decide (tier subscription = "pro")) eqn:Ht; [|done].
  apply bool_decide_eq_true in Ht.
  destruct (currentPeriodStart subscription) as [ps|]; [|done].
  destruct (currentPeriodEnd subscription) as [pe|]; [|done].
  exfalso. destruct Hpa as [[Hpa | Hpa] | Hpa]; apply Hpa; eauto.
Qed.

Lemma cycle_of_bounds signup now :
  signup + cycle_of signup now * THIRTY_DAYS_MS <= now
  < signup + cycle_of signup now * THIRTY_DAYS_MS + THIRTY_DAYS_MS.
Proof.
  unfold cycle_of.
  assert (H30 : 0 < THIRTY_DAYS_MS) by (unfold THIRTY_DAYS_MS; lia).
  pose proof (Z.mul_div_le (now - signup) _ H30).
  pose proof (Z.mul_succ_div_gt (now - signup) _ H30).
  lia.
Qed.

Lemma cycle_of_unique signup now n :
  signup + n * THIRTY_DAYS_MS <= now < signup + n * THIRTY_DAYS_MS + THIRTY_DAYS_MS →
  cycle_of signup now = n.
Proof.
  intros Hn. unfold cycle_of.
  assert (H30 : 0 < THIRTY_DAYS_MS) by (unfold THIRTY_DAYS_MS; lia).
  symmetry. apply (Z.div_unique_pos _ _ n (now - signup - n * THIRTY_DAYS_MS)); lia.
Qed.

(** C3: a pro subscription whose provider-anchored period dates are both
    present resolves to exactly those two dates, whatever the current time. *)
Theorem resolveBillingPeriod_provider_dates_verbatim
  (subscription : UserSubscription) (periodStart periodEnd now : Date) :
  tier subscription = "pro" →
  currentPeriodStart subscription = Some periodStart →
  currentPeriodEnd subscription = Some periodEnd →
  resolveBillingPeriod subscription now =
    {| start := periodStart; end_ := periodEnd |}.
Proof.
  intros Ht Hs He. unfold resolveBillingPeriod.
  rewrite bool_decide_eq_true_2, Hs, He by done. done.
Qed.

Lemma resolveBillingPeriod_provider_dates_verbatim_witness :
  resolveBillingPeriod
    {| tier := "pro"; currentPeriodStart := Some 1767225600000;
       currentPeriodEnd := Some 1769904000000; userCreatedAt := Some 5 |}
    1768000000123
  = {| start := 1767225600000; end_ := 1769904000000 |}.
Proof.
  apply resolveBillingPeriod_provider_dates_verbatim; reflexivity.
Defined.

(** C4: without provider-anchored dates and with a signup date, the resolver
    cuts time into 30-day cycles anchored at signup: the period of [now]
    starts at [signup + floor((now - signup) / 30d) * 30d], lasts 30 days and
    contains [now]; the period of a time in cycle [n] ends exactly where the
    period of a time in cycle [n + 1] starts, and two resolved periods are
    either the same period or do not overlap. *)
Theorem resolveBillingPeriod_signup_cycles_contiguous
  (subscription : UserSubscription) (signup : Date) :
  provider_anchored subscription = false →
  userCreatedAt subscription = Some signup →
  (∀ now : Date,
     let p := resolveBillingPeriod subscription now in
     start p = signup + ((now - signup) / THIRTY_DAYS_MS) * THIRTY_DAYS_MS
     ∧ end_ p = start p + THIRTY_DAYS_MS
     ∧ start p <= now < end_ p)
  ∧ (∀ now now' : Date,
       cycle_of signup now' = cycle_of signup now + 1 →
       end_ (resolveBillingPeriod subscription now)
       = start (resolveBillingPeriod subscription now'))
  ∧ (∀ now : Date,
       start (resolveBillingPeriod subscription
                (end_ (resolveBillingPeriod subscription now)))
       = end_ (resolveBillingPeriod subscription now))
  ∧ (∀ now now' : Date,
       let p := resolveBillingPeriod subscription now in
       let p' := resolveBillingPeriod subscription now' in
       p = p' ∨ end_ p <= start p' ∨ end_ p' <= start p).
Proof.
  intros Hpa Hs.
  pose proof (provider_anchored_false_resolve subscription) as Hres.
  assert (H30 : 0 < THIRTY_DAYS_MS) by (unfold THIRTY_DAYS_MS; lia).
  repeat split.
  - rewrite (Hres now signup) by done. done.
  - rewrite (Hres now signup) by done. done.
  - rewrite (Hres now signup) by done. cbn. apply cycle_of_bounds.
  - rewrite (Hres now signup) by done. cbn. apply cycle_of_bounds.
  - intros now now' Hnext.
    rewrite (Hres now signup), (Hres now' signup) by done. cbn.
    rewrite Hnext. lia.
  - intros now. rewrite (Hres now signup) by done. cbn.
    rewrite (Hres _ signup) by done. cbn.
    rewrite (cycle_of_unique signup _ (cycle_of signup now + 1)); lia.
  - intros now now'. cbn.
    rewrite (Hres now signup), (Hres now' signup) by done. cbn.
    destruct (Z.lt_trichotomy (cycle_of signup now) (cycle_of signup now'))
      as [Hlt | [Heq | Hgt]].
    + right; left. nia.
    + left. by rewrite Heq.
    + right; right. nia.
Qed.

Lemma resolveBillingPeriod_signup_cycles_contiguous_witness :
  end_ (resolveBillingPeriod sample_free_subscription 1702591999999)
  = start (resolveBillingPeriod sample_free_subscription 1702592000000).
Proof.
  apply (proj1 (proj2
    (resolveBillingPeriod_signup_cycles_contiguous sample_free_subscription
       1700000000000 eq_refl eq_refl))).
  reflexivity.
Defined.

(** ** Users without a pro subscription *)

Lemma consumeTranscriptionMinutes_not_pro_run
  env userId jobId minutes options w :
  has_unlimited_allowance env (Options.user options) userId = false →
  (∀ subscription, getUserSubscriptionStatus env userId = Some subscription →
                   tier subscription ≠ "pro") →
  consumeTranscriptionMinutes env userId jobId minutes options w
  = (Returns (consumption_failure "NOT_PRO"),
     with_events (allowance_events env (Options.user options) userId
                  ++ [SubscriptionLookup userId]) w).
Proof.
  intros Hu Hs. unfold consumeTranscriptionMinutes.
  rewrite bind_run, now_of_run, bind_run, unlimited_allowance_run, Hu.
  cbv iota.
  rewrite bind_run, subscription_status_run, with_events_app.
  destruct (getUserSubscriptionStatus env userId) as [s|] eqn:E; [|done].
  rewrite bool_decide_eq_false_2 by eauto. done.
Qed.

(** C10: for a user without unlimited allowance whose subscription is
    missing or not of tier [pro], [consumeTranscriptionMinutes] returns the
    structured failure [{success: false, error: 'NOT_PRO'}]; the only calls
    it has made are the allowance test and the subscription lookup, so the
    consumption procedure is not invoked and the storage is unchanged, for
    any job and any amount. *)
Theorem consumeTranscriptionMinutes_not_pro
  (env : Collaborators) (userId jobId : string) (minutes : Z)
  (options : Options.t) (w : World) :
  has_unlimited_allowance env (Options.user options) userId = false →
  (∀ subscription, getUserSubscriptionStatus env userId = Some subscription →
                   tier subscription ≠ "pro") →
  ∃ w',
    consumeTranscriptionMinutes env userId jobId minutes options w
    = (Returns (consumption_failure "NOT_PRO"), w')
    ∧ db w' = db w
    ∧ trace w' = (trace w ++ allowance_events env (Options.user options) userId
                          ++ [SubscriptionLookup userId])%list
    ∧ (∀ ev, ev ∈ drop (length (trace w)) (trace w') →
             is_storage_call ev = false).
Proof.
  intros Hu Hs. eexists. split; [|split; [|split]].
  - by apply consumeTranscriptionMinutes_not_pro_run.
  - done.
  - done.
  - cbn. intros ev. rewrite drop_app_length.
    intros [Hev | Hev]%elem_of_app.
    + by eapply allowance_events_no_storage.
    + by apply list_elem_of_singleton in Hev as ->.
Qed.


Lemma consumeTranscriptionMinutes_not_pro_witness :
  ∃ w',
    consumeTranscriptionMinutes sample_env "free-user" "job-7" 45 no_options
      sample_world
    = (Returns (consumption_failure "NOT_PRO"), w')
    ∧ db w' = db sample_world.
Proof.
  destruct (consumeTranscriptionMinutes_not_pro sample_env "free-user" "job-7"
              45 no_options sample_world) as (w' & Hrun & Hdb & _).
  - reflexivity.
  - intros subscription [= <-]. discriminate.
  - exists w'. split; assumption.
Defined.

(** ** Storage statements *)

Lemma storage_call_run {A : Type} ev
    (statement : Date → Database → Response A * Database) w :
  storage_call ev statement w =
    if storage_error w (length (trace w)) then
      (Returns (Error "storage failure"), with_events [ev] w)
    else
      (Returns (statement (clock w) (db w)).1,
       with_db (statement (clock w) (db w)).2 (with_events [ev] w)).
Proof.
  unfold storage_call. destruct (storage_error w (length (trace w))); [done|].
  by destruct (statement (clock w) (db w)).
Qed.

Lemma refund_credit_jobs recorded d :
  transcription_jobs
    (fold_left
       (λ acc e,
          set_topup_balance (entry_user e)
            (topup_balance acc (entry_user e) + entry_from_topup e) acc)
       recorded d)
  = transcription_jobs d.
Proof.
  revert d. induction recorded as [|e recorded IH]; intros d; [done|].
  cbn [fold_left]. by rewrite IH.
Qed.

Lemma refund_transcription_minutes_jobs jobId d :
  transcription_jobs (refund_transcription_minutes jobId d).2
  = transcription_jobs d.
Proof.
  unfold refund_transcription_minutes.
  destruct (List.filter _ (transcription_usage d)) as [|e recorded] eqn:E;
    [done|].
  cbn [snd set_usage transcription_jobs]. apply refund_credit_jobs.
Qed.

Lemma refund_transcription_minutes_unrecorded jobId d :
  (∀ e, e ∈ transcription_usage d → entry_job e ≠ jobId) →
  refund_transcription_minutes jobId d
  = ({| RefundData.success := Some true;
        RefundData.minutes_refunded := Some 0 |}, d).
Proof.
  intros Hfresh. unfold refund_transcription_minutes.
  destruct (List.filter _ (transcription_usage d)) as [|e recorded] eqn:E;
    [done|].
  assert (He : In e (List.filter (λ e, bool_decide (entry_job e = jobId))
                       (transcription_usage d))) by (rewrite E; by left).
  apply filter_In in He as [He Hjob].
  apply bool_decide_eq_true in Hjob.
  exfalso. eapply Hfresh; [|done]. by apply list_elem_of_In.
Qed.

Lemma refundTranscriptionMinutes_run jobId w :
  ∃ r,
    refundTranscriptionMinutes jobId w
    = (Returns r,
       if storage_error w (length (trace w)) then
         with_events [Rpc "refund_transcription_minutes" jobId] w
       else
         with_db (refund_transcription_minutes jobId (db w)).2
           (with_events [Rpc "refund_transcription_minutes" jobId] w))
    ∧ (storage_error w (length (trace w)) = false →
       Refunded.minutesRefunded r
       = Some (default 0
                 (RefundData.minutes_refunded
                    (refund_transcription_minutes jobId (db w)).1))).
Proof.
  unfold refundTranscriptionMinutes.
  rewrite bind_run, storage_call_run.
  destruct (storage_error w (length (trace w))).
  - eexists. split; [done|]. done.
  - destruct (refund_transcription_minutes jobId (db w)) as [result d'].
    eexists. split; [done|]. done.
Qed.

(** ** Unlimited users *)

(** C7: for a user with unlimited allowance and any amount of minutes,
    [canStartTranscription] admits with reason [OK] and
    [consumeTranscriptionMinutes] succeeds, both after the allowance test
    alone: no subscription lookup, no storage call, the storage unchanged.
    Nothing being recorded, a refund for a job with no recorded consumption
    gives nothing back and changes nothing. *)
Theorem unlimited_user_bypasses_credit_checks
  (env : Collaborators) (userId youtubeId jobId : string)
  (estimatedMinutes minutes : Z) (options : Options.t) (w : World) :
  has_unlimited_allowance env (Options.user options) userId = true →
  let w' := with_events (allowance_events env (Options.user options) userId) w in
  canStartTranscription env userId youtubeId estimatedMinutes options w
  = (Returns (unlimited_admission estimatedMinutes), w')
  ∧ consumeTranscriptionMinutes env userId jobId minutes options w
    = (Returns unlimited_consumption, w')
  ∧ db w' = db w
  ∧ (∀ ev, ev ∈ drop (length (trace w)) (trace w') →
           (∃ u, ev = UnlimitedCheck u) ∨ ev = UnlimitedCheckById userId)
  ∧ ((∀ e, e ∈ transcription_usage (db w) → entry_job e ≠ jobId) →
     ∃ r w'',
       refundTranscriptionMinutes jobId w' = (Returns r, w'')
       ∧ db w'' = db w
       ∧ default 0 (Refunded.minutesRefunded r) = 0).
Proof.
  intros Hu w'. repeat split.
  - unfold canStartTranscription.
    by rewrite bind_run, now_of_run, bind_run, unlimited_allowance_run, Hu.
  - unfold consumeTranscriptionMinutes.
    by rewrite bind_run, now_of_run, bind_run, unlimited_allowance_run, Hu.
  - subst w'. cbn. rewrite drop_app_length. unfold allowance_events.
    intros ev Hev.
    destruct (Options.user options) as [u|];
      [destruct (hasUnlimitedVideoAllowance env u)|];
      repeat (apply elem_of_cons in Hev as [-> | Hev]; [by eauto|]);
      by apply elem_of_nil in Hev.
  - intros Hfresh.
    destruct (refundTranscriptionMinutes_run jobId w') as (r & Hrun & Hmin).
    exists r. eexists. split; [exact Hrun|].
    destruct (storage_error w' (length (trace w'))) eqn:Hfault.
    + split; [done|]. clear Hmin. revert Hrun.
      unfold refundTranscriptionMinutes.
      rewrite bind_run, storage_call_run, Hfault. by intros [= <-].
    + rewrite (Hmin eq_refl).
      rewrite refund_transcription_minutes_unrecorded by done.
      split; [|done]. cbn. by destruct w.
Qed.

Lemma unlimited_user_bypasses_credit_checks_witness :
  canStartTranscription sample_env "vip" "video-9" 10000 no_options sample_world
  = (Returns (unlimited_admission 10000),
     with_events [UnlimitedCheckById "vip"] sample_world)
  ∧ consumeTranscriptionMinutes sample_env "vip" "job-9" 10000 no_options
      sample_world
    = (Returns unlimited_consumption,
       with_events [UnlimitedCheckById "vip"] sample_world).
Proof.
  destruct (unlimited_user_bypasses_credit_checks sample_env "vip" "video-9"
              "job-9" 10000 10000 no_options sample_world eq_refl)
    as (Hstart & Hconsume & _).
  split; assumption.
Defined.


(** ** Cancellation *)

Lemma update_rows_map matches payload (f : JobRow.t → JobRow.t) rows :
  (∀ row, apply_payload payload row = Some (f row)) →
  update_rows matches payload rows
  = Some (map (λ row, if matches row then f row else row) rows).
Proof.
  intros Hf. induction rows as [|row rows IH]; [done|].
  cbn [update_rows map]. rewrite IH.
  destruct (matches row); [rewrite Hf|]; done.
Qed.

Lemma apply_payload_cancel row :
  apply_payload CANCEL_PAYLOAD row = Some (cancelled_row row).
Proof.
  unfold apply_payload.
  replace (bool_decide (dom CANCEL_PAYLOAD ⊆ WRITABLE_COLUMNS)) with true
    by (by vm_compute).
  unfold patched.
  replace (CANCEL_PAYLOAD !! "status") with (Some (VStr "cancelled"))
    by (by vm_compute).
  replace (CANCEL_PAYLOAD !! "error_message")
    with (Some (VStr "Cancelled by user")) by (by vm_compute).
  replace (CANCEL_PAYLOAD !! "progress") with (@None Value) by (by vm_compute).
  replace (CANCEL_PAYLOAD !! "current_stage") with (@None Value)
    by (by vm_compute).
  replace (CANCEL_PAYLOAD !! "transcript_data") with (@None Value)
    by (by vm_compute).
  replace (CANCEL_PAYLOAD !! "completed_chunks") with (@None Value)
    by (by vm_compute).
  replace (CANCEL_PAYLOAD !! "started_at") with (@None Value)
    by (by vm_compute).
  replace (CANCEL_PAYLOAD !! "completed_at") with (@None Value)
    by (by vm_compute).
  done.
Qed.

Lemma cancelTranscriptionJob_run jobId w :
  ∃ w',
    cancelTranscriptionJob jobId w
    = (Returns
         (if storage_error w (length (trace w))
          then {| success := false; error := Some "FAILED_TO_CANCEL" |}
          else {| success := true; error := None |}), w')
    ∧ transcription_jobs (db w')
      = (if storage_error w (length (trace w))
         then transcription_jobs (db w)
         else cancel_rows jobId (transcription_jobs (db w)))
    ∧ trace w'
      = (trace w ++ From "transcription_jobs" "update" ::
           (if storage_error w (length (trace w)) then []
            else [Rpc "refund_transcription_minutes" jobId]))%list.
Proof.
  unfold cancelTranscriptionJob, update_jobs.
  rewrite bind_run, storage_call_run.
  destruct (storage_error w (length (trace w))) eqn:Hfault.
  - eexists. split; [done|]. done.
  - rewrite (update_rows_map _ _ cancelled_row) by apply apply_payload_cancel.
    cbn [fst snd]. rewrite bind_run.
    match goal with
    | |- context [refundTranscriptionMinutes jobId ?w1] =>
        destruct (refundTranscriptionMinutes_run jobId w1) as (r & -> & _)
    end.
    eexists. split; [done|].
    cbn [with_db with_events trace storage_error].
    destruct (storage_error w (length (trace w ++ _)));
      cbn; rewrite ?refund_transcription_minutes_jobs, <- ?app_assoc; done.
Qed.







(** ** Consumption *)

Lemma consumeTranscriptionMinutes_pro_run
  env userId jobId minutes options w subscription :
  has_unlimited_allowance env (Options.user options) userId = false →
  getUserSubscriptionStatus env userId = Some subscription →
  tier subscription = "pro" →
  let period := resolveBillingPeriod subscription (moment options w) in
  let w1 :=
    with_events (allowance_events env (Options.user options) userId
                 ++ [SubscriptionLookup userId]) w in
  let call := Rpc "consume_transcription_minutes_atomically" jobId in
  let answer :=
    consume_transcription_minutes_atomically userId jobId minutes
      TRANSCRIPTION_LIMITS_pro (start period) (end_ period) (clock w) (db w) in
  consumeTranscriptionMinutes env userId jobId minutes options w
  = if valid_time (start period) && valid_time (end_ period) then
      if storage_error w (length (trace w1)) then
        (Returns (consumption_failure "CONSUMPTION_FAILED"),
         with_events [call] w1)
      else
        (Returns
           (if ConsumeData.allowed answer.1 then
              {| Consumed.success := true;
                 Consumed.error := None;
                 Consumed.minutesFromSubscription :=
                   Some (default 0 (ConsumeData.minutes_from_subscription answer.1));
                 Consumed.minutesFromTopup :=
                   Some (default 0 (ConsumeData.minutes_from_topup answer.1));
                 Consumed.unlimited := None |}
            else
              consumption_failure
                (or_text (ConsumeData.reason answer.1) "INSUFFICIENT_CREDITS")),
         with_db answer.2 (with_events [call] w1))
    else (Throws "RangeError: Invalid time value", w1).
Proof.
  intros Hu Hs Ht period w1 call answer.
  unfold consumeTranscriptionMinutes.
  rewrite bind_run, now_of_run, bind_run, unlimited_allowance_run, Hu.
  cbv iota.
  rewrite bind_run, subscription_status_run, with_events_app, Hs.
  cbv iota. rewrite bool_decide_eq_true_2 by done.
  fold period w1.
  rewrite bind_run, toISOString_run.
  destruct (valid_time (start period)); [|done].
  rewrite bind_run, toISOString_run.
  destruct (valid_time (end_ period)); [|done].
  cbn [andb]. rewrite bind_run, storage_call_run.
  cbn [with_events storage_error clock db w1].
  fold w1. 
  destruct (storage_error w _); [done|].
  fold answer. destruct answer as [result d'].
  cbn [fst snd]. by destruct (ConsumeData.allowed result).
Qed.


Lemma topup_balance_set userId balance d :
  topup_balance (set_topup_balance userId balance d) userId = balance.
Proof.
  unfold topup_balance, set_topup_balance. cbn.
  by rewrite lookup_insert_eq.
Qed.

(** C2: for a pro user without unlimited allowance, a consumption that
    succeeds reports a split that sums exactly to the requested minutes,
    with [minutesFromSubscription = min(minutes, max(0, limit - usedSoFar))]
    for the usage of the period at consumption time, and a top-up part
    covered by the balance; that split is what gets recorded. When the
    top-up shortfall exceeds the balance the consumption does not succeed
    and nothing is recorded: the storage is unchanged, and the answer is
    [INSUFFICIENT_CREDITS] whenever the procedure was reached. *)
Theorem consumeTranscriptionMinutes_split_exact
  (env : Collaborators) (userId jobId : string) (minutes : Z)
  (options : Options.t) (w : World) :
  has_unlimited_allowance env (Options.user options) userId = false →
  (∀ (r : Consumed.t) (w' : World),
     consumeTranscriptionMinutes env userId jobId minutes options w
     = (Returns r, w') →
     Consumed.success r = true →
     ∃ (subscription : UserSubscription) (fromSubscription fromTopup : Z),
       getUserSubscriptionStatus env userId = Some subscription
       ∧ tier subscription = "pro"
       ∧ Consumed.minutesFromSubscription r = Some fromSubscription
       ∧ Consumed.minutesFromTopup r = Some fromTopup
       ∧ fromSubscription + fromTopup = minutes
       ∧ (let period := resolveBillingPeriod subscription (moment options w) in
          let usedSoFar :=
            get_transcription_usage_in_period userId (start period)
              (end_ period) (db w) in
          fromSubscription
          = Z.min minutes (Z.max 0 (TRANSCRIPTION_LIMITS_pro - usedSoFar)))
       ∧ fromTopup <= topup_balance (db w) userId
       ∧ transcription_usage (db w')
         = (transcription_usage (db w)
            ++ [ {| entry_user := userId; entry_job := jobId;
                    entry_at := clock w;
                    entry_from_subscription := fromSubscription;
                    entry_from_topup := fromTopup |} ])%list
       ∧ topup_balance (db w') userId
         = topup_balance (db w) userId - fromTopup)
  ∧ (∀ (subscription : UserSubscription) (out : Outcome Consumed.t)
       (w' : World),
       getUserSubscriptionStatus env userId = Some subscription →
       tier subscription = "pro" →
       let period := resolveBillingPeriod subscription (moment options w) in
       let usedSoFar :=
         get_transcription_usage_in_period userId (start period)
           (end_ period) (db w) in
       let fromSubscription :=
         Z.min minutes (Z.max 0 (TRANSCRIPTION_LIMITS_pro - usedSoFar)) in
       topup_balance (db w) userId < minutes - fromSubscription →
       consumeTranscriptionMinutes env userId jobId minutes options w
       = (out, w') →
       (∀ r, out = Returns r → Consumed.success r = false)
       ∧ db w' = db w
       ∧ (valid_time (start period) = true →
          valid_time (end_ period) = true →
          storage_error w
            (length (trace w
                     ++ allowance_events env (Options.user options) userId
                     ++ [SubscriptionLookup userId])) = false →
          out = Returns (consumption_failure "INSUFFICIENT_CREDITS"))).
Proof.
  intros Hu. split.
  - intros r w' Hrun Hsuccess.
    destruct (getUserSubscriptionStatus env userId) as [subscription|] eqn:Hs;
      [destruct (decide (tier subscription = "pro")) as [Ht|Ht]|].
    + rewrite (consumeTranscriptionMinutes_pro_run _ _ _ _ _ _ _ Hu Hs Ht)
        in Hrun.
      destruct (valid_time _ && valid_time _); [|done].
      destruct (storage_error w _); [by injection Hrun as <- <-|].
      unfold consume_transcription_minutes_atomically in Hrun.
      destruct (topup_balance (db w) userId <? _) eqn:Hshort;
        cbn in Hrun; injection Hrun as <- <-; [done|].
      apply Z.ltb_ge in Hshort.
      eexists subscription, _, _. repeat split; try done.
      * cbn. lia.
      * cbn. apply topup_balance_set.
    + rewrite (consumeTranscriptionMinutes_not_pro_run env userId jobId minutes
                 options w Hu) in Hrun; [by injection Hrun as <- <-|].
      intros s. rewrite Hs. by intros [= <-].
    + rewrite (consumeTranscriptionMinutes_not_pro_run env userId jobId minutes
                 options w Hu) in Hrun; [by injection Hrun as <- <-|].
      intros s. by rewrite Hs.
  - intros subscription out w' Hs Ht period usedSoFar fromSubscription
      Hshort Hrun.
    rewrite (consumeTranscriptionMinutes_pro_run _ _ _ _ _ _ _ Hu Hs Ht)
      in Hrun.
    fold period in Hrun.
    unfold consume_transcription_minutes_atomically in Hrun.
    fold usedSoFar fromSubscription in Hrun.
    apply Z.ltb_lt in Hshort. rewrite Hshort in Hrun. cbn [fst snd] in Hrun.
    destruct (valid_time (start period) && valid_time (end_ period)) eqn:Hv.
    + cbn [with_events trace] in Hrun.
      destruct (storage_error w _) eqn:Hfault.
      * injection Hrun as <- <-.
        split; [by intros r [= <-]|]. split; [done|].
        intros _ _ Hok. by rewrite Hok in Hfault.
      * injection Hrun as <- <-.
        split; [by intros r [= <-]|]. split; [|done].
        cbn. by destruct (db w).
    + injection Hrun as <- <-.
      split; [done|]. split; [done|].
      intros Hv1 Hv2. by rewrite Hv1, Hv2 in Hv.
Qed.


Lemma consumeTranscriptionMinutes_split_exact_witness :
  ∃ fromSubscription fromTopup : Z,
    (consumeTranscriptionMinutes sample_env "pro-user" "job-7" 25 no_options
       sample_world).1
    = Returns {| Consumed.success := true;
                 Consumed.error := None;
                 Consumed.minutesFromSubscription := Some fromSubscription;
                 Consumed.minutesFromTopup := Some fromTopup;
                 Consumed.unlimited := None |}
    ∧ fromSubscription + fromTopup = 25
    ∧ fromSubscription = 20.
Proof.
  pose (r := {| Consumed.success := true;
                Consumed.error := None;
                Consumed.minutesFromSubscription := Some 20;
                Consumed.minutesFromTopup := Some 5;
                Consumed.unlimited := None |}).
  assert (Hrun :
    consumeTranscriptionMinutes sample_env "pro-user" "job-7" 25 no_options
      sample_world
    = (Returns r,
       (consumeTranscriptionMinutes sample_env "pro-user" "job-7" 25
          no_options sample_world).2)).
  { apply injective_projections; [vm_compute; reflexivity | reflexivity]. }
  destruct (proj1 (consumeTranscriptionMinutes_split_exact sample_env
                     "pro-user" "job-7" 25 no_options sample_world eq_refl)
              r _ Hrun eq_refl)
    as (subscription & fromSubscription & fromTopup & _ & _ & Hsub & Htop
        & Hsum & _).
  injection Hsub as <-. injection Htop as <-.
  exists 20, 5. split; [|split; [exact Hsum | reflexivity]].
  vm_compute. reflexivity.
Defined.

(** ** Sparse updates *)

Lemma lookup_assign_if_defined_ne {A : Type} column column' (encode : A → Value)
    field (payload : gmap string Value) :
  column ≠ column' →
  assign_if_defined column encode field payload !! column' = payload !! column'.
Proof.
  intros Hne. unfold assign_if_defined.
  destruct field; [by rewrite lookup_insert_ne|done].
Qed.

Lemma lookup_assign_if_defined_eq {A : Type} column (encode : A → Value)
    field (payload : gmap string Value) :
  payload !! column = None →
  assign_if_defined column encode field payload !! column = encode <$> field.
Proof.
  intros Hnone. unfold assign_if_defined.
  destruct field; [by rewrite lookup_insert_eq|done].
Qed.

Lemma dom_assign_if_defined {A : Type} column (encode : A → Value) field
    (payload : gmap string Value) (columns : gset string) :
  column ∈ columns → dom payload ⊆ columns →
  dom (assign_if_defined column encode field payload) ⊆ columns.
Proof.
  intros Hc Hdom. unfold assign_if_defined.
  destruct field; [|done]. rewrite dom_insert_L.
  apply union_subseteq. split; [|done]. by apply singleton_subseteq_l.
Qed.

Lemma payload_of_sparse updates : payload_is_sparse updates (payload_of updates).
Proof.
  unfold payload_is_sparse, payload_of.
  repeat match goal with
         | |- _ ∧ _ => split
         end.
  1-8: repeat (rewrite lookup_assign_if_defined_ne by done);
       rewrite lookup_assign_if_defined_eq; [done|];
       repeat (rewrite lookup_assign_if_defined_ne by done);
       apply lookup_empty.
  repeat (apply dom_assign_if_defined; [by vm_compute|]).
  rewrite dom_empty_L. apply empty_subseteq.
Qed.

Lemma status_of_name_status_name s : status_of_name (status_name s) = Some s.
Proof. by destruct s. Qed.


Lemma patched_supplied {A : Type} (payload : gmap string Value) column
    (encode : A → Value) (decode : Value → option (option A)) field old :
  payload !! column = encode <$> field →
  (∀ x, decode (encode x) = Some (Some x)) →
  patched payload column decode old = Some (supplied field old).
Proof.
  intros Hlookup Hdecode. unfold patched. rewrite Hlookup.
  destruct field; cbn; [apply Hdecode|done].
Qed.

Lemma apply_payload_payload_of updates row :
  apply_payload (payload_of updates) row = Some (updated_row updates row).
Proof.
  destruct (payload_of_sparse updates)
    as (Hstatus & Hprogress & Hstage & Hmessage & Hdata & Hchunks & Hstarted
        & Hcompleted & Hdom).
  unfold apply_payload. rewrite bool_decide_eq_true_2 by done.
  rewrite (patched_supplied _ _ _ _ _ _ Hprogress) by done.
  rewrite (patched_supplied _ _ _ _ _ _ Hstage) by done.
  rewrite (patched_supplied _ _ _ _ _ _ Hmessage) by done.
  rewrite (patched_supplied _ _ _ _ _ _ Hdata) by done.
  rewrite (patched_supplied _ _ _ _ _ _ Hchunks) by done.
  rewrite (patched_supplied _ _ _ _ _ _ Hstarted) by done.
  rewrite (patched_supplied _ _ _ _ _ _ Hcompleted) by done.
  unfold patched. rewrite Hstatus.
  unfold updated_row.
  destruct (Updates.status updates) as [s|]; [|done].
  cbn [fmap option_fmap option_map as_status].
  by rewrite status_of_name_status_name.
Qed.

Lemma iso_if_defined_run field w :
  iso_if_defined field w
  = if from_option valid_time true field then (Returns field, w)
    else (Throws "RangeError: Invalid time value", w).
Proof.
  unfold iso_if_defined. destruct field as [date|]; [|done].
  rewrite bind_run, toISOString_run. cbn [from_option].
  by destruct (valid_time date).
Qed.

Lemma updatePayload_of_run updates w :
  updatePayload_of updates w
  = if dates_serialise updates then (Returns (payload_of updates), w)
    else (Throws "RangeError: Invalid time value", w).
Proof.
  unfold updatePayload_of, dates_serialise, payload_of. cbv zeta.
  rewrite bind_run, iso_if_defined_run.
  destruct (from_option valid_time true (Updates.startedAt updates)); [|done].
  rewrite bind_run, iso_if_defined_run.
  by destruct (from_option valid_time true (Updates.completedAt updates)).
Qed.

Lemma updateTranscriptionJobStatus_run jobId updates w :
  updateTranscriptionJobStatus jobId updates w
  = if dates_serialise updates then
      if storage_error w (length (trace w)) then
        (Returns {| success := false; error := Some "FAILED_TO_UPDATE_JOB" |},
         with_events [From "transcription_jobs" "update"] w)
      else
        (Returns {| success := true; error := None |},
         with_db (set_jobs (update_job_rows jobId updates
                              (transcription_jobs (db w))) (db w))
           (with_events [From "transcription_jobs" "update"] w))
    else (Throws "RangeError: Invalid time value", w).
Proof.
  unfold updateTranscriptionJobStatus, update_jobs.
  rewrite bind_run, updatePayload_of_run.
  destruct (dates_serialise updates); [|done].
  rewrite bind_run, storage_call_run.
  destruct (storage_error w (length (trace w))); [done|].
  by rewrite (update_rows_map _ _ (updated_row updates))
    by apply apply_payload_payload_of.
Qed.

Lemma updated_row_fixed updates row : same_fixed_columns row (updated_row updates row).
Proof. by repeat split. Qed.

Lemma updated_row_kept updates row :
  unsupplied_columns_kept updates row (updated_row updates row).
Proof.
  unfold unsupplied_columns_kept, updated_row. cbn.
  repeat split; by intros ->.
Qed.

Lemma updated_row_written updates row :
  supplied_columns_written updates (updated_row updates row).
Proof.
  unfold supplied_columns_written, updated_row. cbn.
  repeat split; by intros ? ->.
Qed.

(** C8: [updateTranscriptionJobStatus] is a sparse patch. The payload it
    builds has a key for a column exactly when the matching field of
    [updates] is supplied; whatever the outcome (success, storage failure,
    or a date that does not serialise), every row keeps the columns the
    payload does not name, rows of other jobs are untouched, and on success
    the supplied fields are written to the job. *)
Theorem updateTranscriptionJobStatus_sparse_patch
  (jobId : string) (updates : Updates.t) (w : World)
  (out : Outcome OpResult) (w' : World) :
  updateTranscriptionJobStatus jobId updates w = (out, w') →
  (∀ payload w1, updatePayload_of updates w = (Returns payload, w1) →
                 payload_is_sparse updates payload)
  ∧ (out = Returns {| success := true; error := None |}
     ∨ out = Returns {| success := false; error := Some "FAILED_TO_UPDATE_JOB" |}
     ∨ out = Throws "RangeError: Invalid time value")
  ∧ length (transcription_jobs (db w')) = length (transcription_jobs (db w))
  ∧ (∀ (i : nat) (row : JobRow.t),
       transcription_jobs (db w) !! i = Some row →
       ∃ row',
         transcription_jobs (db w') !! i = Some row'
         ∧ same_fixed_columns row row'
         ∧ unsupplied_columns_kept updates row row'
         ∧ (JobRow.id row ≠ jobId → row' = row)
         ∧ (out = Returns {| success := true; error := None |} →
            JobRow.id row = jobId →
            supplied_columns_written updates row')).
Proof.
  intros Hrun. split.
  { intros payload w1. rewrite updatePayload_of_run.
    destruct (dates_serialise updates); [|done].
    intros [= <- _]. apply payload_of_sparse. }
  rewrite updateTranscriptionJobStatus_run in Hrun.
  assert (Hsame : ∀ row, same_fixed_columns row row) by (by repeat split).
  assert (Hkept : ∀ row, unsupplied_columns_kept updates row row)
    by (by repeat split).
  destruct (dates_serialise updates);
    [destruct (storage_error w (length (trace w)))|];
    injection Hrun as <- <-.
  - split; [by eauto|]. split; [done|].
    intros i row Hrow. exists row. by repeat split.
  - split; [by eauto|]. cbn [with_db db set_jobs transcription_jobs].
    split; [unfold update_job_rows; by rewrite length_map|].
    intros i row Hrow. unfold update_job_rows.
    rewrite list_lookup_fmap, Hrow. cbn [fmap option_fmap option_map].
    case_bool_decide as Hid.
    + eexists. split; [done|].
      split; [apply updated_row_fixed|]. split; [apply updated_row_kept|].
      split; [done|]. intros _ _. apply updated_row_written.
    + exists row. by repeat split.
  - split; [by eauto|]. split; [done|].
    intros i row Hrow. exists row. by repeat split.
Qed.

Lemma updateTranscriptionJobStatus_sparse_patch_witness :
  ∃ row',
    transcription_jobs
      (db (updateTranscriptionJobStatus "job-run" sample_progress_update
             sample_world).2) !! 1%nat
    = Some row'
    ∧ JobRow.status row' = transcribing
    ∧ JobRow.current_stage row' = Some "transcribing".
Proof.
  destruct (proj2 (proj2 (proj2
    (updateTranscriptionJobStatus_sparse_patch "job-run"
       sample_progress_update sample_world _ _
       (surjective_pairing _)))) 1%nat sample_pending_row eq_refl)
    as (row' & Hrow' & _ & Hkept & _).
  exists row'. split; [exact Hrow'|].
  destruct Hkept as (Hstatus & _ & Hstage & _).
  split; [exact (Hstatus eq_refl) | exact (Hstage eq_refl)].
Defined.


(** ** The route handler *)

Lemma order_desc_limit_1_fold (key : JobRow.t → option Date) rows best row :
  fold_left
    (λ best row,
       match best with
       | None => Some row
       | Some b => if key_before (key row) (key b) then Some row else Some b
       end) rows best = Some row →
  best = Some row ∨ row ∈ rows.
Proof.
  revert best. induction rows as [|r rows IH]; intros best Hfold; [by left|].
  cbn [fold_left] in Hfold. apply IH in Hfold as [Hbest | Hin].
  - destruct best as [b|].
    + destruct (key_before (key r) (key b)); injection Hbest as <-.
      * right. by left.
      * by left.
    + injection Hbest as <-. right. by left.
  - right. by right.
Qed.

Lemma order_desc_limit_1_elem key rows row :
  order_desc_limit_1 key rows = [row] → row ∈ rows.
Proof.
  unfold order_desc_limit_1. intros Hone.
  destruct (fold_left _ rows None) as [best|] eqn:Hfold; [|done].
  injection Hone as ->.
  by apply order_desc_limit_1_fold in Hfold as [?|?].
Qed.

Lemma maybeSingle_Some {A : Type} (rows : list A) row :
  maybeSingle rows = Data (Some row) → rows = [row].
Proof. destruct rows as [|r [|r' rows]]; cbn; congruence. Qed.

Lemma getCompletedTranscription_run youtubeId w :
  getCompletedTranscription youtubeId w
  = (Returns
       (if call_fails w [] then None
        else
          match maybeSingle (latest_completed youtubeId
                               (transcription_jobs (db w))) with
          | Data (Some row) => Some (mapDbJobToTranscriptionJob row)
          | _ => None
          end),
     with_events [From "transcription_jobs" "select"] w).
Proof.
  unfold getCompletedTranscription, call_fails.
  rewrite bind_run, storage_call_run, app_nil_r.
  destruct (storage_error w (length (trace w))); [done|].
  cbn [fst snd]. fold (latest_completed youtubeId (transcription_jobs (db w))).
  by destruct (maybeSingle _) as [[row|]|].
Qed.

Lemma latest_completed_elem youtubeId rows row :
  latest_completed youtubeId rows = [row] →
  row ∈ rows ∧ JobRow.youtube_id row = youtubeId ∧ JobRow.status row = completed.
Proof.
  unfold latest_completed. intros Hpick.
  apply order_desc_limit_1_elem, list_elem_of_In, filter_In in Hpick
    as [Hin Hmatch].
  apply andb_true_iff in Hmatch as [Hvideo Hstatus].
  apply bool_decide_eq_true in Hvideo, Hstatus.
  by rewrite list_elem_of_In.
Qed.

(** C9: in the [POST /api/transcribe] handler, for an authenticated user
    and a well-formed request, when the storage answers the lookup of the
    completed job for the requested video and the job found carries a
    transcript, the handler answers it (status 200, the job id and the
    transcript) right away. The only calls made are the authentication and
    that one select: no allowance test, no subscription lookup, no credit
    or admission check, whatever the user's subscription and whoever owns
    the job; the storage is unchanged. *)
Theorem handler_completed_transcription_before_admission
  (env : Collaborators) (request : Request) (user : User) (parsed : Body.t)
  (youtubeId : string) (durationSeconds : Z) (row : JobRow.t)
  (transcript : TranscriptData) (w : World) :
  session request = Some user →
  body request = Some parsed →
  Body.youtubeId parsed = Some youtubeId →
  youtubeId ≠ "" →
  Body.durationSeconds parsed = Some durationSeconds →
  0 < durationSeconds →
  call_fails w [AuthGetUser] = false →
  latest_completed youtubeId (transcription_jobs (db w)) = [row] →
  JobRow.transcript_data row = Some transcript →
  handler env request w
  = (Returns {| http_status := 200;
                json := CompletedTranscription (JobRow.id row) transcript |},
     with_events [AuthGetUser; From "transcription_jobs" "select"] w)
  ∧ row ∈ transcription_jobs (db w)
  ∧ JobRow.youtube_id row = youtubeId
  ∧ JobRow.status row = completed.
Proof.
  intros Hsession Hbody Hvideo Hnonempty Hduration Hpositive Hanswers Hpick
    Htranscript.
  split; [|by apply latest_completed_elem].
  unfold handler, try_catch, request_json.
  rewrite bind_run.
  change (emit AuthGetUser w) with (Returns (), with_events [AuthGetUser] w).
  cbv iota. rewrite Hsession, bind_run, Hbody.
  change ((mret parsed : Task Body.t) (with_events [AuthGetUser] w))
    with (Returns parsed, with_events [AuthGetUser] w).
  cbv iota. rewrite Hvideo, bool_decide_eq_false_2, Hduration by done.
  replace (durationSeconds <=? 0) with false by (symmetry; by apply Z.leb_gt).
  cbv zeta. rewrite bind_run, getCompletedTranscription_run.
  unfold call_fails in *. cbn [with_events trace storage_error db].
  rewrite app_nil_r, Hanswers, Hpick. cbn [maybeSingle].
  unfold with_transcript. cbn [mapDbJobToTranscriptionJob Job.transcriptData].
  rewrite Htranscript. cbn [Job.id].
  unfold with_events. cbn. by rewrite <- app_assoc.
Qed.

Lemma handler_completed_transcription_before_admission_witness :
  getUserSubscriptionStatus sample_env "free-user"
  = Some sample_free_subscription
  ∧ JobRow.user_id sample_completed_row ≠ "free-user"
  ∧ handler sample_env sample_free_request sample_world
    = (Returns {| http_status := 200;
                  json := CompletedTranscription "job-done" ["hello"; "world"] |},
       with_events [AuthGetUser; From "transcription_jobs" "select"]
         sample_world).
Proof.
  split; [reflexivity|]. split; [discriminate|].
  refine (proj1
    (handler_completed_transcription_before_admission sample_env
       sample_free_request {| user_id := "free-user"; user_email := None |}
       {| Body.youtubeId := Some "video-1";
          Body.durationSeconds := Some 1200;
          Body.videoId := None |}
       "video-1" 1200 sample_completed_row ["hello"; "world"] sample_world
       eq_refl eq_refl eq_refl _ eq_refl _ eq_refl _ eq_refl)).
  - discriminate.
  - reflexivity.
  - vm_compute. reflexivity.
Defined.

(** ** Credit decisions *)

Lemma getTranscriptionUsageStats_pro_run env userId now w subscription :
  hasUnlimitedVideoAllowanceById env userId = false →
  getUserSubscriptionStatus env userId = Some subscription →
  tier subscription = "pro" →
  let period := resolveBillingPeriod subscription now in
  let lookups := [UnlimitedCheckById userId; SubscriptionLookup userId] in
  let usage_call := Rpc "get_transcription_usage_in_period" userId in
  let usedMinutes :=
    if call_fails w lookups then 0
    else get_transcription_usage_in_period userId (start period)
           (end_ period) (db w) in
  let topupMinutes :=
    if call_fails w (lookups ++ [usage_call]) then 0
    else topup_balance (db w) userId in
  getTranscriptionUsageStats env userId
    {| Options.now := Some now; Options.user := None |} w
  = if valid_time (start period) && valid_time (end_ period) then
      (Returns (Some (pro_usage_stats env period usedMinutes topupMinutes)),
       with_events (lookups ++ [usage_call; From "profiles" "select"]) w)
    else (Throws "RangeError: Invalid time value", with_events lookups w).
Proof.
  intros Hu Hs Ht period lookups usage_call usedMinutes topupMinutes.
  unfold getTranscriptionUsageStats.
  rewrite bind_run, now_of_run.
  change (moment {| Options.now := Some now; Options.user := None |} w)
    with now.
  cbv iota. rewrite bind_run, unlimited_allowance_run.
  unfold has_unlimited_allowance, allowance_events.
  cbn [Options.user orb]. rewrite Hu. cbv iota.
  rewrite bind_run, subscription_status_run, with_events_app, Hs.
  cbv iota. rewrite bool_decide_eq_true_2 by done. cbn [negb].
  cbv zeta. fold period.
  rewrite bind_run, toISOString_run.
  destruct (valid_time (start period)); [|done].
  rewrite bind_run, toISOString_run.
  destruct (valid_time (end_ period)); [|done].
  cbn [andb]. rewrite bind_run, storage_call_run.
  cbn [with_events with_db trace storage_error clock db fst snd].
  subst usedMinutes topupMinutes lookups usage_call. unfold call_fails.
  cbn [app].
  destruct (storage_error w (length (trace w ++ [_; _])));
    rewrite with_events_app; cbn [app];
    rewrite bind_run, storage_call_run;
    cbn [with_events with_db trace storage_error clock db fst snd];
    (destruct (storage_error w (length (trace w ++ [_; _; _])));
     [|unfold topup_balance;
       destruct (profiles (db w) !! userId) as [profile|]]);
    unfold pro_usage_stats, with_events; cbn; rewrite <- ?app_assoc; done.
Qed.


Lemma has_unlimited_allowance_false_by_id env user userId :
  has_unlimited_allowance env user userId = false →
  hasUnlimitedVideoAllowanceById env userId = false.
Proof. unfold has_unlimited_allowance. by intros [_ ?]%orb_false_elim. Qed.

Lemma canStartTranscription_not_pro_run
  env userId youtubeId estimatedMinutes options w :
  has_unlimited_allowance env (Options.user options) userId = false →
  (∀ subscription, getUserSubscriptionStatus env userId = Some subscription →
                   tier subscription ≠ "pro") →
  canStartTranscription env userId youtubeId estimatedMinutes options w
  = (Returns
       (match getUserSubscriptionStatus env userId with
        | Some subscription => rejection NOT_PRO (Some subscription)
        | None => rejection NO_SUBSCRIPTION None
        end),
     with_events (allowance_events env (Options.user options) userId
                  ++ [SubscriptionLookup userId]) w).
Proof.
  intros Hu Hs. unfold canStartTranscription.
  rewrite bind_run, now_of_run, bind_run, unlimited_allowance_run, Hu.
  cbv iota.
  rewrite bind_run, subscription_status_run, with_events_app.
  destruct (getUserSubscriptionStatus env userId) as [s|] eqn:E; [|done].
  rewrite bool_decide_eq_false_2 by eauto. done.
Qed.

Lemma canStartTranscription_pro_run
  env userId youtubeId estimatedMinutes options w subscription :
  has_unlimited_allowance env (Options.user options) userId = false →
  getUserSubscriptionStatus env userId = Some subscription →
  tier subscription = "pro" →
  let lookups :=
    (allowance_events env (Options.user options) userId
     ++ [SubscriptionLookup userId])%list in
  let w1 := with_events (lookups ++ [From "transcription_jobs" "select"]) w in
  let existingJob :=
    if call_fails w lookups then Error "storage failure"
    else maybeSingle (List.filter (active_job_of userId youtubeId)
                        (transcription_jobs (db w))) in
  canStartTranscription env userId youtubeId estimatedMinutes options w
  = match existingJob with
    | Data (Some job) => (Returns (existing_job_refusal subscription job), w1)
    | _ =>
        match getTranscriptionUsageStats env userId
                {| Options.now := Some (moment options w);
                   Options.user := None |} w1 with
        | (Returns (Some stats), w2) =>
            (Returns (decision_on_stats subscription stats estimatedMinutes), w2)
        | (Returns None, w2) =>
            (Returns (rejection NO_SUBSCRIPTION (Some subscription)), w2)
        | (Throws err, w2) => (Throws err, w2)
        end
    end.
Proof.
  intros Hu Hs Ht lookups w1 existingJob.
  unfold canStartTranscription.
  rewrite bind_run, now_of_run, bind_run, unlimited_allowance_run, Hu.
  cbv iota.
  rewrite bind_run, subscription_status_run, with_events_app, Hs.
  cbv iota. rewrite bool_decide_eq_true_2 by done. cbn [negb].
  fold lookups. rewrite bind_run, storage_call_run.
  cbn [with_events with_db trace storage_error clock db fst snd].
  subst existingJob. unfold call_fails.
  assert (Hw1 : with_events [From "transcription_jobs" "select"]
                  (with_events lookups w) = w1)
    by apply with_events_app.
  assert (Hw1' : with_db (db w)
                   (with_events [From "transcription_jobs" "select"]
                      (with_events lookups w)) = w1)
    by (subst w1; unfold with_events, with_db; cbn; by rewrite app_assoc).
  destruct (storage_error w (length (trace w ++ lookups))).
  - fold (with_events [From "transcription_jobs" "select"]
            (with_events lookups w)).
    rewrite Hw1, bind_run.
    destruct (getTranscriptionUsageStats env userId _ w1) as [[[stats|]|] w2];
      [unfold decision_on_stats; by destruct (_ <? _)|done..].
  - rewrite Hw1'.
    destruct (maybeSingle _) as [[job|]|]; [done|..];
      rewrite bind_run;
      (destruct (getTranscriptionUsageStats env userId _ w1)
         as [[[stats|]|] w2];
       [unfold decision_on_stats; by destruct (_ <? _)|done..]).
Qed.





(** C6: for a pro user without unlimited allowance, a decision taken on
    computed statistics with [totalRemaining < estimatedMinutes] is the
    refusal [INSUFFICIENT_CREDITS], carrying those statistics and
    [minutesNeeded = estimatedMinutes]. It is a returned value: when the
    storage answers, the user has no single job in flight for the video and
    the period dates serialise, the usage of the period and the top-up
    balance give the statistics, and [canStartTranscription] returns that
    refusal without changing the storage. *)
Theorem canStartTranscription_insufficient_credits
  (env : Collaborators) (userId youtubeId : string) (estimatedMinutes : Z)
  (options : Options.t) (w : World) :
  has_unlimited_allowance env (Options.user options) userId = false →
  (∀ (d : TranscriptionDecision.t) (w' : World)
     (stats : TranscriptionUsageStats),
     canStartTranscription env userId youtubeId estimatedMinutes options w
     = (Returns d, w') →
     TranscriptionDecision.stats d = Some stats →
     totalRemaining stats < estimatedMinutes →
     TranscriptionDecision.allowed d = false
     ∧ TranscriptionDecision.reason d = INSUFFICIENT_CREDITS
     ∧ TranscriptionDecision.minutesNeeded d = Some estimatedMinutes
     ∧ ∃ subscription,
         getUserSubscriptionStatus env userId = Some subscription
         ∧ tier subscription = "pro"
         ∧ TranscriptionDecision.subscription d = Some subscription)
  ∧ (∀ subscription : UserSubscription,
       getUserSubscriptionStatus env userId = Some subscription →
       tier subscription = "pro" →
       let period := resolveBillingPeriod subscription (moment options w) in
       let usedMinutes :=
         get_transcription_usage_in_period userId (start period)
           (end_ period) (db w) in
       let stats :=
         pro_usage_stats env period usedMinutes (topup_balance (db w) userId) in
       (∀ n, storage_error w n = false) →
       (∀ job, List.filter (active_job_of userId youtubeId)
                 (transcription_jobs (db w)) ≠ [job]) →
       valid_time (start period) = true →
       valid_time (end_ period) = true →
       totalRemaining stats < estimatedMinutes →
       ∃ w',
         canStartTranscription env userId youtubeId estimatedMinutes options w
         = (Returns
              {| TranscriptionDecision.allowed := false;
                 TranscriptionDecision.reason := INSUFFICIENT_CREDITS;
                 TranscriptionDecision.stats := Some stats;
                 TranscriptionDecision.subscription := Some subscription;
                 TranscriptionDecision.willUseTopup := None;
                 TranscriptionDecision.minutesNeeded := Some estimatedMinutes;
                 TranscriptionDecision.existingJobId := None;
                 TranscriptionDecision.unlimited := None |}, w')
         ∧ db w' = db w).
Proof.
  intros Hu. split.
  - intros d w' stats Hrun Hstats Hshort.
    destruct (getUserSubscriptionStatus env userId) as [subscription|] eqn:Hs;
      [destruct (decide (tier subscription = "pro")) as [Ht|Ht]|].
    + rewrite (canStartTranscription_pro_run _ _ _ _ _ _ _ Hu Hs Ht) in Hrun.
      assert (Hd : d = decision_on_stats subscription stats estimatedMinutes).
      { destruct (if call_fails w _ then _ else _) as [[job|]|];
          [injection Hrun as <- _; discriminate|..];
          (destruct (getTranscriptionUsageStats _ _ _ _) as [[[st|]|] w2];
           [|injection Hrun as <- _; discriminate|done]);
          injection Hrun as <- _; unfold decision_on_stats in Hstats;
          (destruct (totalRemaining st <? estimatedMinutes);
           by injection Hstats as ->). }
      subst d. unfold decision_on_stats.
      apply Z.ltb_lt in Hshort. rewrite Hshort. cbn. eauto 10.
    + rewrite canStartTranscription_not_pro_run in Hrun.
      * rewrite Hs in Hrun. by injection Hrun as <- _.
      * done.
      * intros s. rewrite Hs. by intros [= <-].
    + rewrite canStartTranscription_not_pro_run in Hrun.
      * rewrite Hs in Hrun. by injection Hrun as <- _.
      * done.
      * intros s. by rewrite Hs.
  - intros subscription Hs Ht period usedMinutes stats Hhealthy Hnone Hv1 Hv2
      Hshort.
    rewrite (canStartTranscription_pro_run _ _ _ _ _ _ _ Hu Hs Ht).
    rewrite (getTranscriptionUsageStats_pro_run env userId _ _ subscription)
      by eauto using has_unlimited_allowance_false_by_id.
    fold period. rewrite Hv1, Hv2. unfold call_fails.
    cbn [with_events storage_error db trace andb].
    rewrite !Hhealthy. fold usedMinutes. fold stats.
    unfold decision_on_stats.
    apply Z.ltb_lt in Hshort. rewrite Hshort.
    destruct (maybeSingle _) as [[job|]|] eqn:Hsingle.
    + apply maybeSingle_Some in Hsingle. by apply Hnone in Hsingle.
    + eexists. by split.
    + eexists. by split.
Qed.

Lemma canStartTranscription_insufficient_credits_witness :
  ∃ w',
    canStartTranscription sample_env "pro-user" "video-9" 60 no_options
      sample_world
    = (Returns
         {| TranscriptionDecision.allowed := false;
            TranscriptionDecision.reason := INSUFFICIENT_CREDITS;
            TranscriptionDecision.stats := Some sample_pro_stats;
            TranscriptionDecision.subscription := Some sample_pro_subscription;
            TranscriptionDecision.willUseTopup := None;
            TranscriptionDecision.minutesNeeded := Some 60;
            TranscriptionDecision.existingJobId := None;
            TranscriptionDecision.unlimited := None |}, w')
    ∧ db w' = db sample_world.
Proof.
  refine (proj2 (canStartTranscription_insufficient_credits sample_env
                   "pro-user" "video-9" 60 no_options sample_world eq_refl)
            sample_pro_subscription eq_refl eq_refl _ _ eq_refl eq_refl _).
  - reflexivity.
  - discriminate.
  - vm_compute. reflexivity.
Defined.


(** * Further properties *)

(** ** Tasks that only read *)

Create HintDb read_only.

Lemma read_only_ret {A : Type} (a : A) : read_only (mret a : Task A).
Proof.
  intros w. exists []. unfold with_events. destruct w; cbn.
  by rewrite app_nil_r.
Qed.

Lemma read_only_throw {A : Type} err : read_only (throw err : Task A).
Proof.
  intros w. exists []. unfold with_events. destruct w; cbn.
  by rewrite app_nil_r.
Qed.

Lemma read_only_emit ev : read_only (emit ev).
Proof. intros w. by exists [ev]. Qed.

Lemma read_only_bind {A B : Type} (m : Task A) (k : A → Task B) :
  read_only m → (∀ a, read_only (k a)) → read_only (m ≫= k).
Proof.
  intros Hm Hk w. rewrite bind_run.
  destruct (Hm w) as [evs Hevs]. destruct (m w) as [[a|err] w1].
  - cbn in Hevs. subst w1. destruct (Hk a (with_events evs w)) as [evs' Hevs'].
    exists (evs ++ evs')%list. by rewrite Hevs', with_events_app.
  - by exists evs.
Qed.

Lemma read_only_new_Date : read_only new_Date.
Proof.
  intros w. exists []. unfold with_events. destruct w; cbn.
  by rewrite app_nil_r.
Qed.

Lemma read_only_toISOString date : read_only (toISOString date).
Proof.
  unfold toISOString. destruct (valid_time date);
    [apply read_only_ret | apply read_only_throw].
Qed.

Lemma read_only_now_of options : read_only (now_of options).
Proof.
  unfold now_of. destruct (Options.now options);
    [apply read_only_ret | apply read_only_new_Date].
Qed.

Lemma read_only_storage_call {A : Type} ev
    (statement : Date → Database → Response A * Database) :
  (∀ now d, (statement now d).2 = d) →
  read_only (storage_call ev statement).
Proof.
  intros Hread w. exists [ev]. rewrite storage_call_run.
  destruct (storage_error w (length (trace w))); [done|].
  cbn [snd]. by rewrite Hread.
Qed.

#[global] Hint Resolve read_only_ret read_only_throw read_only_emit
  read_only_new_Date read_only_toISOString read_only_now_of : read_only.

Ltac read_only_step :=
  lazymatch goal with
  | |- read_only (mbind _ _) => apply read_only_bind; [|intros ?]
  | |- read_only (storage_call _ _) => apply read_only_storage_call; by intros
  | |- read_only (match ?x with _ => _ end) => destruct x
  | |- read_only (let _ := _ in _) => cbv zeta
  | |- _ => solve [eauto with read_only]
  end.

Ltac read_only_solve := repeat read_only_step.

Lemma read_only_unlimited_allowance env user userId :
  read_only (unlimited_allowance env user userId).
Proof. unfold unlimited_allowance. read_only_solve. Qed.

Lemma read_only_subscription_status env userId :
  read_only (subscription_status env userId).
Proof. unfold subscription_status. read_only_solve. Qed.

#[global] Hint Resolve read_only_unlimited_allowance
  read_only_subscription_status : read_only.

Lemma read_only_getTranscriptionUsageStats env userId options :
  read_only (getTranscriptionUsageStats env userId options).
Proof. unfold getTranscriptionUsageStats. read_only_solve. Qed.

#[global] Hint Resolve read_only_getTranscriptionUsageStats : read_only.

Lemma read_only_canStartTranscription env userId youtubeId minutes options :
  read_only (canStartTranscription env userId youtubeId minutes options).
Proof. unfold canStartTranscription. read_only_solve. Qed.

Lemma read_only_getTranscriptionJob jobId : read_only (getTranscriptionJob jobId).
Proof. unfold getTranscriptionJob. read_only_solve. Qed.

Lemma read_only_getActiveTranscriptionJob userId youtubeId :
  read_only (getActiveTranscriptionJob userId youtubeId).
Proof. unfold getActiveTranscriptionJob. read_only_solve. Qed.

Lemma read_only_getCompletedTranscription youtubeId :
  read_only (getCompletedTranscription youtubeId).
Proof. unfold getCompletedTranscription. read_only_solve. Qed.

#[global] Hint Resolve read_only_canStartTranscription
  read_only_getTranscriptionJob read_only_getActiveTranscriptionJob
  read_only_getCompletedTranscription : read_only.

Lemma read_only_db {A : Type} (m : Task A) w :
  read_only m →
  db (m w).2 = db w ∧ clock (m w).2 = clock w
  ∧ trace w `prefix_of` trace (m w).2.
Proof.
  intros Hm. destruct (Hm w) as [evs ->]. cbn. repeat split.
  by apply prefix_app_r.
Qed.


(** ** Billing periods without provider dates *)

(** X1: whenever the provider-anchored branch is not taken, the resolved
    period is exactly 30 days long and the current time lies inside it;
    without a signup date it is the 30 days ending now. *)
Theorem resolveBillingPeriod_unanchored_window
  (subscription : UserSubscription) (now : Date) :
  provider_anchored subscription = false →
  let period := resolveBillingPeriod subscription now in
  end_ period - start period = THIRTY_DAYS_MS
  ∧ start period <= now <= end_ period
  ∧ (userCreatedAt subscription = None → end_ period = now)
  ∧ (is_Some (userCreatedAt subscription) → now < end_ period).
Proof.
  intros Hpa period. subst period.
  assert (H30 : 0 < THIRTY_DAYS_MS) by (unfold THIRTY_DAYS_MS; lia).
  destruct (userCreatedAt subscription) as [signup|] eqn:Hsignup.
  - rewrite (provider_anchored_false_resolve _ now signup Hpa Hsignup). cbn.
    pose proof (cycle_of_bounds signup now).
    repeat split; try lia. done.
  - assert (Hres : resolveBillingPeriod subscription now
                   = {| start := now - THIRTY_DAYS_MS; end_ := now |}).
    { unfold resolveBillingPeriod, provider_anchored in *. rewrite Hsignup.
      rewrite !andb_false_iff, !bool_decide_eq_false in Hpa.
      destruct (bool_decide (tier subscription = "pro")) eqn:Ht; [|done].
      apply bool_decide_eq_true in Ht.
      destruct (currentPeriodStart subscription) as [ps|]; [|done].
      destruct (currentPeriodEnd subscription) as [pe|]; [|done].
      exfalso. destruct Hpa as [[Hpa | Hpa] | Hpa]; apply Hpa; eauto. }
    rewrite Hres. cbn. repeat split; try lia. by intros [? ?].
Qed.

Lemma resolveBillingPeriod_unanchored_window_witness :
  resolveBillingPeriod sample_unanchored_subscription 1768000200000
  = {| start := 1768000200000 - THIRTY_DAYS_MS; end_ := 1768000200000 |}
  ∧ end_ (resolveBillingPeriod sample_unanchored_subscription 1768000200000)
    - start (resolveBillingPeriod sample_unanchored_subscription 1768000200000)
    = THIRTY_DAYS_MS.
Proof.
  split; [reflexivity|].
  exact (proj1 (resolveBillingPeriod_unanchored_window
                  sample_unanchored_subscription 1768000200000 eq_refl)).
Defined.

(** ** Usage statistics *)

Lemma getTranscriptionUsageStats_unlimited_run env userId options w :
  has_unlimited_allowance env (Options.user options) userId = true →
  getTranscriptionUsageStats env userId options w
  = (Returns (Some (unlimited_usage_stats (moment options w))),
     with_events (allowance_events env (Options.user options) userId) w).
Proof.
  intros Hu. unfold getTranscriptionUsageStats.
  by rewrite bind_run, now_of_run, bind_run, unlimited_allowance_run, Hu.
Qed.

Lemma getTranscriptionUsageStats_not_pro_run env userId options w :
  has_unlimited_allowance env (Options.user options) userId = false →
  (∀ subscription, getUserSubscriptionStatus env userId = Some subscription →
                   tier subscription ≠ "pro") →
  getTranscriptionUsageStats env userId options w
  = (Returns
       ((λ subscription,
           no_usage_stats env
             (resolveBillingPeriod subscription (moment options w)))
        <$> getUserSubscriptionStatus env userId),
     with_events (lookup_events env (Options.user options) userId) w).
Proof.
  intros Hu Hs. unfold getTranscriptionUsageStats, lookup_events.
  rewrite bind_run, now_of_run, bind_run, unlimited_allowance_run, Hu.
  cbv iota.
  rewrite bind_run, subscription_status_run, with_events_app.
  destruct (getUserSubscriptionStatus env userId) as [s|] eqn:E; [|done].
  rewrite bool_decide_eq_false_2 by eauto. done.
Qed.

Lemma getTranscriptionUsageStats_pro_run_any env userId options w subscription :
  has_unlimited_allowance env (Options.user options) userId = false →
  getUserSubscriptionStatus env userId = Some subscription →
  tier subscription = "pro" →
  let period := resolveBillingPeriod subscription (moment options w) in
  let lookups := lookup_events env (Options.user options) userId in
  let usage_call := Rpc "get_transcription_usage_in_period" userId in
  let usedMinutes :=
    if call_fails w lookups then 0
    else get_transcription_usage_in_period userId (start period)
           (end_ period) (db w) in
  let topupMinutes :=
    if call_fails w (lookups ++ [usage_call]) then 0
    else topup_balance (db w) userId in
  getTranscriptionUsageStats env userId options w
  = if valid_time (start period) && valid_time (end_ period) then
      (Returns (Some (pro_usage_stats env period usedMinutes topupMinutes)),
       with_events (lookups ++ [usage_call; From "profiles" "select"]) w)
    else (Throws "RangeError: Invalid time value", with_events lookups w).
Proof.
  intros Hu Hs Ht period lookups usage_call usedMinutes topupMinutes.
  unfold getTranscriptionUsageStats.
  rewrite bind_run, now_of_run, bind_run, unlimited_allowance_run, Hu.
  cbv iota.
  rewrite bind_run, subscription_status_run, with_events_app, Hs.
  cbv iota. rewrite bool_decide_eq_true_2 by done. cbn [negb].
  cbv zeta. fold period. fold (lookup_events env (Options.user options) userId).
  fold lookups.
  rewrite bind_run, toISOString_run.
  destruct (valid_time (start period)); [|done].
  rewrite bind_run, toISOString_run.
  destruct (valid_time (end_ period)); [|done].
  cbn [andb]. rewrite bind_run, storage_call_run.
  cbn [with_events with_db trace storage_error clock db fst snd].
  subst usedMinutes topupMinutes usage_call. unfold call_fails.
  destruct (storage_error w (length (trace w ++ lookups)));
    rewrite with_events_app;
    rewrite bind_run, storage_call_run;
    cbn [with_events with_db trace storage_error clock db fst snd];
    (destruct (storage_error w (length (trace w ++ lookups ++ [_])));
     [|unfold topup_balance;
       destruct (profiles (db w) !! userId) as [profile|]]);
    unfold pro_usage_stats, with_events; cbn; rewrite <- ?app_assoc; done.
Qed.


Lemma lookup_events_no_storage env user userId ev :
  ev ∈ lookup_events env user userId → is_storage_call ev = false.
Proof.
  unfold lookup_events. intros [Hev | Hev]%elem_of_app.
  - by eapply allowance_events_no_storage.
  - by apply list_elem_of_singleton in Hev as ->.
Qed.

(** X2: whatever the branch taken (unlimited, not pro, pro), the statistics
    [getTranscriptionUsageStats] returns are consistent:
    [remaining = max(0, limit - used)] and
    [totalRemaining = remaining + topupMinutes]; the limit is 0, 120 or the
    unlimited sentinel, and [isUnlimited] is set exactly for a user with
    unlimited allowance. *)
Theorem getTranscriptionUsageStats_consistent
  (env : Collaborators) (userId : string) (options : Options.t) (w : World)
  (stats : TranscriptionUsageStats) (w' : World) :
  getTranscriptionUsageStats env userId options w = (Returns (Some stats), w') →
  remaining (subscriptionMinutes stats)
  = Z.max 0 (limit (subscriptionMinutes stats) - used (subscriptionMinutes stats))
  ∧ totalRemaining stats
    = remaining (subscriptionMinutes stats) + topupMinutes stats
  ∧ (limit (subscriptionMinutes stats) = 0
     ∨ limit (subscriptionMinutes stats) = TRANSCRIPTION_LIMITS_pro
     ∨ limit (subscriptionMinutes stats) = UNLIMITED_MINUTES)
  ∧ (isUnlimited stats = Some true
     ↔ has_unlimited_allowance env (Options.user options) userId = true).
Proof.
  intros Hrun.
  destruct (has_unlimited_allowance env (Options.user options) userId) eqn:Hu.
  - rewrite getTranscriptionUsageStats_unlimited_run in Hrun by done.
    injection Hrun as <- _. cbn. unfold UNLIMITED_MINUTES. repeat split; eauto; lia.
  - destruct (getUserSubscriptionStatus env userId) as [subscription|] eqn:Hs;
      [destruct (decide (tier subscription = "pro")) as [Ht|Ht]|].
    + rewrite (getTranscriptionUsageStats_pro_run_any _ _ _ _ _ Hu Hs Ht)
        in Hrun.
      destruct (valid_time _ && valid_time _); [|done].
      injection Hrun as <- _. cbn. repeat split; eauto; done.
    + rewrite getTranscriptionUsageStats_not_pro_run, Hs in Hrun;
        [|done|intros s; rewrite Hs; by intros [= <-]].
      injection Hrun as <- _. cbn. repeat split; eauto; done.
    + rewrite getTranscriptionUsageStats_not_pro_run, Hs in Hrun;
        [|done|intros s; by rewrite Hs].
      done.
Qed.

Lemma getTranscriptionUsageStats_consistent_witness :
  ∃ stats,
    (getTranscriptionUsageStats sample_env "pro-user" no_options sample_world).1
    = Returns (Some stats)
    ∧ remaining (subscriptionMinutes stats) = 20
    ∧ totalRemaining stats
      = remaining (subscriptionMinutes stats) + topupMinutes stats.
Proof.
  exists sample_pro_stats. split; [vm_compute; reflexivity|].
  split; [reflexivity|].
  refine (proj1 (proj2 (getTranscriptionUsageStats_consistent sample_env
    "pro-user" no_options sample_world sample_pro_stats
    (getTranscriptionUsageStats sample_env "pro-user" no_options
       sample_world).2 _))).
  apply injective_projections; [vm_compute; reflexivity | reflexivity].
Defined.

(** X3: for a user without unlimited allowance whose subscription is not
    pro, the statistics are all zero (limit, remaining, top-up, total),
    whatever top-up balance the profile holds, over the period the resolver
    gives; without a subscription there are none. Neither case reads the
    storage: the only calls are the allowance test and the subscription
    lookup. *)
Theorem getTranscriptionUsageStats_not_pro
  (env : Collaborators) (userId : string) (options : Options.t) (w : World) :
  has_unlimited_allowance env (Options.user options) userId = false →
  (∀ subscription, getUserSubscriptionStatus env userId = Some subscription →
                   tier subscription ≠ "pro") →
  ∃ answer,
    getTranscriptionUsageStats env userId options w
    = (Returns answer,
       with_events (lookup_events env (Options.user options) userId) w)
    ∧ (getUserSubscriptionStatus env userId = None → answer = None)
    ∧ (∀ subscription,
         getUserSubscriptionStatus env userId = Some subscription →
         ∃ stats,
           answer = Some stats
           ∧ subscriptionMinutes stats
             = {| used := 0; limit := 0; remaining := 0 |}
           ∧ topupMinutes stats = 0
           ∧ totalRemaining stats = 0
           ∧ periodStart stats
             = start (resolveBillingPeriod subscription (moment options w))
           ∧ periodEnd stats
             = end_ (resolveBillingPeriod subscription (moment options w)))
    ∧ (∀ ev, ev ∈ lookup_events env (Options.user options) userId →
             is_storage_call ev = false).
Proof.
  intros Hu Hs. eexists. split; [by apply getTranscriptionUsageStats_not_pro_run|].
  split; [by intros ->|]. split; [|apply lookup_events_no_storage].
  intros subscription ->. eexists. by repeat split.
Qed.

Lemma getTranscriptionUsageStats_not_pro_witness :
  ∃ stats,
    (getTranscriptionUsageStats sample_env "free-user" no_options
       sample_world).1 = Returns (Some stats)
    ∧ totalRemaining stats = 0.
Proof.
  destruct (getTranscriptionUsageStats_not_pro sample_env "free-user"
              no_options sample_world eq_refl) as (answer & Hrun & _ & Hsome & _).
  - intros subscription [= <-]. discriminate.
  - destruct (Hsome sample_free_subscription eq_refl)
      as (stats & -> & _ & _ & Htotal & _).
    exists stats. by rewrite Hrun.
Defined.

(** X4: for a pro user, a failed read of the period usage counts as no
    usage at all (the full 120 minutes remain, whatever was recorded), and a
    failed read of the profile counts as no top-up minutes; the statistics
    are returned all the same. *)
Theorem getTranscriptionUsageStats_failed_reads
  (env : Collaborators) (userId : string) (options : Options.t) (w : World)
  (subscription : UserSubscription) :
  has_unlimited_allowance env (Options.user options) userId = false →
  getUserSubscriptionStatus env userId = Some subscription →
  tier subscription = "pro" →
  let period := resolveBillingPeriod subscription (moment options w) in
  let lookups := lookup_events env (Options.user options) userId in
  valid_time (start period) = true →
  valid_time (end_ period) = true →
  ∃ stats w',
    getTranscriptionUsageStats env userId options w = (Returns (Some stats), w')
    ∧ (call_fails w lookups = true →
       used (subscriptionMinutes stats) = 0
       ∧ remaining (subscriptionMinutes stats) = TRANSCRIPTION_LIMITS_pro)
    ∧ (call_fails w
         (lookups ++ [Rpc "get_transcription_usage_in_period" userId]) = true →
       topupMinutes stats = 0
       ∧ totalRemaining stats = remaining (subscriptionMinutes stats))
    ∧ (call_fails w lookups = false →
       used (subscriptionMinutes stats)
       = get_transcription_usage_in_period userId (start period)
           (end_ period) (db w))
    ∧ (call_fails w
         (lookups ++ [Rpc "get_transcription_usage_in_period" userId]) = false →
       topupMinutes stats = topup_balance (db w) userId).
Proof.
  intros Hu Hs Ht period lookups Hv1 Hv2.
  rewrite (getTranscriptionUsageStats_pro_run_any _ _ _ _ _ Hu Hs Ht).
  fold period lookups. rewrite Hv1, Hv2. cbn [andb].
  eexists _, _. split; [done|]. cbn.
  split; [|split; [|split]]; intros Hcall; rewrite Hcall;
    unfold TRANSCRIPTION_LIMITS_pro; try split; lia.
Qed.

Lemma getTranscriptionUsageStats_failed_reads_witness :
  ∃ stats,
    (getTranscriptionUsageStats sample_env "pro-user" no_options
       sample_failing_world).1 = Returns (Some stats)
    ∧ used (subscriptionMinutes stats) = 0
    ∧ remaining (subscriptionMinutes stats) = 120
    ∧ get_transcription_usage_in_period "pro-user" 1767225600000
        1769904000000 (db sample_failing_world) = 100.
Proof.
  destruct (getTranscriptionUsageStats_failed_reads sample_env "pro-user"
              no_options sample_failing_world sample_pro_subscription
              eq_refl eq_refl eq_refl eq_refl eq_refl)
    as (stats & w' & Hrun & Hused & _).
  exists stats. rewrite Hrun. split; [reflexivity|].
  destruct (Hused eq_refl) as [-> ->]. by repeat split.
Defined.

(** X5: the admission check is advisory. [canStartTranscription] and
    [getTranscriptionUsageStats] never write: whatever the arguments and
    the outcome, the jobs, the profiles and the recorded usage are as
    before, and the trace only grows. *)
Theorem admission_checks_never_write
  (env : Collaborators) (userId youtubeId : string) (estimatedMinutes : Z)
  (options : Options.t) (w : World) :
  db (canStartTranscription env userId youtubeId estimatedMinutes options w).2
  = db w
  ∧ trace w `prefix_of`
      trace (canStartTranscription env userId youtubeId estimatedMinutes
               options w).2
  ∧ db (getTranscriptionUsageStats env userId options w).2 = db w
  ∧ trace w `prefix_of`
      trace (getTranscriptionUsageStats env userId options w).2.
Proof.
  pose proof (read_only_db _ w
    (read_only_canStartTranscription env userId youtubeId estimatedMinutes
       options)) as (? & _ & ?).
  pose proof (read_only_db _ w
    (read_only_getTranscriptionUsageStats env userId options)) as (? & _ & ?).
  done.
Qed.


(** ** More on credit decisions *)

Lemma canStartTranscription_unlimited_run
  env userId youtubeId estimatedMinutes options w :
  has_unlimited_allowance env (Options.user options) userId = true →
  canStartTranscription env userId youtubeId estimatedMinutes options w
  = (Returns (unlimited_admission estimatedMinutes),
     with_events (allowance_events env (Options.user options) userId) w).
Proof.
  intros Hu. unfold canStartTranscription.
  by rewrite bind_run, now_of_run, bind_run, unlimited_allowance_run, Hu.
Qed.

(** The decisions [canStartTranscription] can return. *)
Lemma canStartTranscription_cases
  env userId youtubeId estimatedMinutes options w d w' :
  canStartTranscription env userId youtubeId estimatedMinutes options w
  = (Returns d, w') →
  d = unlimited_admission estimatedMinutes
  ∨ (∃ subscription, d = rejection NO_SUBSCRIPTION subscription)
  ∨ (∃ subscription, d = rejection NOT_PRO (Some subscription))
  ∨ (∃ subscription job, d = existing_job_refusal subscription job)
  ∨ (∃ subscription stats,
       d = decision_on_stats subscription stats estimatedMinutes).
Proof.
  intros Hrun.
  destruct (has_unlimited_allowance env (Options.user options) userId) eqn:Hu.
  { rewrite canStartTranscription_unlimited_run in Hrun by done.
    injection Hrun as <- _. by left. }
  destruct (getUserSubscriptionStatus env userId) as [subscription|] eqn:Hs;
    [destruct (decide (tier subscription = "pro")) as [Ht|Ht]|].
  - rewrite (canStartTranscription_pro_run _ _ _ _ _ _ _ Hu Hs Ht) in Hrun.
    destruct (if call_fails w _ then _ else _) as [[job|]|];
      [injection Hrun as <- _; eauto 10|..];
      (destruct (getTranscriptionUsageStats _ _ _ _) as [[[st|]|] w2];
       [| |done]); injection Hrun as <- _; eauto 10.
  - rewrite canStartTranscription_not_pro_run, Hs in Hrun;
      [|done|intros s; rewrite Hs; by intros [= <-]].
    injection Hrun as <- _. eauto 10.
  - rewrite canStartTranscription_not_pro_run, Hs in Hrun;
      [|done|intros s; by rewrite Hs].
    injection Hrun as <- _. eauto 10.
Qed.

(** X6: every decision [canStartTranscription] returns is well formed: it
    is allowed exactly when its reason is [OK]; it names an existing job
    exactly when its reason is [EXISTING_JOB]; an admission and an
    [INSUFFICIENT_CREDITS] refusal carry [minutesNeeded = estimatedMinutes];
    it carries statistics when its reason is [INSUFFICIENT_CREDITS], and
    only when its reason is that or [OK]. *)
Theorem canStartTranscription_decision_well_formed
  (env : Collaborators) (userId youtubeId : string) (estimatedMinutes : Z)
  (options : Options.t) (w : World) (d : TranscriptionDecision.t)
  (w' : World) :
  canStartTranscription env userId youtubeId estimatedMinutes options w
  = (Returns d, w') →
  (TranscriptionDecision.allowed d = true ↔ TranscriptionDecision.reason d = OK)
  ∧ (is_Some (TranscriptionDecision.existingJobId d)
     ↔ TranscriptionDecision.reason d = EXISTING_JOB)
  ∧ (TranscriptionDecision.reason d = OK
     ∨ TranscriptionDecision.reason d = INSUFFICIENT_CREDITS →
     TranscriptionDecision.minutesNeeded d = Some estimatedMinutes)
  ∧ (TranscriptionDecision.reason d = INSUFFICIENT_CREDITS →
     is_Some (TranscriptionDecision.stats d))
  ∧ (is_Some (TranscriptionDecision.stats d) →
     TranscriptionDecision.reason d = OK
     ∨ TranscriptionDecision.reason d = INSUFFICIENT_CREDITS).
Proof.
  intros Hrun.
  assert (Hnone : ∀ A, ¬ is_Some (@None A)) by (intros A [? [=]]).
  apply canStartTranscription_cases in Hrun
    as [-> | [[s ->] | [[s ->] | [(s & job & ->) | (s & stats & ->)]]]];
    [..|unfold decision_on_stats; destruct (_ <? _)]; cbn;
    (split; [split; intros; congruence|]);
    (split; [split; [intros []%Hnone || intros; congruence
                    | intros; eauto; congruence]|]);
    (split; [intros [|]; congruence|]);
    (split; [intros; eauto; congruence|]);
    try (intros []%Hnone); eauto.
Qed.

Lemma canStartTranscription_decision_well_formed_witness :
  ∃ d,
    (canStartTranscription sample_env "pro-user" "video-2" 5 no_options
       sample_world).1 = Returns d
    ∧ TranscriptionDecision.reason d = EXISTING_JOB
    ∧ is_Some (TranscriptionDecision.existingJobId d)
    ∧ TranscriptionDecision.allowed d = false.
Proof.
  pose (d := existing_job_refusal sample_pro_subscription sample_pending_row).
  assert (Hrun :
    canStartTranscription sample_env "pro-user" "video-2" 5 no_options
      sample_world
    = (Returns d,
       (canStartTranscription sample_env "pro-user" "video-2" 5 no_options
          sample_world).2)).
  { apply injective_projections; [vm_compute; reflexivity | reflexivity]. }
  destruct (canStartTranscription_decision_well_formed sample_env "pro-user"
              "video-2" 5 no_options sample_world d _ Hrun)
    as (_ & Hjob & _).
  exists d. rewrite Hrun. split; [reflexivity|]. split; [reflexivity|].
  split; [apply Hjob; reflexivity | reflexivity].
Defined.


(** X7: a user without unlimited allowance who has no subscription, or one
    that is not pro, is refused ([NO_SUBSCRIPTION], [NOT_PRO]) whatever the
    video and the minutes asked for; the refusal is decided on the
    subscription lookup alone, before any storage call. *)
Theorem canStartTranscription_requires_pro
  (env : Collaborators) (userId youtubeId : string) (estimatedMinutes : Z)
  (options : Options.t) (w : World) :
  has_unlimited_allowance env (Options.user options) userId = false →
  (∀ subscription, getUserSubscriptionStatus env userId = Some subscription →
                   tier subscription ≠ "pro") →
  ∃ d,
    canStartTranscription env userId youtubeId estimatedMinutes options w
    = (Returns d,
       with_events (lookup_events env (Options.user options) userId) w)
    ∧ TranscriptionDecision.allowed d = false
    ∧ TranscriptionDecision.reason d
      = match getUserSubscriptionStatus env userId with
        | Some _ => NOT_PRO
        | None => NO_SUBSCRIPTION
        end
    ∧ TranscriptionDecision.subscription d
      = getUserSubscriptionStatus env userId
    ∧ TranscriptionDecision.stats d = None
    ∧ (∀ ev, ev ∈ lookup_events env (Options.user options) userId →
             is_storage_call ev = false).
Proof.
  intros Hu Hs. eexists.
  split; [by apply canStartTranscription_not_pro_run|].
  destruct (getUserSubscriptionStatus env userId); cbn;
    repeat split; apply lookup_events_no_storage.
Qed.

Lemma canStartTranscription_requires_pro_witness :
  ∃ d,
    (canStartTranscription sample_env "free-user" "video-9" 1 no_options
       sample_world).1 = Returns d
    ∧ TranscriptionDecision.reason d = NOT_PRO.
Proof.
  destruct (canStartTranscription_requires_pro sample_env "free-user"
              "video-9" 1 no_options sample_world eq_refl)
    as (d & Hrun & _ & Hreason & _).
  - intros subscription [= <-]. discriminate.
  - exists d. by rewrite Hrun.
Defined.

(** X8: a pro user who has exactly one job in flight for the video is
    refused with [EXISTING_JOB] and the id of that job, whatever the minutes
    asked for and the credit left: usage and balance are not even read. *)
Theorem canStartTranscription_existing_job
  (env : Collaborators) (userId youtubeId : string) (estimatedMinutes : Z)
  (options : Options.t) (w : World) (subscription : UserSubscription)
  (job : JobRow.t) :
  has_unlimited_allowance env (Options.user options) userId = false →
  getUserSubscriptionStatus env userId = Some subscription →
  tier subscription = "pro" →
  call_fails w (lookup_events env (Options.user options) userId) = false →
  List.filter (active_job_of userId youtubeId) (transcription_jobs (db w))
  = [job] →
  canStartTranscription env userId youtubeId estimatedMinutes options w
  = (Returns (existing_job_refusal subscription job),
     with_events (lookup_events env (Options.user options) userId
                  ++ [From "transcription_jobs" "select"]) w)
  ∧ job ∈ transcription_jobs (db w)
  ∧ JobRow.user_id job = userId
  ∧ JobRow.youtube_id job = youtubeId
  ∧ is_non_terminal (JobRow.status job) = true.
Proof.
  intros Hu Hs Ht Hanswers Hone. split.
  - rewrite (canStartTranscription_pro_run _ _ _ _ _ _ _ Hu Hs Ht).
    fold (lookup_events env (Options.user options) userId).
    by rewrite Hanswers, Hone.
  - assert (Hin : In job (List.filter (active_job_of userId youtubeId)
                            (transcription_jobs (db w))))
      by (rewrite Hone; by left).
    apply filter_In in Hin as [Hin Hactive].
    unfold active_job_of in Hactive.
    apply andb_true_iff in Hactive as [[Huser Hvideo]%andb_true_iff Hstatus].
    apply bool_decide_eq_true in Huser, Hvideo.
    by rewrite list_elem_of_In.
Qed.

Lemma canStartTranscription_existing_job_witness :
  (canStartTranscription sample_env "pro-user" "video-2" 100000 no_options
     sample_world).1
  = Returns (existing_job_refusal sample_pro_subscription sample_pending_row).
Proof.
  rewrite (proj1 (canStartTranscription_existing_job sample_env "pro-user"
                    "video-2" 100000 no_options sample_world
                    sample_pro_subscription sample_pending_row
                    eq_refl eq_refl eq_refl eq_refl eq_refl)).
  reflexivity.
Defined.

(** X9: the in-flight check recognises one job only. When the user has two
    or more jobs in flight for the video, the lookup answers an error that
    the code drops, so the decision is never [EXISTING_JOB]: it is taken on
    the credit alone. *)
Theorem canStartTranscription_duplicate_jobs_pass
  (env : Collaborators) (userId youtubeId : string) (estimatedMinutes : Z)
  (options : Options.t) (w : World) (d : TranscriptionDecision.t)
  (w' : World) :
  (2 <= length (List.filter (active_job_of userId youtubeId)
                  (transcription_jobs (db w))))%nat →
  canStartTranscription env userId youtubeId estimatedMinutes options w
  = (Returns d, w') →
  TranscriptionDecision.reason d ≠ EXISTING_JOB
  ∧ TranscriptionDecision.existingJobId d = None.
Proof.
  intros Htwo Hrun.
  destruct (has_unlimited_allowance env (Options.user options) userId) eqn:Hu.
  { rewrite canStartTranscription_unlimited_run in Hrun by done.
    by injection Hrun as <- _. }
  destruct (getUserSubscriptionStatus env userId) as [subscription|] eqn:Hs;
    [destruct (decide (tier subscription = "pro")) as [Ht|Ht]|].
  - rewrite (canStartTranscription_pro_run _ _ _ _ _ _ _ Hu Hs Ht) in Hrun.
    assert (Hnot : ∀ job,
      (if call_fails w (allowance_events env (Options.user options) userId
                        ++ [SubscriptionLookup userId])
       then Error "storage failure"
       else maybeSingle (List.filter (active_job_of userId youtubeId)
                           (transcription_jobs (db w))))
      ≠ Data (Some job)).
    { intros job. destruct (call_fails w _); [done|].
      intros Hsingle%maybeSingle_Some. rewrite Hsingle in Htwo. cbn in Htwo.
      lia. }
    destruct (if call_fails w _ then _ else _) as [[job|]|];
      [by destruct (Hnot job)|..];
      (destruct (getTranscriptionUsageStats _ _ _ _) as [[[st|]|] w2];
       [| |done]); injection Hrun as <- _; try done;
      unfold decision_on_stats; by destruct (_ <? _).
  - rewrite canStartTranscription_not_pro_run, Hs in Hrun;
      [|done|intros s; rewrite Hs; by intros [= <-]].
    by injection Hrun as <- _.
  - rewrite canStartTranscription_not_pro_run, Hs in Hrun;
      [|done|intros s; by rewrite Hs].
    by injection Hrun as <- _.
Qed.

Lemma canStartTranscription_duplicate_jobs_pass_witness :
  ∃ d,
    (canStartTranscription sample_env "pro-user" "video-2" 5 no_options
       sample_duplicate_world).1 = Returns d
    ∧ TranscriptionDecision.allowed d = true
    ∧ TranscriptionDecision.reason d ≠ EXISTING_JOB.
Proof.
  pose (d := decision_on_stats sample_pro_subscription sample_pro_stats 5).
  assert (Hrun :
    canStartTranscription sample_env "pro-user" "video-2" 5 no_options
      sample_duplicate_world
    = (Returns d,
       (canStartTranscription sample_env "pro-user" "video-2" 5 no_options
          sample_duplicate_world).2)).
  { apply injective_projections; [vm_compute; reflexivity | reflexivity]. }
  exists d. rewrite Hrun. split; [reflexivity|]. split; [reflexivity|].
  refine (proj1 (canStartTranscription_duplicate_jobs_pass sample_env
                   "pro-user" "video-2" 5 no_options sample_duplicate_world
                   d _ _ Hrun)).
  vm_compute. lia.
Defined.

(** X10: admission is monotone in the minutes asked for: in the same world,
    a request that is admitted stays admitted, on the same statistics, for
    any smaller amount. *)
Theorem canStartTranscription_monotone
  (env : Collaborators) (userId youtubeId : string)
  (estimatedMinutes fewerMinutes : Z) (options : Options.t) (w : World)
  (d : TranscriptionDecision.t) (w' : World) :
  canStartTranscription env userId youtubeId estimatedMinutes options w
  = (Returns d, w') →
  TranscriptionDecision.allowed d = true →
  fewerMinutes <= estimatedMinutes →
  ∃ d',
    canStartTranscription env userId youtubeId fewerMinutes options w
    = (Returns d', w')
    ∧ TranscriptionDecision.allowed d' = true
    ∧ TranscriptionDecision.stats d' = TranscriptionDecision.stats d.
Proof.
  intros Hrun Hallowed Hfewer.
  destruct (has_unlimited_allowance env (Options.user options) userId) eqn:Hu.
  { rewrite canStartTranscription_unlimited_run in Hrun by done.
    rewrite canStartTranscription_unlimited_run by done.
    injection Hrun as <- <-. by eexists. }
  destruct (getUserSubscriptionStatus env userId) as [subscription|] eqn:Hs;
    [destruct (decide (tier subscription = "pro")) as [Ht|Ht]|].
  - rewrite (canStartTranscription_pro_run _ _ _ _ _ _ _ Hu Hs Ht) in Hrun.
    rewrite (canStartTranscription_pro_run _ _ _ _ _ _ _ Hu Hs Ht).
    destruct (if call_fails w _ then _ else _) as [[job|]|];
      [by injection Hrun as <- _|..];
      (destruct (getTranscriptionUsageStats _ _ _ _) as [[[st|]|] w2];
       [|by injection Hrun as <- _|done]);
      injection Hrun as <- <-; unfold decision_on_stats in *;
      (destruct (totalRemaining st <? estimatedMinutes) eqn:Henough;
       [done|]); apply Z.ltb_ge in Henough;
      (replace (totalRemaining st <? fewerMinutes) with false
         by (symmetry; apply Z.ltb_ge; lia)); by eexists.
  - rewrite canStartTranscription_not_pro_run, Hs in Hrun;
      [|done|intros s; rewrite Hs; by intros [= <-]].
    by injection Hrun as <- _.
  - rewrite canStartTranscription_not_pro_run, Hs in Hrun;
      [|done|intros s; by rewrite Hs].
    by injection Hrun as <- _.
Qed.

Lemma canStartTranscription_monotone_witness :
  ∃ d',
    (canStartTranscription sample_env "pro-user" "video-9" 10 no_options
       sample_world).1 = Returns d'
    ∧ TranscriptionDecision.allowed d' = true.
Proof.
  pose (d := decision_on_stats sample_pro_subscription sample_pro_stats 50).
  assert (Hrun :
    canStartTranscription sample_env "pro-user" "video-9" 50 no_options
      sample_world
    = (Returns d,
       (canStartTranscription sample_env "pro-user" "video-9" 50 no_options
          sample_world).2)).
  { apply injective_projections; [vm_compute; reflexivity | reflexivity]. }
  destruct (canStartTranscription_monotone sample_env "pro-user" "video-9"
              50 10 no_options sample_world d _ Hrun eq_refl)
    as (d' & Hrun' & Hallowed & _).
  - lia.
  - exists d'. by rewrite Hrun'.
Defined.


(** ** Creating and finding jobs *)

Lemma createTranscriptionJob_run
  env userId youtubeId videoId durationSeconds estimatedCostCents w :
  createTranscriptionJob env userId youtubeId videoId durationSeconds
    estimatedCostCents w
  = if call_fails w [] then
      (Returns {| Created.success := false;
                  Created.jobId := None;
                  Created.error := Some "FAILED_TO_CREATE_JOB" |},
       with_events [From "transcription_jobs" "insert"] w)
    else
      let id := generated_id env (length (transcription_jobs (db w))) in
      (Returns {| Created.success := true;
                  Created.jobId := Some id;
                  Created.error := None |},
       after_call (From "transcription_jobs" "insert")
         (set_jobs
            (transcription_jobs (db w)
             ++ [created_row id userId youtubeId videoId durationSeconds
                   estimatedCostCents (clock w)]) (db w)) w).
Proof.
  unfold createTranscriptionJob, call_fails.
  rewrite bind_run, storage_call_run, app_nil_r.
  by destruct (storage_error w (length (trace w))).
Qed.

Lemma getTranscriptionJob_run jobId w :
  getTranscriptionJob jobId w
  = (Returns
       (if call_fails w [] then None
        else
          match maybeSingle
                  (List.filter (λ row, bool_decide (JobRow.id row = jobId))
                     (transcription_jobs (db w))) with
          | Data (Some row) => Some (mapDbJobToTranscriptionJob row)
          | _ => None
          end),
     with_events [From "transcription_jobs" "select"] w).
Proof.
  unfold getTranscriptionJob, call_fails.
  rewrite bind_run, storage_call_run, app_nil_r.
  destruct (storage_error w (length (trace w))); [done|].
  cbn [fst snd]. by destruct (maybeSingle _) as [[row|]|].
Qed.

Lemma filter_none {A : Type} (f : A → bool) (l : list A) :
  (∀ x, x ∈ l → f x = false) → List.filter f l = [].
Proof.
  induction l as [|x l IH]; intros Hf; [done|].
  cbn. rewrite (Hf x) by by left. apply IH. intros y Hy. apply Hf. by right.
Qed.

(** X11: creating a job and reading it back. When the storage answers and
    the identifier it generates is not yet taken, [createTranscriptionJob]
    appends exactly one row, leaving the others as they are, and
    [getTranscriptionJob] on the returned id finds the job as created:
    [pending], progress 0, no transcript, no error, one chunk in total and
    none completed, with the user, the video, the duration and the cost
    given. *)
Theorem createTranscriptionJob_then_getTranscriptionJob
  (env : Collaborators) (userId youtubeId : string) (videoId : option string)
  (durationSeconds estimatedCostCents : option Z) (w : World) :
  (∀ n, storage_error w n = false) →
  (∀ row, row ∈ transcription_jobs (db w) →
          JobRow.id row ≠ generated_id env (length (transcription_jobs (db w)))) →
  ∃ id row w1 job w2,
    createTranscriptionJob env userId youtubeId videoId durationSeconds
      estimatedCostCents w
    = (Returns {| Created.success := true;
                  Created.jobId := Some id;
                  Created.error := None |}, w1)
    ∧ transcription_jobs (db w1) = (transcription_jobs (db w) ++ [row])%list
    ∧ getTranscriptionJob id w1 = (Returns (Some job), w2)
    ∧ job = mapDbJobToTranscriptionJob row
    ∧ Job.id job = id
    ∧ Job.status job = pending
    ∧ Job.progress job = 0
    ∧ Job.userId job = userId
    ∧ Job.youtubeId job = youtubeId
    ∧ Job.videoId job = videoId
    ∧ Job.durationSeconds job = durationSeconds
    ∧ Job.estimatedCostCents job = estimatedCostCents
    ∧ Job.transcriptData job = None
    ∧ Job.errorMessage job = None
    ∧ Job.totalChunks job = 1
    ∧ Job.completedChunks job = 0
    ∧ Job.createdAt job = clock w.
Proof.
  intros Hhealthy Hfresh.
  rewrite createTranscriptionJob_run. unfold call_fails. rewrite Hhealthy.
  cbv zeta.
  set (id := generated_id env (length (transcription_jobs (db w)))) in *.
  set (row := created_row id userId youtubeId videoId durationSeconds
                estimatedCostCents (clock w)).
  eexists id, row, _, (mapDbJobToTranscriptionJob row), _.
  split; [done|]. split; [done|]. split; [|by repeat split].
  rewrite getTranscriptionJob_run. unfold call_fails.
  cbn [after_call with_db with_events storage_error trace db set_jobs
         transcription_jobs].
  rewrite Hhealthy, List.filter_app, filter_none.
  - cbn. by rewrite bool_decide_eq_true_2.
  - intros r Hr. apply bool_decide_eq_false. by apply Hfresh.
Qed.

Lemma createTranscriptionJob_then_getTranscriptionJob_witness :
  ∃ job,
    (getTranscriptionJob "job-new"
       (createTranscriptionJob sample_env "pro-user" "video-9" None (Some 90)
          (Some 1) sample_world).2).1 = Returns (Some job)
    ∧ Job.status job = pending
    ∧ Job.progress job = 0.
Proof.
  destruct (createTranscriptionJob_then_getTranscriptionJob sample_env
              "pro-user" "video-9" None (Some 90) (Some 1) sample_world)
    as (id & row & w1 & job & w2 & Hcreate & _ & Hget & _ & Hid & Hstatus
        & Hprogress & _).
  - reflexivity.
  - intros row Hrow.
    repeat (apply elem_of_cons in Hrow as [-> | Hrow]; [discriminate|]).
    by apply elem_of_nil in Hrow.
  - exists job. rewrite Hcreate. cbn [snd].
    assert (id = "job-new") as <-.
    { revert Hcreate. vm_compute. by intros [= <- _]. }
    by rewrite Hget.
Defined.


(** X12: one job per user and video. After [createTranscriptionJob] has
    created a job for a pro user who had none in flight for the video, a
    further [canStartTranscription] of that user for that video is refused
    with [EXISTING_JOB] and the id of the job just created, whatever the
    minutes asked for. *)
Theorem createTranscriptionJob_blocks_second_start
  (env : Collaborators) (userId youtubeId : string) (videoId : option string)
  (durationSeconds estimatedCostCents : option Z) (estimatedMinutes : Z)
  (options : Options.t) (w : World) (subscription : UserSubscription) :
  has_unlimited_allowance env (Options.user options) userId = false →
  getUserSubscriptionStatus env userId = Some subscription →
  tier subscription = "pro" →
  (∀ n, storage_error w n = false) →
  List.filter (active_job_of userId youtubeId) (transcription_jobs (db w))
  = [] →
  ∃ id w1 d w2,
    createTranscriptionJob env userId youtubeId videoId durationSeconds
      estimatedCostCents w
    = (Returns {| Created.success := true;
                  Created.jobId := Some id;
                  Created.error := None |}, w1)
    ∧ canStartTranscription env userId youtubeId estimatedMinutes options w1
      = (Returns d, w2)
    ∧ TranscriptionDecision.allowed d = false
    ∧ TranscriptionDecision.reason d = EXISTING_JOB
    ∧ TranscriptionDecision.existingJobId d = Some id.
Proof.
  intros Hu Hs Ht Hhealthy Hnone.
  rewrite createTranscriptionJob_run. unfold call_fails. rewrite Hhealthy.
  cbv zeta. eexists _, _, _, _. split; [done|].
  rewrite (canStartTranscription_pro_run _ _ _ _ _ _ _ Hu Hs Ht).
  unfold call_fails.
  cbn [after_call with_db with_events storage_error trace db set_jobs
         transcription_jobs].
  rewrite Hhealthy, List.filter_app, Hnone. cbn [app List.filter].
  unfold active_job_of at 1. cbn [created_row JobRow.user_id JobRow.youtube_id
                                   JobRow.status].
  rewrite !bool_decide_eq_true_2 by done.
  replace (is_non_terminal pending) with true by (by vm_compute).
  cbn [andb maybeSingle]. by repeat split.
Qed.

Lemma createTranscriptionJob_blocks_second_start_witness :
  ∃ d,
    (canStartTranscription sample_env "pro-user" "video-9" 1 no_options
       (createTranscriptionJob sample_env "pro-user" "video-9" None (Some 90)
          (Some 1) sample_world).2).1 = Returns d
    ∧ TranscriptionDecision.reason d = EXISTING_JOB
    ∧ TranscriptionDecision.existingJobId d = Some "job-new".
Proof.
  destruct (createTranscriptionJob_blocks_second_start sample_env "pro-user"
              "video-9" None (Some 90) (Some 1) 1 no_options sample_world
              sample_pro_subscription eq_refl eq_refl eq_refl
              (λ _, eq_refl) eq_refl)
    as (id & w1 & d & w2 & Hcreate & Hstart & _ & Hreason & Hid).
  exists d. rewrite Hcreate. cbn [snd]. rewrite Hstart. cbn [fst].
  split; [reflexivity|]. split; [exact Hreason|].
  rewrite Hid. f_equal.
  revert Hcreate. vm_compute. by intros [= <- _].
Defined.

Lemma key_before_irrefl (a : option Date) : key_before a a = false.
Proof. destruct a; cbn; [apply Z.ltb_irrefl|done]. Qed.

Lemma key_before_replaced (r b row : option Date) :
  key_before r b = true → key_before r row = false →
  key_before b row = false.
Proof.
  destruct r as [x|], b as [y|], row as [z|]; cbn; try done.
  intros H1%Z.ltb_lt H2%Z.ltb_ge. apply Z.ltb_ge. lia.
Qed.

Lemma key_before_kept (r b row : option Date) :
  key_before r b = false → key_before b row = false →
  key_before r row = false.
Proof.
  destruct r as [x|], b as [y|], row as [z|]; cbn; try done.
  intros H1%Z.ltb_ge H2%Z.ltb_ge. apply Z.ltb_ge. lia.
Qed.

Lemma order_desc_limit_1_fold_greatest (key : JobRow.t → option Date) rows best
    row :
  fold_left
    (λ best row,
       match best with
       | None => Some row
       | Some b => if key_before (key row) (key b) then Some row else Some b
       end) rows best = Some row →
  (∀ b, best = Some b → key_before (key b) (key row) = false)
  ∧ (∀ r, r ∈ rows → key_before (key r) (key row) = false).
Proof.
  revert best. induction rows as [|r rows IH]; intros best Hfold.
  { cbn in Hfold. subst best. split.
    - intros b [= ->]. apply key_before_irrefl.
    - by intros r Hr%elem_of_nil. }
  cbn [fold_left] in Hfold. apply IH in Hfold as [Hbest Hrows].
  destruct best as [b|]; [destruct (key_before (key r) (key b)) eqn:Hrb|].
  - pose proof (Hbest r eq_refl) as Hr. split.
    + intros b' [= <-]. by apply (key_before_replaced (key r)).
    + intros r' [-> | Hr']%elem_of_cons; [done|by apply Hrows].
  - pose proof (Hbest b eq_refl) as Hb. split.
    + by intros b' [= <-].
    + intros r' [-> | Hr']%elem_of_cons; [|by apply Hrows].
      by apply (key_before_kept _ (key b)).
  - pose proof (Hbest r eq_refl) as Hr. split; [done|].
    intros r' [-> | Hr']%elem_of_cons; [done|by apply Hrows].
Qed.

Lemma order_desc_limit_1_greatest (key : JobRow.t → option Date) rows row :
  order_desc_limit_1 key rows = [row] →
  ∀ r, r ∈ rows → key_before (key r) (key row) = false.
Proof.
  unfold order_desc_limit_1. intros Hone.
  destruct (fold_left _ rows None) as [best|] eqn:Hfold; [|done].
  injection Hone as ->.
  by apply order_desc_limit_1_fold_greatest in Hfold as [_ ?].
Qed.

Lemma order_desc_limit_1_fold_Some (key : JobRow.t → option Date) rows b :
  is_Some (fold_left
    (λ best row,
       match best with
       | None => Some row
       | Some b => if key_before (key row) (key b) then Some row else Some b
       end) rows (Some b)).
Proof.
  revert b. induction rows as [|r rows IH]; intros b; [by eexists|].
  cbn [fold_left]. destruct (key_before (key r) (key b)); apply IH.
Qed.

Lemma order_desc_limit_1_nonempty (key : JobRow.t → option Date) rows :
  rows ≠ [] → ∃ row, order_desc_limit_1 key rows = [row].
Proof.
  destruct rows as [|r rows]; [done|]. intros _. unfold order_desc_limit_1.
  cbn [fold_left].
  destruct (order_desc_limit_1_fold_Some key rows r) as [row ->].
  by exists row.
Qed.

Lemma getActiveTranscriptionJob_run userId youtubeId w :
  getActiveTranscriptionJob userId youtubeId w
  = (Returns
       (if call_fails w [] then None
        else
          match maybeSingle (latest_active userId youtubeId
                               (transcription_jobs (db w))) with
          | Data (Some row) => Some (mapDbJobToTranscriptionJob row)
          | _ => None
          end),
     with_events [From "transcription_jobs" "select"] w).
Proof.
  unfold getActiveTranscriptionJob, call_fails.
  rewrite bind_run, storage_call_run, app_nil_r.
  destruct (storage_error w (length (trace w))); [done|].
  cbn [fst snd].
  change (maybeSingle _) with
    (maybeSingle (latest_active userId youtubeId (transcription_jobs (db w)))).
  by destruct (maybeSingle _) as [[row|]|].
Qed.

Lemma latest_active_elem userId youtubeId rows row :
  latest_active userId youtubeId rows = [row] →
  row ∈ rows
  ∧ JobRow.user_id row = userId
  ∧ JobRow.youtube_id row = youtubeId
  ∧ is_non_terminal (JobRow.status row) = true
  ∧ (∀ other, other ∈ rows → active_job_of userId youtubeId other = true →
              JobRow.created_at other <= JobRow.created_at row).
Proof.
  unfold latest_active. intros Hpick.
  pose proof (order_desc_limit_1_greatest _ _ _ Hpick) as Hgreatest.
  apply order_desc_limit_1_elem, list_elem_of_In, filter_In in Hpick
    as [Hin Hactive].
  unfold active_job_of in Hactive.
  apply andb_true_iff in Hactive as [[Huser Hvideo]%andb_true_iff Hstatus].
  apply bool_decide_eq_true in Huser, Hvideo.
  repeat split; try done; [by rewrite list_elem_of_In|].
  intros other Hother Hact.
  specialize (Hgreatest other). cbn in Hgreatest.
  apply Z.ltb_ge, Hgreatest, list_elem_of_In, filter_In.
  by rewrite <- list_elem_of_In.
Qed.

(** X13: [getActiveTranscriptionJob], when the storage answers, returns
    nothing exactly when the user has no job in flight for the video, and
    otherwise a job of that user for that video whose status is [pending],
    [downloading] or [transcribing] and which no other such job was created
    after. It writes nothing. *)
Theorem getActiveTranscriptionJob_most_recent
  (userId youtubeId : string) (w : World) :
  call_fails w [] = false →
  ∃ answer,
    getActiveTranscriptionJob userId youtubeId w
    = (Returns answer, with_events [From "transcription_jobs" "select"] w)
    ∧ (answer = None
       ↔ List.filter (active_job_of userId youtubeId)
           (transcription_jobs (db w)) = [])
    ∧ (∀ job, answer = Some job →
         ∃ row,
           job = mapDbJobToTranscriptionJob row
           ∧ row ∈ transcription_jobs (db w)
           ∧ Job.userId job = userId
           ∧ Job.youtubeId job = youtubeId
           ∧ is_non_terminal (Job.status job) = true
           ∧ (∀ other, other ∈ transcription_jobs (db w) →
                active_job_of userId youtubeId other = true →
                JobRow.created_at other <= Job.createdAt job)).
Proof.
  intros Hanswers. rewrite getActiveTranscriptionJob_run, Hanswers.
  eexists. split; [done|].
  destruct (List.filter (active_job_of userId youtubeId)
              (transcription_jobs (db w))) as [|r rows] eqn:Hfilter.
  - unfold latest_active. rewrite Hfilter. cbn. by split.
  - destruct (order_desc_limit_1_nonempty (λ row, Some (JobRow.created_at row))
                (r :: rows)) as [row Hpick]; [done|].
    assert (Hlatest : latest_active userId youtubeId
                        (transcription_jobs (db w)) = [row])
      by (unfold latest_active; by rewrite Hfilter).
    rewrite Hlatest. cbn [maybeSingle]. split; [by split|].
    intros job [= <-]. exists row.
    apply latest_active_elem in Hlatest as (? & ? & ? & ? & ?).
    by repeat split.
Qed.

Lemma getActiveTranscriptionJob_most_recent_witness :
  (getActiveTranscriptionJob "pro-user" "video-2" sample_duplicate_world).1
  = Returns (Some (mapDbJobToTranscriptionJob sample_duplicate_row))
  ∧ JobRow.created_at sample_pending_row <= JobRow.created_at sample_duplicate_row.
Proof.
  destruct (getActiveTranscriptionJob_most_recent "pro-user" "video-2"
              sample_duplicate_world eq_refl)
    as (answer & Hrun & _ & Hjob).
  assert (Hanswer :
    answer = Some (mapDbJobToTranscriptionJob sample_duplicate_row)).
  { revert Hrun. vm_compute. by intros [= <-]. }
  rewrite Hrun. split; [by rewrite Hanswer|].
  destruct (Hjob _ Hanswer) as (row & _ & _ & _ & _ & _ & Hlatest).
  apply (Hlatest sample_pending_row); [|reflexivity].
  apply elem_of_cons. right. by left.
Defined.


(** ** More on updates and cancellation *)

Lemma update_job_rows_unknown jobId updates rows :
  (∀ row, row ∈ rows → JobRow.id row ≠ jobId) →
  update_job_rows jobId updates rows = rows.
Proof.
  unfold update_job_rows. induction rows as [|row rows IH]; intros Hid; [done|].
  cbn [map]. rewrite bool_decide_eq_false_2 by (apply Hid; by left).
  rewrite IH; [done|]. intros r Hr. apply Hid. by right.
Qed.

Lemma updated_row_empty row : updated_row empty_update row = row.
Proof. by destruct row. Qed.

Lemma update_job_rows_empty jobId rows :
  update_job_rows jobId empty_update rows = rows.
Proof.
  unfold update_job_rows. induction rows as [|row rows IH]; [done|].
  cbn [map]. rewrite IH, updated_row_empty. by case_bool_decide.
Qed.

Lemma set_jobs_same d : set_jobs (transcription_jobs d) d = d.
Proof. by destruct d. Qed.

(** X14: an update that has nothing to write still reports success. When
    its dates serialise and the storage answers,
    [updateTranscriptionJobStatus] returns [{success: true}] and leaves the
    storage exactly as it was, both for a job id that no row has and for an
    update that supplies no field; the storage is called all the same. *)
Theorem updateTranscriptionJobStatus_nothing_to_write
  (jobId : string) (updates : Updates.t) (w : World) :
  dates_serialise updates = true →
  call_fails w [] = false →
  (∀ row, row ∈ transcription_jobs (db w) → JobRow.id row ≠ jobId)
  ∨ updates = empty_update →
  updateTranscriptionJobStatus jobId updates w
  = (Returns {| success := true; error := None |},
     with_events [From "transcription_jobs" "update"] w).
Proof.
  intros Hdates Hanswers Hnothing.
  rewrite updateTranscriptionJobStatus_run, Hdates.
  unfold call_fails in Hanswers. rewrite app_nil_r in Hanswers.
  rewrite Hanswers. f_equal.
  destruct Hnothing as [Hunknown | ->].
  - rewrite update_job_rows_unknown, set_jobs_same by done. by destruct w.
  - rewrite update_job_rows_empty, set_jobs_same. by destruct w.
Qed.

Lemma updateTranscriptionJobStatus_nothing_to_write_witness :
  updateTranscriptionJobStatus "no-such-job" sample_progress_update
    sample_world
  = (Returns {| success := true; error := None |},
     with_events [From "transcription_jobs" "update"] sample_world).
Proof.
  apply updateTranscriptionJobStatus_nothing_to_write;
    [reflexivity | reflexivity | left].
  intros row Hrow.
  repeat (apply elem_of_cons in Hrow as [-> | Hrow]; [discriminate|]).
  by apply elem_of_nil in Hrow.
Defined.

Lemma updated_row_commute u1 u2 row :
  disjoint_updates u1 u2 →
  updated_row u2 (updated_row u1 row) = updated_row u1 (updated_row u2 row).
Proof.
  intros (H1 & H2 & H3 & H4 & H5 & H6 & H7 & H8).
  unfold updated_row. cbn.
  destruct H1 as [-> | ->], H2 as [-> | ->], H3 as [-> | ->],
    H4 as [-> | ->], H5 as [-> | ->], H6 as [-> | ->], H7 as [-> | ->],
    H8 as [-> | ->]; cbn; f_equal;
    by repeat match goal with
              | |- context [default _ ?f] => destruct f
              | |- context [supplied ?f _] => destruct f
              end.
Qed.

Lemma update_job_rows_commute jobId u1 u2 rows :
  disjoint_updates u1 u2 →
  update_job_rows jobId u2 (update_job_rows jobId u1 rows)
  = update_job_rows jobId u1 (update_job_rows jobId u2 rows).
Proof.
  intros Hdisjoint. unfold update_job_rows. rewrite !map_map.
  apply map_ext. intros row.
  destruct (bool_decide (JobRow.id row = jobId)) eqn:Hid; [|by rewrite !Hid].
  cbn [updated_row JobRow.id]. rewrite !Hid. by apply updated_row_commute.
Qed.

(** X15: updates that supply different fields do not clobber each other.
    For two updates of the same job with no field in common, when the
    storage answers, both orders of application succeed and leave the same
    table, in which the job has the fields of both. *)
Theorem updateTranscriptionJobStatus_disjoint_commute
  (jobId : string) (u1 u2 : Updates.t) (w : World) :
  disjoint_updates u1 u2 →
  dates_serialise u1 = true →
  dates_serialise u2 = true →
  (∀ n, storage_error w n = false) →
  let run a b :=
    updateTranscriptionJobStatus jobId b
      (updateTranscriptionJobStatus jobId a w).2 in
  (run u1 u2).1 = Returns {| success := true; error := None |}
  ∧ (run u2 u1).1 = Returns {| success := true; error := None |}
  ∧ transcription_jobs (db (run u1 u2).2)
    = transcription_jobs (db (run u2 u1).2)
  ∧ (∀ (i : nat) (row : JobRow.t),
       transcription_jobs (db w) !! i = Some row →
       JobRow.id row = jobId →
       ∃ row',
         transcription_jobs (db (run u1 u2).2) !! i = Some row'
         ∧ supplied_columns_written u1 row'
         ∧ supplied_columns_written u2 row').
Proof.
  intros Hdisjoint Hd1 Hd2 Hhealthy run. subst run. cbv beta.
  rewrite !updateTranscriptionJobStatus_run, Hd1, Hd2, !Hhealthy.
  cbn [fst snd with_db with_events db storage_error trace set_jobs
         transcription_jobs].
  rewrite !Hhealthy. cbn [fst snd with_db db set_jobs transcription_jobs].
  split; [done|]. split; [done|].
  split; [by apply update_job_rows_commute|].
  intros i row Hrow Hid.
  rewrite update_job_rows_commute by done.
  unfold update_job_rows at 1. rewrite list_lookup_fmap.
  unfold update_job_rows. rewrite list_lookup_fmap, Hrow.
  cbn [fmap option_fmap option_map].
  rewrite !(bool_decide_eq_true_2 (JobRow.id row = jobId)) by done.
  eexists. split; [done|]. split; [apply updated_row_written|].
  rewrite <- updated_row_commute by done. apply updated_row_written.
Qed.

Lemma updateTranscriptionJobStatus_disjoint_commute_witness :
  transcription_jobs
    (db (updateTranscriptionJobStatus "job-run" sample_stage_update
           (updateTranscriptionJobStatus "job-run" sample_progress_update
              sample_world).2).2)
  = transcription_jobs
      (db (updateTranscriptionJobStatus "job-run" sample_progress_update
             (updateTranscriptionJobStatus "job-run" sample_stage_update
                sample_world).2).2).
Proof.
  refine (proj1 (proj2 (proj2
    (updateTranscriptionJobStatus_disjoint_commute "job-run"
       sample_progress_update sample_stage_update sample_world _ eq_refl
       eq_refl (λ _, eq_refl))))).
  unfold disjoint_updates. cbn. repeat split; eauto.
Defined.

(** X16: an update carrying a date that does not serialise is lost as a
    whole. [updateTranscriptionJobStatus] throws a [RangeError] instead of
    returning a failure, before calling the storage: none of the other
    fields supplied is written and the world is unchanged. *)
Theorem updateTranscriptionJobStatus_invalid_date_throws
  (jobId : string) (updates : Updates.t) (w : World) :
  dates_serialise updates = false →
  updateTranscriptionJobStatus jobId updates w
  = (Throws "RangeError: Invalid time value", w).
Proof.
  intros Hdates. by rewrite updateTranscriptionJobStatus_run, Hdates.
Qed.

Lemma updateTranscriptionJobStatus_invalid_date_throws_witness :
  updateTranscriptionJobStatus "job-run" sample_invalid_date_update
    sample_world
  = (Throws "RangeError: Invalid time value", sample_world).
Proof.
  apply updateTranscriptionJobStatus_invalid_date_throws. reflexivity.
Defined.


Lemma cancel_rows_terminal jobId rows row :
  row ∈ cancel_rows jobId rows → JobRow.id row = jobId →
  is_non_terminal (JobRow.status row) = false.
Proof.
  unfold cancel_rows. intros (r & -> & Hr)%list_elem_of_fmap Hid.
  destruct (cancellable jobId r) eqn:Hc; [done|].
  unfold cancellable in Hc. cbn in Hid.
  by rewrite bool_decide_eq_true_2 in Hc by done.
Qed.

Lemma cancel_rows_unknown jobId rows :
  (∀ row, row ∈ rows → cancellable jobId row = false) →
  cancel_rows jobId rows = rows.
Proof.
  unfold cancel_rows. induction rows as [|row rows IH]; intros Hc; [done|].
  cbn [map]. rewrite (Hc row) by by left.
  rewrite IH; [done|]. intros r Hr. apply Hc. by right.
Qed.

Lemma cancel_rows_idempotent jobId rows :
  cancel_rows jobId (cancel_rows jobId rows) = cancel_rows jobId rows.
Proof.
  apply cancel_rows_unknown. intros row Hrow. unfold cancellable.
  destruct (bool_decide (JobRow.id row = jobId)) eqn:Hid; [|done].
  apply bool_decide_eq_true in Hid.
  by rewrite (cancel_rows_terminal _ _ _ Hrow Hid).
Qed.

(** X17: cancelling is idempotent and final. After a cancellation whose
    update the storage answered, no row with the job's id is still in
    flight, and cancelling the same job again, whatever the storage does,
    changes no row; cancelling an id that no row has changes no row
    either. *)
Theorem cancelTranscriptionJob_idempotent (jobId : string) (w : World) :
  call_fails w [] = false →
  let w1 := (cancelTranscriptionJob jobId w).2 in
  let w2 := (cancelTranscriptionJob jobId w1).2 in
  (∀ row, row ∈ transcription_jobs (db w1) → JobRow.id row = jobId →
          is_non_terminal (JobRow.status row) = false)
  ∧ transcription_jobs (db w2) = transcription_jobs (db w1)
  ∧ ((∀ row, row ∈ transcription_jobs (db w) → JobRow.id row ≠ jobId) →
     transcription_jobs (db w1) = transcription_jobs (db w)).
Proof.
  intros Hanswers w1 w2.
  unfold call_fails in Hanswers. rewrite app_nil_r in Hanswers.
  destruct (cancelTranscriptionJob_run jobId w) as (w1' & Hrun1 & Hjobs1 & _).
  destruct (cancelTranscriptionJob_run jobId w1) as (w2' & Hrun2 & Hjobs2 & _).
  assert (w1' = w1) as -> by (subst w1; by rewrite Hrun1).
  assert (w2' = w2) as -> by (subst w2; by rewrite Hrun2).
  rewrite Hanswers in Hjobs1. rewrite Hjobs2, Hjobs1.
  split; [intros row; apply cancel_rows_terminal|].
  split.
  - destruct (storage_error w1 _); [done|apply cancel_rows_idempotent].
  - intros Hunknown. apply cancel_rows_unknown. intros row Hrow.
    unfold cancellable. by rewrite bool_decide_eq_false_2 by by apply Hunknown.
Qed.

Lemma cancelTranscriptionJob_idempotent_witness :
  transcription_jobs
    (db (cancelTranscriptionJob "job-run"
           (cancelTranscriptionJob "job-run" sample_world).2).2)
  = [sample_completed_row; cancelled_row sample_pending_row].
Proof.
  rewrite (proj1 (proj2 (cancelTranscriptionJob_idempotent "job-run"
                           sample_world eq_refl))).
  vm_compute. reflexivity.
Defined.

(** X18: a storage failure is reported, not thrown, and nothing is written.
    When the storage fails the call, [createTranscriptionJob] returns
    [FAILED_TO_CREATE_JOB], [updateTranscriptionJobStatus] (with dates that
    serialise) [FAILED_TO_UPDATE_JOB], [cancelTranscriptionJob]
    [FAILED_TO_CANCEL] without attempting the refund, and
    [refundTranscriptionMinutes] [REFUND_FAILED]; each has made that one
    call and left the storage as it was. *)
Theorem lifecycle_storage_failure_reported
  (env : Collaborators) (userId youtubeId jobId : string)
  (videoId : option string) (durationSeconds estimatedCostCents : option Z)
  (updates : Updates.t) (w : World) :
  call_fails w [] = true →
  createTranscriptionJob env userId youtubeId videoId durationSeconds
    estimatedCostCents w
  = (Returns {| Created.success := false;
                Created.jobId := None;
                Created.error := Some "FAILED_TO_CREATE_JOB" |},
     with_events [From "transcription_jobs" "insert"] w)
  ∧ (dates_serialise updates = true →
     updateTranscriptionJobStatus jobId updates w
     = (Returns {| success := false; error := Some "FAILED_TO_UPDATE_JOB" |},
        with_events [From "transcription_jobs" "update"] w))
  ∧ cancelTranscriptionJob jobId w
    = (Returns {| success := false; error := Some "FAILED_TO_CANCEL" |},
       with_events [From "transcription_jobs" "update"] w)
  ∧ refundTranscriptionMinutes jobId w
    = (Returns {| Refunded.success := false;
                  Refunded.minutesRefunded := None;
                  Refunded.error := Some "REFUND_FAILED" |},
       with_events [Rpc "refund_transcription_minutes" jobId] w).
Proof.
  intros Hfails. split; [|split; [|split]].
  - by rewrite createTranscriptionJob_run, Hfails.
  - intros Hdates. rewrite updateTranscriptionJobStatus_run, Hdates.
    unfold call_fails in Hfails. rewrite app_nil_r in Hfails.
    by rewrite Hfails.
  - unfold call_fails in Hfails. rewrite app_nil_r in Hfails.
    unfold cancelTranscriptionJob, update_jobs.
    by rewrite bind_run, storage_call_run, Hfails.
  - unfold call_fails in Hfails. rewrite app_nil_r in Hfails.
    unfold refundTranscriptionMinutes.
    by rewrite bind_run, storage_call_run, Hfails.
Qed.

Lemma lifecycle_storage_failure_reported_witness :
  cancelTranscriptionJob "job-run" sample_failing_world
  = (Returns {| success := false; error := Some "FAILED_TO_CANCEL" |},
     with_events [From "transcription_jobs" "update"] sample_failing_world).
Proof.
  exact (proj1 (proj2 (proj2
    (lifecycle_storage_failure_reported sample_env "pro-user" "video-9"
       "job-run" None None None empty_update sample_failing_world eq_refl)))).
Defined.

(** X19: for a pro user without unlimited allowance,
    [consumeTranscriptionMinutes] makes exactly one storage call, the
    consumption procedure, after its lookups; when the period dates do not
    serialise it throws before that call, and when the call fails it
    returns [CONSUMPTION_FAILED]; in both cases nothing is recorded. *)
Theorem consumeTranscriptionMinutes_failure_modes
  (env : Collaborators) (userId jobId : string) (minutes : Z)
  (options : Options.t) (w : World) (subscription : UserSubscription) :
  has_unlimited_allowance env (Options.user options) userId = false →
  getUserSubscriptionStatus env userId = Some subscription →
  tier subscription = "pro" →
  let period := resolveBillingPeriod subscription (moment options w) in
  let lookups := lookup_events env (Options.user options) userId in
  let call := Rpc "consume_transcription_minutes_atomically" jobId in
  (valid_time (start period) && valid_time (end_ period) = false →
   consumeTranscriptionMinutes env userId jobId minutes options w
   = (Throws "RangeError: Invalid time value", with_events lookups w))
  ∧ (valid_time (start period) && valid_time (end_ period) = true →
     call_fails w lookups = true →
     consumeTranscriptionMinutes env userId jobId minutes options w
     = (Returns (consumption_failure "CONSUMPTION_FAILED"),
        with_events (lookups ++ [call]) w))
  ∧ (valid_time (start period) && valid_time (end_ period) = true →
     trace (consumeTranscriptionMinutes env userId jobId minutes options w).2
     = (trace w ++ lookups ++ [call])%list).
Proof.
  intros Hu Hs Ht period lookups call.
  rewrite (consumeTranscriptionMinutes_pro_run _ _ _ _ _ _ _ Hu Hs Ht).
  fold period. fold (lookup_events env (Options.user options) userId).
  fold lookups. fold call. unfold call_fails.
  cbn [with_events trace].
  split; [|split].
  - by intros ->.
  - intros -> ->. by rewrite with_events_app.
  - intros ->. destruct (storage_error w _); cbn; by rewrite <- app_assoc.
Qed.

Lemma consumeTranscriptionMinutes_failure_modes_witness :
  consumeTranscriptionMinutes sample_env "pro-user" "job-7" 25 no_options
    sample_failing_world
  = (Returns (consumption_failure "CONSUMPTION_FAILED"),
     with_events
       [UnlimitedCheckById "pro-user"; SubscriptionLookup "pro-user";
        Rpc "consume_transcription_minutes_atomically" "job-7"]
       sample_failing_world).
Proof.
  exact (proj1 (proj2
    (consumeTranscriptionMinutes_failure_modes sample_env "pro-user" "job-7"
       25 no_options sample_failing_world sample_pro_subscription
       eq_refl eq_refl eq_refl)) eq_refl eq_refl).
Defined.


(** ** The route handler, further *)

Lemma lookup_only_ret {A : Type} (a : A) : lookup_only (mret a : Task A).
Proof.
  intros w. exists []. split; [|done]. unfold with_events. destruct w; cbn.
  by rewrite app_nil_r.
Qed.

Lemma lookup_only_throw {A : Type} err : lookup_only (throw err : Task A).
Proof.
  intros w. exists []. split; [|done]. unfold with_events. destruct w; cbn.
  by rewrite app_nil_r.
Qed.

Lemma lookup_only_emit ev : is_fetch ev = false → lookup_only (emit ev).
Proof. intros Hev w. exists [ev]. split; [done|]. by constructor. Qed.

Lemma lookup_only_bind {A B : Type} (m : Task A) (k : A → Task B) :
  lookup_only m → (∀ a, lookup_only (k a)) → lookup_only (m ≫= k).
Proof.
  intros Hm Hk w. rewrite bind_run.
  destruct (Hm w) as (evs & Hevs & Hquiet). destruct (m w) as [[a|err] w1].
  - cbn in Hevs. subst w1.
    destruct (Hk a (with_events evs w)) as (evs' & Hevs' & Hquiet').
    exists (evs ++ evs')%list. rewrite Hevs', with_events_app.
    split; [done|]. by apply Forall_app.
  - by exists evs.
Qed.

Lemma lookup_only_new_Date : lookup_only new_Date.
Proof.
  intros w. exists []. split; [|done]. unfold with_events. destruct w; cbn.
  by rewrite app_nil_r.
Qed.

Lemma lookup_only_toISOString date : lookup_only (toISOString date).
Proof.
  unfold toISOString. destruct (valid_time date);
    [apply lookup_only_ret | apply lookup_only_throw].
Qed.

Lemma lookup_only_now_of options : lookup_only (now_of options).
Proof.
  unfold now_of. destruct (Options.now options);
    [apply lookup_only_ret | apply lookup_only_new_Date].
Qed.

Lemma lookup_only_storage_call {A : Type} ev
    (statement : Date → Database → Response A * Database) :
  is_fetch ev = false →
  (∀ now d, (statement now d).2 = d) →
  lookup_only (storage_call ev statement).
Proof.
  intros Hev Hread w. exists [ev]. rewrite storage_call_run.
  split; [|by constructor].
  destruct (storage_error w (length (trace w))); [done|].
  cbn [snd]. by rewrite Hread.
Qed.

Create HintDb lookup_only.

#[global] Hint Resolve lookup_only_ret lookup_only_throw lookup_only_new_Date
  lookup_only_toISOString lookup_only_now_of : lookup_only.

Ltac lookup_only_step :=
  lazymatch goal with
  | |- lookup_only (mbind _ _) => apply lookup_only_bind; [|intros ?]
  | |- lookup_only (storage_call _ _) =>
      apply lookup_only_storage_call; by intros
  | |- lookup_only (emit _) => by apply lookup_only_emit
  | |- lookup_only (match ?x with _ => _ end) => destruct x
  | |- lookup_only (let _ := _ in _) => cbv zeta
  | |- _ => solve [eauto with lookup_only]
  end.

Ltac lookup_only_solve := repeat lookup_only_step.

Lemma lookup_only_unlimited_allowance env user userId :
  lookup_only (unlimited_allowance env user userId).
Proof. unfold unlimited_allowance. lookup_only_solve. Qed.

Lemma lookup_only_subscription_status env userId :
  lookup_only (subscription_status env userId).
Proof. unfold subscription_status. lookup_only_solve. Qed.

#[global] Hint Resolve lookup_only_unlimited_allowance
  lookup_only_subscription_status : lookup_only.

Lemma lookup_only_getTranscriptionUsageStats env userId options :
  lookup_only (getTranscriptionUsageStats env userId options).
Proof. unfold getTranscriptionUsageStats. lookup_only_solve. Qed.

#[global] Hint Resolve lookup_only_getTranscriptionUsageStats : lookup_only.

Lemma lookup_only_canStartTranscription env userId youtubeId minutes options :
  lookup_only (canStartTranscription env userId youtubeId minutes options).
Proof. unfold canStartTranscription. lookup_only_solve. Qed.

Lemma filter_is_fetch_nil evs :
  Forall (λ ev, is_fetch ev = false) evs → List.filter is_fetch evs = [].
Proof.
  induction 1 as [|ev evs Hev _ IH]; [done|]. cbn. by rewrite Hev.
Qed.

(** X20: the handler answers every request, it never throws, and it writes
    at most one job. Unless the answer is the start of a job, the storage is
    left as it was and the background worker is not triggered; when it is,
    exactly one pending row of the session user has been appended to the
    jobs, the answer carries its id, and the worker has been triggered once,
    for that id. Balances and usage records are never touched. *)
Theorem handler_creates_job_only_on_start
  (env : Collaborators) (request : Request) (w : World) :
  ∃ response w' evs,
    handler env request w = (Returns response, w')
    ∧ trace w' = (trace w ++ AuthGetUser :: evs)%list
    ∧ clock w' = clock w
    ∧ profiles (db w') = profiles (db w)
    ∧ transcription_usage (db w') = transcription_usage (db w)
    ∧ match json response with
      | Started jobId _ _ _ _ _ =>
          http_status response = 200
          ∧ ∃ user row,
              session request = Some user
              ∧ transcription_jobs (db w')
                = (transcription_jobs (db w) ++ [row])%list
              ∧ JobRow.user_id row = user_id user
              ∧ JobRow.status row = pending
              ∧ jobId = Some (JobRow.id row)
              ∧ List.filter is_fetch evs = [FetchProcess jobId]
      | _ => db w' = db w ∧ List.filter is_fetch evs = []
      end.
Proof.
  unfold handler, try_catch, request_json.
  rewrite bind_run. cbn [emit fst snd].
  destruct (session request) as [user|]; [|by eexists _, _, []].
  destruct (body request) as [parsed|]; [|by eexists _, _, []].
  rewrite bind_run. cbn [mret Task_ret].
  destruct (Body.youtubeId parsed) as [youtubeId|]; [|by eexists _, _, []].
  destruct (bool_decide (youtubeId = "")); [by eexists _, _, []|].
  destruct (Body.durationSeconds parsed) as [seconds|]; [|by eexists _, _, []].
  destruct (seconds <=? 0); [by eexists _, _, []|].
  cbv zeta. rewrite bind_run, getCompletedTranscription_run.
  destruct (with_transcript _) as [[job transcript]|].
  { eexists _, _, [_]. split; [done|]. cbn. by rewrite <- ?app_assoc. }
  rewrite bind_run, getActiveTranscriptionJob_run.
  destruct (if call_fails _ [] then None else _) as [job|].
  { eexists _, _, [_; _]. split; [done|]. cbn. by rewrite <- ?app_assoc. }
  rewrite bind_run.
  match goal with
  | |- context [canStartTranscription ?e ?u ?y ?m ?o ?w1] =>
      destruct (lookup_only_canStartTranscription e u y m o w1)
        as (lookups & Hlookups & Hquiet);
      destruct (canStartTranscription e u y m o w1) as [[decision|err] w2];
      cbn [snd] in Hlookups; subst w2
  end.
  2: { eexists _, _, (_ :: _ :: lookups). split; [done|].
       cbn. rewrite <- ?app_assoc. do 5 (split; [done|]).
       by apply filter_is_fetch_nil. }
  destruct (TranscriptionDecision.allowed decision); cbn [negb].
  2: { eexists _, _, (_ :: _ :: lookups). split; [done|].
       cbn. rewrite <- ?app_assoc. do 5 (split; [done|]).
       by apply filter_is_fetch_nil. }
  rewrite bind_run, createTranscriptionJob_run.
  destruct (call_fails _ []); cbn [negb Created.success].
  { eexists _, _, (_ :: _ :: lookups ++ [_]). split; [done|].
    cbn. rewrite <- ?app_assoc. do 5 (split; [done|]).
    rewrite List.filter_app. by rewrite filter_is_fetch_nil. }
  rewrite bind_run. cbn [emit fst snd].
  eexists _, _, (_ :: _ :: lookups ++ [_; _]). split; [done|].
  cbn. rewrite <- ?app_assoc. do 5 (split; [done|]). eexists user, _.
  do 5 (split; [done|]).
  rewrite List.filter_app. by rewrite filter_is_fetch_nil.
Qed.
(** X21: the handler validates before it touches the storage, in a fixed
    order: no session is answered 401 even when the body does not parse; a
    body that does not parse is answered 500 by the catch-all; a missing or
    empty [youtubeId] is answered 400 [MISSING_VIDEO_ID] whatever the
    duration; a duration that is not a positive number is answered 400
    [MISSING_DURATION]. None of these answers makes a storage call. *)
Theorem handler_validates_before_storage
  (env : Collaborators) (request : Request) (w : World) :
  let answered status payload :=
    handler env request w
    = (Returns {| http_status := status; json := payload |},
       with_events [AuthGetUser] w) in
  (session request = None → answered 401 AuthenticationRequired)
  ∧ (is_Some (session request) → body request = None →
     answered 500 InternalError)
  ∧ (∀ parsed,
       is_Some (session request) → body request = Some parsed →
       Body.youtubeId parsed = None ∨ Body.youtubeId parsed = Some "" →
       answered 400 MissingVideoId)
  ∧ (∀ parsed youtubeId,
       is_Some (session request) → body request = Some parsed →
       Body.youtubeId parsed = Some youtubeId → youtubeId ≠ "" →
       (∀ seconds, Body.durationSeconds parsed = Some seconds → seconds <= 0) →
       answered 400 MissingDuration).
Proof.
  intros answered. subst answered. cbv beta.
  unfold handler, try_catch, request_json. rewrite bind_run. cbn [emit fst snd].
  split; [by intros ->|].
  split; [by intros [user ->] ->|].
  split.
  - intros parsed [user ->] -> Hid. rewrite bind_run. cbn [mret Task_ret].
    by destruct Hid as [-> | ->].
  - intros parsed youtubeId [user ->] -> Hvideo Hid Hduration.
    rewrite bind_run. cbn [mret Task_ret].
    rewrite Hvideo, bool_decide_eq_false_2 by done.
    destruct (Body.durationSeconds parsed) as [seconds|]; [|done].
    by rewrite (proj2 (Z.leb_le _ _) (Hduration _ eq_refl)).
Qed.

Lemma handler_validates_before_storage_witness :
  handler sample_env sample_anonymous_request sample_world
  = (Returns {| http_status := 401; json := AuthenticationRequired |},
     with_events [AuthGetUser] sample_world).
Proof.
  exact (proj1 (handler_validates_before_storage sample_env
                  sample_anonymous_request sample_world) eq_refl).
Defined.

Lemma call_fails_after w evs later :
  call_fails (with_events evs w) later = call_fails w (evs ++ later).
Proof. unfold call_fails. cbn. by rewrite <- app_assoc. Qed.

(** X22: the handler never starts a second job next to one in flight. For a
    well-formed request of a user who has a job in flight for the video,
    when the storage answers the lookup of that job, the answer is the
    stored transcript or the most recent job in flight; the admission check
    is not reached, and nothing is written. *)
Theorem handler_answers_job_in_flight
  (env : Collaborators) (request : Request) (w : World)
  (user : User) (parsed : Body.t) (youtubeId : string) (seconds : Z)
  (running : JobRow.t) :
  session request = Some user →
  body request = Some parsed →
  Body.youtubeId parsed = Some youtubeId → youtubeId ≠ "" →
  Body.durationSeconds parsed = Some seconds → 0 < seconds →
  running ∈ transcription_jobs (db w) →
  active_job_of (user_id user) youtubeId running = true →
  call_fails w [AuthGetUser; From "transcription_jobs" "select"] = false →
  let select := From "transcription_jobs" "select" in
  (∃ jobId transcript,
     handler env request w
     = (Returns {| http_status := 200;
                   json := CompletedTranscription jobId transcript |},
        with_events [AuthGetUser; select] w))
  ∨ (∃ row,
       latest_active (user_id user) youtubeId (transcription_jobs (db w))
       = [row]
       ∧ handler env request w
         = (Returns {| http_status := 200;
                       json := ExistingJob (JobRow.id row)
                                 (default 0 (JobRow.progress row))
                                 (JobRow.current_stage row)
                                 (estimateProcessingTime env seconds) |},
            with_events [AuthGetUser; select; select] w)).
Proof.
  intros Hsession Hbody Hid Hnonempty Hduration Hpositive Hin Hactive Hanswers
    select.
  unfold handler, try_catch, request_json.
  rewrite bind_run, Hsession, Hbody. cbn [emit fst snd].
  rewrite bind_run. cbn [mret Task_ret].
  rewrite Hid, bool_decide_eq_false_2, Hduration by done.
  rewrite (proj2 (Z.leb_gt _ _) Hpositive). cbv zeta.
  rewrite bind_run, getCompletedTranscription_run.
  destruct (with_transcript _) as [[job transcript]|].
  { left. eexists _, _. by rewrite with_events_app. }
  right.
  rewrite bind_run, getActiveTranscriptionJob_run, !with_events_app.
  rewrite !call_fails_after. cbn [app]. rewrite Hanswers.
  destruct (order_desc_limit_1_nonempty
              (λ row, Some (JobRow.created_at row))
              (List.filter (active_job_of (user_id user) youtubeId)
                 (transcription_jobs (db w)))) as [row Hrow].
  { intros Hempty.
    assert (In running
              (List.filter (active_job_of (user_id user) youtubeId)
                 (transcription_jobs (db w)))) as Hfiltered
      by (apply filter_In; by rewrite <- list_elem_of_In).
    by rewrite Hempty in Hfiltered. }
  exists row. split; [done|].
  cbn [db with_events]. unfold latest_active. by rewrite Hrow.
Qed.

Lemma handler_answers_job_in_flight_witness :
  handler sample_env sample_repeated_request sample_world
  = (Returns {| http_status := 200;
                json := ExistingJob "job-run" 40 (Some "transcribing") 300 |},
     with_events
       [AuthGetUser; From "transcription_jobs" "select";
        From "transcription_jobs" "select"] sample_world).
Proof.
  destruct (handler_answers_job_in_flight sample_env sample_repeated_request
              sample_world {| user_id := "pro-user"; user_email := None |}
              {| Body.youtubeId := Some "video-2";
                 Body.durationSeconds := Some 600;
                 Body.videoId := None |}
              "video-2" 600 sample_pending_row)
    as [(jobId & transcript & Hrun) | (row & Hrow & Hrun)];
    [reflexivity | reflexivity | reflexivity | done | reflexivity | lia
    | by right; left | reflexivity | reflexivity | |].
  - apply (f_equal fst) in Hrun. vm_compute in Hrun. done.
  - vm_compute in Hrow. injection Hrow as <-. exact Hrun.
Defined.
Lemma ceil_div_bounds a b :
  0 < b → b * (ceil_div a b - 1) < a <= b * ceil_div a b.
Proof.
  intros Hb. unfold ceil_div.
  pose proof (Z.mul_div_le (- a) b Hb).
  pose proof (Z.mul_succ_div_gt (- a) b Hb).
  lia.
Qed.

(** X23: what the handler reports about credits is sound. A refusal is
    answered 403 with the message of its reason; [requiresTopup] is set
    exactly for [INSUFFICIENT_CREDITS], and then the reported balance is
    smaller than the minutes needed. A started job is billed the least
    whole number of minutes that covers the duration, and the balance
    reported after it is never negative. *)
Theorem handler_credit_reports
  (env : Collaborators) (request : Request) (w : World)
  (response : HttpResponse) (w' : World) :
  handler env request w = (Returns response, w') →
  match json response with
  | Refused reason minutesNeeded usage error requiresTopup existingJobId =>
      http_status response = 403
      ∧ reason ∈ [NO_SUBSCRIPTION; NOT_PRO; EXISTING_JOB; INSUFFICIENT_CREDITS]
      ∧ error = refusal_message reason
      ∧ (is_Some existingJobId → reason = EXISTING_JOB)
      ∧ (if requiresTopup then
           reason = INSUFFICIENT_CREDITS
           ∧ ∃ report, usage = Some report
                       ∧ report_totalRemaining report < minutesNeeded
         else reason ≠ INSUFFICIENT_CREDITS ∧ usage = None)
  | Started _ estimatedMinutes _ _ usage willUseTopup =>
      (∃ parsed seconds,
         body request = Some parsed
         ∧ Body.durationSeconds parsed = Some seconds
         ∧ 60 * (estimatedMinutes - 1) < seconds <= 60 * estimatedMinutes)
      ∧ match usage with
        | Some report => 0 <= report_totalRemaining report
        | None => willUseTopup = None
        end
  | _ => True
  end.
Proof.
  unfold handler, try_catch, request_json.
  rewrite bind_run. cbn [emit fst snd].
  destruct (session request) as [user|]; [|by intros [= <- _]].
  destruct (body request) as [parsed|]; [|by intros [= <- _]].
  rewrite bind_run. cbn [mret Task_ret].
  destruct (Body.youtubeId parsed) as [youtubeId|]; [|by intros [= <- _]].
  destruct (bool_decide (youtubeId = "")); [by intros [= <- _]|].
  destruct (Body.durationSeconds parsed) as [seconds|] eqn:Hseconds;
    [|by intros [= <- _]].
  destruct (seconds <=? 0); [by intros [= <- _]|].
  cbv zeta. rewrite bind_run, getCompletedTranscription_run.
  destruct (with_transcript _) as [[job transcript]|]; [by intros [= <- _]|].
  rewrite bind_run, getActiveTranscriptionJob_run.
  destruct (if call_fails _ [] then None else _) as [job|];
    [by intros [= <- _]|].
  rewrite bind_run.
  destruct (canStartTranscription _ _ _ _ _ _) as [[decision|err] w2] eqn:Hcan;
    [|by intros [= <- _]].
  pose proof (ceil_div_bounds seconds 60 eq_refl) as Hminutes.
  apply canStartTranscription_cases in Hcan
    as [-> | [[s ->] | [[s ->] | [(s & running & ->) | (s & stats & ->)]]]].
  - cbn [negb unlimited_admission TranscriptionDecision.allowed].
    rewrite bind_run, createTranscriptionJob_run.
    destruct (call_fails _ []); [by intros [= <- _]|].
    intros [= <- _]. cbn. split; [by exists parsed, seconds|done].
  - intros [= <- _]. cbn. split; [done|]. split; [by left|].
    split; [done|]. split; [by intros [? [=]]|]. by split.
  - intros [= <- _]. cbn. split; [done|]. split; [by right; left|].
    split; [done|]. split; [by intros [? [=]]|]. by split.
  - intros [= <- _]. cbn. split; [done|]. split; [by do 2 right; left|].
    split; [done|]. split; [done|]. by split.
  - unfold decision_on_stats.
    destruct (totalRemaining stats <? _) eqn:Hcredits.
    + intros [= <- _]. cbn. split; [done|]. split; [by do 3 right; left|].
      split; [done|]. split; [by intros [? [=]]|]. split; [done|].
      eexists. split; [done|]. cbn. by apply Z.ltb_lt.
    + cbn [negb TranscriptionDecision.allowed].
      rewrite bind_run, createTranscriptionJob_run.
      destruct (call_fails _ []); [by intros [= <- _]|].
      intros [= <- _]. cbn. apply Z.ltb_ge in Hcredits.
      split; [by exists parsed, seconds|lia].
Qed.

Lemma handler_credit_reports_witness :
  let run := handler sample_env sample_pro_request sample_world in
  match run.1 with
  | Returns response =>
      match json response with
      | Started _ estimatedMinutes _ _ (Some report) _ =>
          estimatedMinutes = 20 ∧ 0 <= report_totalRemaining report
      | _ => False
      end
  | Throws _ => False
  end.
Proof.
  intros run.
  pose proof (handler_credit_reports sample_env sample_pro_request
                sample_world) as Hreports.
  destruct run as [[response|err] w'] eqn:Hrun.
  - specialize (Hreports response w' Hrun).
    apply (f_equal fst) in Hrun. vm_compute in Hrun.
    injection Hrun as <-. cbn in Hreports |- *.
    split; [reflexivity|apply Hreports].
  - apply (f_equal fst) in Hrun. vm_compute in Hrun. discriminate.
Defined.
(** ** The route handler [GET /api/transcription-usage] *)



(** ** The stored transcript of a video *)

(** X25: [getCompletedTranscription], when the storage answers, returns
    nothing exactly when the video has no completed job, and otherwise a
    completed job of the video, of whichever user. If the returned job has
    a completion date, every completed job of the video has one, none
    later: the descending order puts a job without date first. It writes
    nothing. *)
Theorem getCompletedTranscription_latest (youtubeId : string) (w : World) :
  call_fails w [] = false →
  ∃ answer,
    getCompletedTranscription youtubeId w
    = (Returns answer, with_events [From "transcription_jobs" "select"] w)
    ∧ (answer = None
       ↔ List.filter (completed_job_of youtubeId)
           (transcription_jobs (db w)) = [])
    ∧ (∀ job, answer = Some job →
         ∃ row,
           job = mapDbJobToTranscriptionJob row
           ∧ row ∈ transcription_jobs (db w)
           ∧ Job.youtubeId job = youtubeId
           ∧ Job.status job = completed
           ∧ (∀ finished other,
                Job.completedAt job = Some finished →
                other ∈ transcription_jobs (db w) →
                completed_job_of youtubeId other = true →
                ∃ t, JobRow.completed_at other = Some t ∧ t <= finished)).
Proof.
  intros Hanswers. rewrite getCompletedTranscription_run, Hanswers.
  eexists. split; [done|]. unfold latest_completed.
  change (λ row : JobRow.t,
            bool_decide (JobRow.youtube_id row = youtubeId)
            && bool_decide (JobRow.status row = completed))
    with (completed_job_of youtubeId).
  destruct (List.filter (completed_job_of youtubeId)
              (transcription_jobs (db w))) as [|r rows] eqn:Hfilter.
  - cbn. by split.
  - destruct (order_desc_limit_1_nonempty JobRow.completed_at (r :: rows))
      as [row Hpick]; [done|].
    rewrite Hpick. cbn [maybeSingle]. split; [by split|].
    intros job [= <-]. exists row.
    pose proof (order_desc_limit_1_greatest _ _ _ Hpick) as Hgreatest.
    apply order_desc_limit_1_elem in Hpick.
    rewrite <- Hfilter in Hpick, Hgreatest.
    apply list_elem_of_In, filter_In in Hpick as [Hin Hcompleted].
    unfold completed_job_of in Hcompleted.
    apply andb_true_iff in Hcompleted as [Hvideo Hstatus].
    apply bool_decide_eq_true in Hvideo, Hstatus.
    split; [done|]. split; [by apply list_elem_of_In|].
    do 2 (split; [done|]).
    intros finished other Hfinished Hother Hcompleted. cbn in Hfinished.
    specialize (Hgreatest other). rewrite Hfinished in Hgreatest.
    destruct (JobRow.completed_at other) as [t|].
    + exists t. split; [done|]. apply Z.ltb_ge, Hgreatest.
      apply list_elem_of_In, filter_In. by rewrite <- list_elem_of_In.
    + discriminate Hgreatest.
      apply list_elem_of_In, filter_In. by rewrite <- list_elem_of_In.
Qed.

Lemma getCompletedTranscription_latest_witness :
  (getCompletedTranscription "video-1" sample_world).1
  = Returns (Some (mapDbJobToTranscriptionJob sample_completed_row)).
Proof.
  destruct (getCompletedTranscription_latest "video-1" sample_world eq_refl)
    as (answer & Hrun & _ & _).
  rewrite Hrun. revert Hrun. vm_compute. by intros [= <-].
Defined.
